(** * Containerlab Studio: the graph/document synchronisation core

    A shallow embedding of the editor component
    [src/components/ContainerLab.js]: the address allocator
    [generateIpsFromSubnet], the interface validator [validateInterface],
    the document renderer [updateYaml], the document parser
    [handleYamlChange] and the form handlers that commit nodes and edges.

    JavaScript values are modelled as follows.
    - Strings are [string]; [trim] and the whitespace skipped by [parseInt]
      use the ASCII white space characters.
    - Numbers are integers ([Z] or [N]); they are exact below 2^53, which is
      the range in which the source's arithmetic is exact as well.
    - An object used as a dictionary from node identifiers to lists is a
      [gmap]; an object whose key order is observed ([Object.entries], the
      dumped document) is an association list kept in JavaScript's property
      order.
    - A thrown exception is the left summand of [result]. *)

From Stdlib Require Import ZArith Lia Ascii String.
From stdpp Require Import gmap strings list pretty.

Local Open Scope string_scope.
Local Open Scope list_scope.

Set Warnings "-register-all,-clear-no-such-hyp".

(** ** Characters and strings *)

Definition is_digit (c : ascii) : bool :=
  (48 <=? nat_of_ascii c)%nat && (nat_of_ascii c <=? 57)%nat.

Definition digit_val (c : ascii) : N := N.of_nat (nat_of_ascii c - 48).

(** White space as [String.prototype.trim] and [parseInt] see it (ASCII
    part): tab, line feed, vertical tab, form feed, carriage return, space. *)
Definition is_js_space (c : ascii) : bool :=
  let n := nat_of_ascii c in
  ((9 <=? n)%nat && (n <=? 13)%nat) || (n =? 32)%nat.

Fixpoint skip_spaces (s : string) : string :=
  match s with
  | String c s' => if is_js_space c then skip_spaces s' else s
  | EmptyString => EmptyString
  end.

(** [!s.trim()]: the string is empty once trimmed. *)
Definition blank (s : string) : bool :=
  match skip_spaces s with EmptyString => true | _ => false end.

(** [s.trim()] *)
Definition trim (s : string) : string :=
  String.rev (skip_spaces (String.rev (skip_spaces s))).

(** The longest prefix of decimal digits, read as a number, together with
    the number of digits read. *)
Fixpoint leading_digits (s : string) (acc : N) (seen : bool) : option N :=
  match s with
  | String c s' =>
      if is_digit c then leading_digits s' (10 * acc + digit_val c)%N true
      else if seen then Some acc else None
  | EmptyString => if seen then Some acc else None
  end.

(** [parseInt(s, 10)]; [None] is [NaN]. *)
Definition parseInt (s : string) : option Z :=
  match skip_spaces s with
  | String "-" s' => (fun n => (- Z.of_N n)%Z) <$> leading_digits s' 0%N false
  | String "+" s' => Z.of_N <$> leading_digits s' 0%N false
  | s' => Z.of_N <$> leading_digits s' 0%N false
  end.

(** [s.split(sep)] for a separator of one character. *)
Fixpoint split_on (sep : ascii) (s : string) : list string :=
  match s with
  | EmptyString => [EmptyString]
  | String c s' =>
      if decide (c = sep) then EmptyString :: split_on sep s'
      else match split_on sep s' with
           | hd :: tl => String c hd :: tl
           | [] => [String c EmptyString]
           end
  end.

(** [parts.join(sep)] *)
Fixpoint join (sep : string) (parts : list string) : string :=
  match parts with
  | [] => ""
  | [p] => p
  | p :: rest => p +:+ sep +:+ join sep rest
  end.

(** [s.startsWith(p)] *)
Fixpoint startsWith (p s : string) : bool :=
  match p, s with
  | EmptyString, _ => true
  | String a p', String b s' => bool_decide (a = b) && startsWith p' s'
  | String _ _, EmptyString => false
  end.

(** [s.includes(p)] *)
Fixpoint includes (p s : string) : bool :=
  startsWith p s ||
  match s with
  | String _ s' => includes p s'
  | EmptyString => false
  end.

(** [s.endsWith(p)] *)
Definition endsWith (p s : string) : bool :=
  startsWith (String.rev p) (String.rev s).

Fixpoint drop_string (n : nat) (s : string) : string :=
  match n, s with
  | O, _ => s
  | S n', String _ s' => drop_string n' s'
  | S _, EmptyString => EmptyString
  end.

(** [s.replace(p, r)] for a string pattern: the first occurrence only. *)
Fixpoint replace_first (p r s : string) : string :=
  if startsWith p s then r +:+ drop_string (String.length p) s
  else match s with
       | String c s' => String c (replace_first p r s')
       | EmptyString => EmptyString
       end.

(** ** The address allocator *)

(** The loop of [generateIpsFromSubnet]: [n] iterations are left and [i] is
    the loop counter. *)
Fixpoint ip_loop (baseIp : list Z) (n : nat) (i : Z) : list string :=
  match n with
  | O => []
  | S n' =>
      let hostNum := (i + 2)%Z in
      if (255 <=? hostNum)%Z then []
      else
        let newIp := <[3 := hostNum]> baseIp in
        join "." (pretty <$> newIp) :: ip_loop baseIp n' (i + 1)%Z
  end.

Definition bad_octet (part : option Z) : bool :=
  match part with
  | None => true
  | Some v => (v <? 0)%Z || (255 <? v)%Z
  end.

Definition generateIpsFromSubnet (subnet : string) (count : nat) : list string :=
  if blank subnet then []
  else
    let parts := split_on "/" subnet in
    match parts with
    | [baseIpStr; maskStr] =>
        match parseInt maskStr with
        | None => []
        | Some mask =>
            if (mask <? 0)%Z || (32 <? mask)%Z then []
            else
              let ipParts := split_on "." baseIpStr in
              if negb (length ipParts =? 4)%nat then []
              else
                let baseIp := parseInt <$> ipParts in
                if existsb bad_octet baseIp then []
                else ip_loop (default 0%Z <$> baseIp) count 0
        end
    | _ => []
    end.

(** ** The interface validator *)

Definition char_between (lo hi c : ascii) : bool :=
  (nat_of_ascii lo <=? nat_of_ascii c)%nat && (nat_of_ascii c <=? nat_of_ascii hi)%nat.

(** [^eth[1-9][0-9]?$] *)
Definition iface_alt1 (s : string) : bool :=
  match s with
  | String "e" (String "t" (String "h" (String c1 rest))) =>
      char_between "1" "9" c1 &&
      match rest with
      | EmptyString => true
      | String c2 EmptyString => char_between "0" "9" c2
      | _ => false
      end
  | _ => false
  end.

(** [^eth[1-4][0-9]$] *)
Definition iface_alt2 (s : string) : bool :=
  match s with
  | String "e" (String "t" (String "h" (String c1 (String c2 EmptyString)))) =>
      char_between "1" "4" c1 && char_between "0" "9" c2
  | _ => false
  end.

(** [^eth5[0-4]$] *)
Definition iface_alt3 (s : string) : bool :=
  match s with
  | String "e" (String "t" (String "h" (String "5" (String c2 EmptyString)))) =>
      char_between "0" "4" c2
  | _ => false
  end.

(** [/^eth[1-9][0-9]?$|^eth[1-4][0-9]$|^eth5[0-4]$/.test(interfaceName)] *)
Definition validateInterface (interfaceName : string) : bool :=
  iface_alt1 interfaceName || iface_alt2 interfaceName || iface_alt3 interfaceName.

(** ** JavaScript values *)

(** A thrown exception, by its message. *)
Abbreviation result := (sum string).

Definition throw {A} (message : string) : result A := inl message.

Definition ok {A} (a : A) : result A := inr a.

Definition rbind {A B} (m : result A) (f : A → result B) : result B :=
  match m with
  | inl e => inl e
  | inr a => f a
  end.

Notation "'do' x <- m ; k" := (rbind m (fun x => k))
  (at level 10, x name, m at level 100, k at level 200).

(** [l.map(f)] where [f] may throw: the first exception escapes. *)
Fixpoint rmap {A B} (f : A → result B) (l : list A) : result (list B) :=
  match l with
  | [] => ok []
  | a :: l' => do b <- f a; do bs <- rmap f l'; ok (b :: bs)
  end.

(** [l.map((x, index) => f(x, index))] *)
Fixpoint rmapi_from {A B} (i : nat) (f : nat → A → result B) (l : list A)
  : result (list B) :=
  match l with
  | [] => ok []
  | a :: l' => do b <- f i a; do bs <- rmapi_from (S i) f l'; ok (b :: bs)
  end.

(** The values a JavaScript variable of the component can hold: what
    [yaml.load] returns, what the forms store and [undefined]. An object
    lists its own properties in property order. *)
Inductive jv : Type :=
  | JUndef
  | JNull
  | JBool (b : bool)
  | JNum (z : Z)
  | JStr (s : string)
  | JArr (l : list jv)
  | JObj (l : list (string * jv)).

Global Instance jv_inhabited : Inhabited jv := populate JUndef.

(** Truthiness, as [if (v)], [!v], [v || w] and [v && w] use it. *)
Definition truthy (v : jv) : bool :=
  match v with
  | JUndef | JNull => false
  | JBool b => b
  | JNum z => negb (z =? 0)%Z
  | JStr s => negb (String.eqb s "")
  | JArr _ | JObj _ => true
  end.

(** [v || w] *)
Definition jor (v w : jv) : jv := if truthy v then v else w.

(** [String(v)] and [`${v}`] *)
Fixpoint js_to_string (v : jv) : string :=
  match v with
  | JUndef => "undefined"
  | JNull => "null"
  | JBool true => "true"
  | JBool false => "false"
  | JNum z => pretty z
  | JStr s => s
  | JArr l =>
      join ","
        ((fix elems (l : list jv) : list string :=
            match l with
            | [] => []
            | JUndef :: l' => "" :: elems l'
            | JNull :: l' => "" :: elems l'
            | x :: l' => js_to_string x :: elems l'
            end) l)
  | JObj _ => "[object Object]"
  end.

Fixpoint string_chars (s : string) : list jv :=
  match s with
  | EmptyString => []
  | String c s' => JStr (String c EmptyString) :: string_chars s'
  end.

(** The digits of [s] read as a number when [s] holds digits only. *)
Fixpoint all_digits (s : string) (acc : N) : option N :=
  match s with
  | EmptyString => Some acc
  | String c s' =>
      if is_digit c then all_digits s' (10 * acc + digit_val c)%N else None
  end.

(** A property key that is an array index: the canonical decimal form of a
    number below 2^32 - 1. Such keys come first, in ascending order, in the
    property order of an object. *)
Definition array_index (k : string) : option N :=
  match k with
  | EmptyString => None
  | _ =>
      n ← all_digits k 0%N;
      if bool_decide (pretty n = k) && (n <? 4294967295)%N then Some n else None
  end.

Definition entries := list (string * jv).

Fixpoint obj_lookup (k : string) (o : entries) : option jv :=
  match o with
  | [] => None
  | (k', v) :: o' => if String.eqb k k' then Some v else obj_lookup k o'
  end.

Fixpoint obj_replace (k : string) (v : jv) (o : entries) : entries :=
  match o with
  | [] => []
  | (k', v') :: o' =>
      if String.eqb k k' then (k', v) :: o' else (k', v') :: obj_replace k v o'
  end.

(** Where a new key goes: an array index before the first key that is a
    larger index or no index at all; any other key at the end. *)
Fixpoint obj_insert_new (k : string) (v : jv) (o : entries) : entries :=
  match o with
  | [] => [(k, v)]
  | (k', v') :: o' =>
      match array_index k, array_index k' with
      | Some n, Some n' =>
          if (n <? n')%N then (k, v) :: o else (k', v') :: obj_insert_new k v o'
      | Some _, None => (k, v) :: o
      | None, _ => (k', v') :: obj_insert_new k v o'
      end
  end.

(** [o[k] = v] *)
Definition obj_set (k : string) (v : jv) (o : entries) : entries :=
  match obj_lookup k o with
  | Some _ => obj_replace k v o
  | None => obj_insert_new k v o
  end.

Fixpoint indexed_from (i : N) (l : list jv) : entries :=
  match l with
  | [] => []
  | x :: l' => (pretty i, x) :: indexed_from (N.succ i) l'
  end.

(** [Object.entries(v)], also the properties that [{...v}] copies. *)
Definition own_entries (v : jv) : entries :=
  match v with
  | JObj o => o
  | JArr l => indexed_from 0 l
  | JStr s => indexed_from 0 (string_chars s)
  | _ => []
  end.

(** [{...o, ...extra}] *)
Definition obj_assign (o extra : entries) : entries :=
  foldl (fun acc kv => obj_set kv.1 kv.2 acc) o extra.

(** [Object.fromEntries(pairs)] *)
Definition fromEntries (pairs : entries) : entries := obj_assign [] pairs.

(** [v[k]] and [v.k] on a receiver that is neither [null] nor [undefined]:
    own properties of objects, the length and the elements of arrays and
    strings. Inherited methods are not values of [jv]. *)
Definition prop (v : jv) (k : string) : jv :=
  match v with
  | JObj o => default JUndef (obj_lookup k o)
  | JArr l =>
      if String.eqb k "length" then JNum (Z.of_nat (length l))
      else match array_index k with
           | Some i => default JUndef (l !! N.to_nat i)
           | None => JUndef
           end
  | JStr s =>
      if String.eqb k "length" then JNum (Z.of_nat (String.length s))
      else match array_index k with
           | Some i => default JUndef (string_chars s !! N.to_nat i)
           | None => JUndef
           end
  | _ => JUndef
  end.

(** [v?.k] *)
Definition oprop (v : jv) (k : string) : jv := prop v k.

(** [v.k], which throws on [null] and [undefined]. *)
Definition get (v : jv) (k : string) : result jv :=
  match v with
  | JUndef => throw ("Cannot read properties of undefined (reading '" +:+ k +:+ "')")
  | JNull => throw ("Cannot read properties of null (reading '" +:+ k +:+ "')")
  | _ => inr (prop v k)
  end.

(** [v.length > 0] for the values of [length] that [prop] produces; any
    other value is compared as a number where it is one. *)
Definition positive_length (v : jv) : bool :=
  match prop v "length" with
  | JNum z => (0 <? z)%Z
  | JBool b => b
  | _ => false
  end.

(** [s.trim() !== ''], which throws unless [s] is a string. *)
Definition trimmed_nonempty (what : string) (v : jv) : result bool :=
  match v with
  | JStr s => inr (negb (blank s))
  | JUndef => throw ("Cannot read properties of undefined (reading 'trim')")
  | JNull => throw ("Cannot read properties of null (reading 'trim')")
  | _ => throw (what +:+ ".trim is not a function")
  end.

(** [a === b] where one side is a string or [undefined]: objects and arrays
    are equal to themselves only. *)
Definition strict_eq (a b : jv) : bool :=
  match a, b with
  | JUndef, JUndef | JNull, JNull => true
  | JBool x, JBool y => bool_decide (x = y)
  | JNum x, JNum y => (x =? y)%Z
  | JStr x, JStr y => String.eqb x y
  | _, _ => false
  end.

(** ** The data model *)

Record position : Type := { pos_x : Z; pos_y : Z }.

(** A graph node. [n_data] is the [data] object with its own properties. *)
Record node : Type := {
  n_id : string;
  n_type : option string;
  n_position : position;
  n_data : entries
}.

(** A graph edge; [data] holds the two interface names, [None] being
    [undefined]. *)
Record edge : Type := {
  e_id : option string;
  e_source : string;
  e_target : string;
  e_type : string;
  e_sourceInterface : option string;
  e_targetInterface : option string
}.

(** What the edge form was opened with: the connection drawn, or the edge
    under modification with its [id]. *)
Record connection : Type := {
  c_id : option string;
  c_source : string;
  c_target : string
}.

(** A kind template of the global settings. *)
Record kind_config : Type := {
  showStartupConfig : bool;
  startupConfig : jv;
  showImage : bool;
  image : jv;
  showExec : bool;
  exec : jv;
  showBinds : bool;
  binds : jv
}.

Record kind : Type := { k_name : string; k_config : kind_config }.

Inductive modal_type : Type := create | modify.

(** The [js-yaml] library: [yaml.load] throws on a syntax error and
    [yaml.dump] is called with the options the component passes. *)
Class YamlLib : Type := {
  text : Type;
  empty_text : text;
  yaml_load : text → result jv;
  yaml_dump : jv → text
}.

(** What [yaml.dump] writes for a value: a property whose value is
    [undefined] is left out and an [undefined] array element is written as
    [null]. *)
Fixpoint dumped (v : jv) : jv :=
  match v with
  | JArr l =>
      JArr ((fix elems (l : list jv) : list jv :=
               match l with
               | [] => []
               | JUndef :: l' => JNull :: elems l'
               | x :: l' => dumped x :: elems l'
               end) l)
  | JObj o =>
      JObj ((fix props (o : entries) : entries :=
               match o with
               | [] => []
               | (_, JUndef) :: o' => props o'
               | (k, x) :: o' => (k, dumped x) :: props o'
               end) o)
  | _ => v
  end.

(** A stand-in for the library in examples: a text is what [yaml.load]
    makes of it, either the value it parses to or the message of the syntax
    error; the empty text parses to [undefined]. *)
Definition parsed_text : YamlLib :=
  {| text := result jv;
     empty_text := inr JUndef;
     yaml_load := λ t, t;
     yaml_dump := λ v, inr (dumped v) |}.

Section Editor.

Context `{Y : YamlLib}.

(** The [user] property of the component: the user name when a user is
    signed in. *)
Context (user : option string).

(** The graph: nodes, edges and the Interface Registry. *)
Record graph_state : Type := {
  nodes : list node;
  edges : list edge;
  nodeInterfaces : gmap string (list (option string))
}.

(** The document text and its validity flag. *)
Record document_state : Type := {
  yamlOutput : text;
  editableYaml : text;
  isYamlValid : bool;
  yamlParseError : string
}.

(** The topology settings. *)
Record settings_state : Type := {
  topologyName : jv;
  showMgmt : bool;
  mgmtNetwork : jv;
  ipv4Subnet : jv;
  showIpv6 : bool;
  ipv6Subnet : jv;
  showKind : bool;
  kinds : list kind;
  showDefault : bool;
  defaultKind : jv
}.

(** The node form. Its text fields hold what was typed into them. *)
Record nodeForm_state : Type := {
  isModalOpen : bool;
  modalType : modal_type;
  newNode : option node;
  nodeName : string;
  nodeNamePrefix : string;
  nodeKind : string;
  nodeImage : string;
  nodeBinds : jv;
  nodeMgmtIp : string;
  nodeIpv6MgmtIp : string;
  nodeStartupConfig : string;
  nodeCustomFields : list (string * string);
  nodeCount : Z;
  nodeModalWarning : bool;
  isModifying : bool;
  showModifyNodeModal : bool;
  showOptionalSettings : bool
}.

(** The edge form. *)
Record edgeForm_state : Type := {
  isEdgeModalOpen : bool;
  newEdgeData : option connection;
  sourceInterface : string;
  targetInterface : string;
  edgeModalWarning : bool;
  isModifyingEdge : bool
}.

(** The error dialog. *)
Record alerts_state : Type := {
  showErrorModal : bool;
  errorMessage : string
}.

(** The state of the component between two events. The context store of
    [TopologyContext.js] mirrors these variables through the component's
    synchronising effect and is not kept apart. *)
Record state : Type := {
  graph : graph_state;
  document : document_state;
  settings : settings_state;
  nodeForm : nodeForm_state;
  edgeForm : edgeForm_state;
  alerts : alerts_state
}.

(** [with_g f st] changes one group of state variables. *)
Definition with_graph (f : graph_state -> graph_state) (st : state) : state :=
  {| graph := f (graph st); document := document st; settings := settings st;
     nodeForm := nodeForm st; edgeForm := edgeForm st; alerts := alerts st |}.

Definition with_document (f : document_state -> document_state) (st : state) : state :=
  {| graph := graph st; document := f (document st); settings := settings st;
     nodeForm := nodeForm st; edgeForm := edgeForm st; alerts := alerts st |}.

Definition with_settings (f : settings_state -> settings_state) (st : state) : state :=
  {| graph := graph st; document := document st; settings := f (settings st);
     nodeForm := nodeForm st; edgeForm := edgeForm st; alerts := alerts st |}.

Definition with_nodeForm (f : nodeForm_state -> nodeForm_state) (st : state) : state :=
  {| graph := graph st; document := document st; settings := settings st;
     nodeForm := f (nodeForm st); edgeForm := edgeForm st; alerts := alerts st |}.

Definition with_edgeForm (f : edgeForm_state -> edgeForm_state) (st : state) : state :=
  {| graph := graph st; document := document st; settings := settings st;
     nodeForm := nodeForm st; edgeForm := f (edgeForm st); alerts := alerts st |}.

Definition with_alerts (f : alerts_state -> alerts_state) (st : state) : state :=
  {| graph := graph st; document := document st; settings := settings st;
     nodeForm := nodeForm st; edgeForm := edgeForm st; alerts := f (alerts st) |}.

(** The setters returned by [useState]. *)
Definition setNodes (v : list node) : state -> state :=
  with_graph (fun g => {| nodes := v; edges := edges g;
    nodeInterfaces := nodeInterfaces g |}).

Definition setEdges (v : list edge) : state -> state :=
  with_graph (fun g => {| nodes := nodes g; edges := v;
    nodeInterfaces := nodeInterfaces g |}).

Definition setNodeInterfaces (v : gmap string (list (option string))) : state -> state :=
  with_graph (fun g => {| nodes := nodes g; edges := edges g; nodeInterfaces := v |}).

Definition setYamlOutput (v : text) : state -> state :=
  with_document (fun g => {| yamlOutput := v; editableYaml := editableYaml g;
    isYamlValid := isYamlValid g; yamlParseError := yamlParseError g |}).

Definition setEditableYaml (v : text) : state -> state :=
  with_document (fun g => {| yamlOutput := yamlOutput g; editableYaml := v;
    isYamlValid := isYamlValid g; yamlParseError := yamlParseError g |}).

Definition setIsYamlValid (v : bool) : state -> state :=
  with_document (fun g => {| yamlOutput := yamlOutput g; editableYaml := editableYaml g;
    isYamlValid := v; yamlParseError := yamlParseError g |}).

Definition setYamlParseError (v : string) : state -> state :=
  with_document (fun g => {| yamlOutput := yamlOutput g; editableYaml := editableYaml g;
    isYamlValid := isYamlValid g; yamlParseError := v |}).

Definition setTopologyName (v : jv) : state -> state :=
  with_settings (fun g => {| topologyName := v; showMgmt := showMgmt g;
    mgmtNetwork := mgmtNetwork g; ipv4Subnet := ipv4Subnet g; showIpv6 := showIpv6 g;
    ipv6Subnet := ipv6Subnet g; showKind := showKind g; kinds := kinds g;
    showDefault := showDefault g; defaultKind := defaultKind g |}).

Definition setShowMgmt (v : bool) : state -> state :=
  with_settings (fun g => {| topologyName := topologyName g; showMgmt := v;
    mgmtNetwork := mgmtNetwork g; ipv4Subnet := ipv4Subnet g; showIpv6 := showIpv6 g;
    ipv6Subnet := ipv6Subnet g; showKind := showKind g; kinds := kinds g;
    showDefault := showDefault g; defaultKind := defaultKind g |}).

Definition setMgmtNetwork (v : jv) : state -> state :=
  with_settings (fun g => {| topologyName := topologyName g; showMgmt := showMgmt g;
    mgmtNetwork := v; ipv4Subnet := ipv4Subnet g; showIpv6 := showIpv6 g;
    ipv6Subnet := ipv6Subnet g; showKind := showKind g; kinds := kinds g;
    showDefault := showDefault g; defaultKind := defaultKind g |}).

Definition setIpv4Subnet (v : jv) : state -> state :=
  with_settings (fun g => {| topologyName := topologyName g; showMgmt := showMgmt g;
    mgmtNetwork := mgmtNetwork g; ipv4Subnet := v; showIpv6 := showIpv6 g;
    ipv6Subnet := ipv6Subnet g; showKind := showKind g; kinds := kinds g;
    showDefault := showDefault g; defaultKind := defaultKind g |}).

Definition setShowIpv6 (v : bool) : state -> state :=
  with_settings (fun g => {| topologyName := topologyName g; showMgmt := showMgmt g;
    mgmtNetwork := mgmtNetwork g; ipv4Subnet := ipv4Subnet g; showIpv6 := v;
    ipv6Subnet := ipv6Subnet g; showKind := showKind g; kinds := kinds g;
    showDefault := showDefault g; defaultKind := defaultKind g |}).

Definition setIpv6Subnet (v : jv) : state -> state :=
  with_settings (fun g => {| topologyName := topologyName g; showMgmt := showMgmt g;
    mgmtNetwork := mgmtNetwork g; ipv4Subnet := ipv4Subnet g; showIpv6 := showIpv6 g;
    ipv6Subnet := v; showKind := showKind g; kinds := kinds g;
    showDefault := showDefault g; defaultKind := defaultKind g |}).

Definition setShowKind (v : bool) : state -> state :=
  with_settings (fun g => {| topologyName := topologyName g; showMgmt := showMgmt g;
    mgmtNetwork := mgmtNetwork g; ipv4Subnet := ipv4Subnet g; showIpv6 := showIpv6 g;
    ipv6Subnet := ipv6Subnet g; showKind := v; kinds := kinds g;
    showDefault := showDefault g; defaultKind := defaultKind g |}).

Definition setKinds (v : list kind) : state -> state :=
  with_settings (fun g => {| topologyName := topologyName g; showMgmt := showMgmt g;
    mgmtNetwork := mgmtNetwork g; ipv4Subnet := ipv4Subnet g; showIpv6 := showIpv6 g;
    ipv6Subnet := ipv6Subnet g; showKind := showKind g; kinds := v;
    showDefault := showDefault g; defaultKind := defaultKind g |}).

Definition setShowDefault (v : bool) : state -> state :=
  with_settings (fun g => {| topologyName := topologyName g; showMgmt := showMgmt g;
    mgmtNetwork := mgmtNetwork g; ipv4Subnet := ipv4Subnet g; showIpv6 := showIpv6 g;
    ipv6Subnet := ipv6Subnet g; showKind := showKind g; kinds := kinds g;
    showDefault := v; defaultKind := defaultKind g |}).

Definition setDefaultKind (v : jv) : state -> state :=
  with_settings (fun g => {| topologyName := topologyName g; showMgmt := showMgmt g;
    mgmtNetwork := mgmtNetwork g; ipv4Subnet := ipv4Subnet g; showIpv6 := showIpv6 g;
    ipv6Subnet := ipv6Subnet g; showKind := showKind g; kinds := kinds g;
    showDefault := showDefault g; defaultKind := v |}).

Definition setIsModalOpen (v : bool) : state -> state :=
  with_nodeForm (fun g => {| isModalOpen := v; modalType := modalType g;
    newNode := newNode g; nodeName := nodeName g; nodeNamePrefix := nodeNamePrefix g;
    nodeKind := nodeKind g; nodeImage := nodeImage g; nodeBinds := nodeBinds g;
    nodeMgmtIp := nodeMgmtIp g; nodeIpv6MgmtIp := nodeIpv6MgmtIp g;
    nodeStartupConfig := nodeStartupConfig g; nodeCustomFields := nodeCustomFields g;
    nodeCount := nodeCount g; nodeModalWarning := nodeModalWarning g;
    isModifying := isModifying g; showModifyNodeModal := showModifyNodeModal g;
    showOptionalSettings := showOptionalSettings g |}).

Definition setNodeName (v : string) : state -> state :=
  with_nodeForm (fun g => {| isModalOpen := isModalOpen g; modalType := modalType g;
    newNode := newNode g; nodeName := v; nodeNamePrefix := nodeNamePrefix g;
    nodeKind := nodeKind g; nodeImage := nodeImage g; nodeBinds := nodeBinds g;
    nodeMgmtIp := nodeMgmtIp g; nodeIpv6MgmtIp := nodeIpv6MgmtIp g;
    nodeStartupConfig := nodeStartupConfig g; nodeCustomFields := nodeCustomFields g;
    nodeCount := nodeCount g; nodeModalWarning := nodeModalWarning g;
    isModifying := isModifying g; showModifyNodeModal := showModifyNodeModal g;
    showOptionalSettings := showOptionalSettings g |}).

Definition setNodeNamePrefix (v : string) : state -> state :=
  with_nodeForm (fun g => {| isModalOpen := isModalOpen g; modalType := modalType g;
    newNode := newNode g; nodeName := nodeName g; nodeNamePrefix := v;
    nodeKind := nodeKind g; nodeImage := nodeImage g; nodeBinds := nodeBinds g;
    nodeMgmtIp := nodeMgmtIp g; nodeIpv6MgmtIp := nodeIpv6MgmtIp g;
    nodeStartupConfig := nodeStartupConfig g; nodeCustomFields := nodeCustomFields g;
    nodeCount := nodeCount g; nodeModalWarning := nodeModalWarning g;
    isModifying := isModifying g; showModifyNodeModal := showModifyNodeModal g;
    showOptionalSettings := showOptionalSettings g |}).

Definition setNodeKind (v : string) : state -> state :=
  with_nodeForm (fun g => {| isModalOpen := isModalOpen g; modalType := modalType g;
    newNode := newNode g; nodeName := nodeName g; nodeNamePrefix := nodeNamePrefix g;
    nodeKind := v; nodeImage := nodeImage g; nodeBinds := nodeBinds g;
    nodeMgmtIp := nodeMgmtIp g; nodeIpv6MgmtIp := nodeIpv6MgmtIp g;
    nodeStartupConfig := nodeStartupConfig g; nodeCustomFields := nodeCustomFields g;
    nodeCount := nodeCount g; nodeModalWarning := nodeModalWarning g;
    isModifying := isModifying g; showModifyNodeModal := showModifyNodeModal g;
    showOptionalSettings := showOptionalSettings g |}).

Definition setNodeImage (v : string) : state -> state :=
  with_nodeForm (fun g => {| isModalOpen := isModalOpen g; modalType := modalType g;
    newNode := newNode g; nodeName := nodeName g; nodeNamePrefix := nodeNamePrefix g;
    nodeKind := nodeKind g; nodeImage := v; nodeBinds := nodeBinds g;
    nodeMgmtIp := nodeMgmtIp g; nodeIpv6MgmtIp := nodeIpv6MgmtIp g;
    nodeStartupConfig := nodeStartupConfig g; nodeCustomFields := nodeCustomFields g;
    nodeCount := nodeCount g; nodeModalWarning := nodeModalWarning g;
    isModifying := isModifying g; showModifyNodeModal := showModifyNodeModal g;
    showOptionalSettings := showOptionalSettings g |}).

Definition setNodeBinds (v : jv) : state -> state :=
  with_nodeForm (fun g => {| isModalOpen := isModalOpen g; modalType := modalType g;
    newNode := newNode g; nodeName := nodeName g; nodeNamePrefix := nodeNamePrefix g;
    nodeKind := nodeKind g; nodeImage := nodeImage g; nodeBinds := v;
    nodeMgmtIp := nodeMgmtIp g; nodeIpv6MgmtIp := nodeIpv6MgmtIp g;
    nodeStartupConfig := nodeStartupConfig g; nodeCustomFields := nodeCustomFields g;
    nodeCount := nodeCount g; nodeModalWarning := nodeModalWarning g;
    isModifying := isModifying g; showModifyNodeModal := showModifyNodeModal g;
    showOptionalSettings := showOptionalSettings g |}).

Definition setNodeMgmtIp (v : string) : state -> state :=
  with_nodeForm (fun g => {| isModalOpen := isModalOpen g; modalType := modalType g;
    newNode := newNode g; nodeName := nodeName g; nodeNamePrefix := nodeNamePrefix g;
    nodeKind := nodeKind g; nodeImage := nodeImage g; nodeBinds := nodeBinds g;
    nodeMgmtIp := v; nodeIpv6MgmtIp := nodeIpv6MgmtIp g;
    nodeStartupConfig := nodeStartupConfig g; nodeCustomFields := nodeCustomFields g;
    nodeCount := nodeCount g; nodeModalWarning := nodeModalWarning g;
    isModifying := isModifying g; showModifyNodeModal := showModifyNodeModal g;
    showOptionalSettings := showOptionalSettings g |}).

Definition setNodeIpv6MgmtIp (v : string) : state -> state :=
  with_nodeForm (fun g => {| isModalOpen := isModalOpen g; modalType := modalType g;
    newNode := newNode g; nodeName := nodeName g; nodeNamePrefix := nodeNamePrefix g;
    nodeKind := nodeKind g; nodeImage := nodeImage g; nodeBinds := nodeBinds g;
    nodeMgmtIp := nodeMgmtIp g; nodeIpv6MgmtIp := v;
    nodeStartupConfig := nodeStartupConfig g; nodeCustomFields := nodeCustomFields g;
    nodeCount := nodeCount g; nodeModalWarning := nodeModalWarning g;
    isModifying := isModifying g; showModifyNodeModal := showModifyNodeModal g;
    showOptionalSettings := showOptionalSettings g |}).

Definition setNodeStartupConfig (v : string) : state -> state :=
  with_nodeForm (fun g => {| isModalOpen := isModalOpen g; modalType := modalType g;
    newNode := newNode g; nodeName := nodeName g; nodeNamePrefix := nodeNamePrefix g;
    nodeKind := nodeKind g; nodeImage := nodeImage g; nodeBinds := nodeBinds g;
    nodeMgmtIp := nodeMgmtIp g; nodeIpv6MgmtIp := nodeIpv6MgmtIp g;
    nodeStartupConfig := v; nodeCustomFields := nodeCustomFields g;
    nodeCount := nodeCount g; nodeModalWarning := nodeModalWarning g;
    isModifying := isModifying g; showModifyNodeModal := showModifyNodeModal g;
    showOptionalSettings := showOptionalSettings g |}).

Definition setNodeCustomFields (v : list (string * string)) : state -> state :=
  with_nodeForm (fun g => {| isModalOpen := isModalOpen g; modalType := modalType g;
    newNode := newNode g; nodeName := nodeName g; nodeNamePrefix := nodeNamePrefix g;
    nodeKind := nodeKind g; nodeImage := nodeImage g; nodeBinds := nodeBinds g;
    nodeMgmtIp := nodeMgmtIp g; nodeIpv6MgmtIp := nodeIpv6MgmtIp g;
    nodeStartupConfig := nodeStartupConfig g; nodeCustomFields := v;
    nodeCount := nodeCount g; nodeModalWarning := nodeModalWarning g;
    isModifying := isModifying g; showModifyNodeModal := showModifyNodeModal g;
    showOptionalSettings := showOptionalSettings g |}).

Definition setNodeCount (v : Z) : state -> state :=
  with_nodeForm (fun g => {| isModalOpen := isModalOpen g; modalType := modalType g;
    newNode := newNode g; nodeName := nodeName g; nodeNamePrefix := nodeNamePrefix g;
    nodeKind := nodeKind g; nodeImage := nodeImage g; nodeBinds := nodeBinds g;
    nodeMgmtIp := nodeMgmtIp g; nodeIpv6MgmtIp := nodeIpv6MgmtIp g;
    nodeStartupConfig := nodeStartupConfig g; nodeCustomFields := nodeCustomFields g;
    nodeCount := v; nodeModalWarning := nodeModalWarning g;
    isModifying := isModifying g; showModifyNodeModal := showModifyNodeModal g;
    showOptionalSettings := showOptionalSettings g |}).

Definition setNodeModalWarning (v : bool) : state -> state :=
  with_nodeForm (fun g => {| isModalOpen := isModalOpen g; modalType := modalType g;
    newNode := newNode g; nodeName := nodeName g; nodeNamePrefix := nodeNamePrefix g;
    nodeKind := nodeKind g; nodeImage := nodeImage g; nodeBinds := nodeBinds g;
    nodeMgmtIp := nodeMgmtIp g; nodeIpv6MgmtIp := nodeIpv6MgmtIp g;
    nodeStartupConfig := nodeStartupConfig g; nodeCustomFields := nodeCustomFields g;
    nodeCount := nodeCount g; nodeModalWarning := v; isModifying := isModifying g;
    showModifyNodeModal := showModifyNodeModal g;
    showOptionalSettings := showOptionalSettings g |}).

Definition setIsModifying (v : bool) : state -> state :=
  with_nodeForm (fun g => {| isModalOpen := isModalOpen g; modalType := modalType g;
    newNode := newNode g; nodeName := nodeName g; nodeNamePrefix := nodeNamePrefix g;
    nodeKind := nodeKind g; nodeImage := nodeImage g; nodeBinds := nodeBinds g;
    nodeMgmtIp := nodeMgmtIp g; nodeIpv6MgmtIp := nodeIpv6MgmtIp g;
    nodeStartupConfig := nodeStartupConfig g; nodeCustomFields := nodeCustomFields g;
    nodeCount := nodeCount g; nodeModalWarning := nodeModalWarning g; isModifying := v;
    showModifyNodeModal := showModifyNodeModal g;
    showOptionalSettings := showOptionalSettings g |}).

Definition setShowModifyNodeModal (v : bool) : state -> state :=
  with_nodeForm (fun g => {| isModalOpen := isModalOpen g; modalType := modalType g;
    newNode := newNode g; nodeName := nodeName g; nodeNamePrefix := nodeNamePrefix g;
    nodeKind := nodeKind g; nodeImage := nodeImage g; nodeBinds := nodeBinds g;
    nodeMgmtIp := nodeMgmtIp g; nodeIpv6MgmtIp := nodeIpv6MgmtIp g;
    nodeStartupConfig := nodeStartupConfig g; nodeCustomFields := nodeCustomFields g;
    nodeCount := nodeCount g; nodeModalWarning := nodeModalWarning g;
    isModifying := isModifying g; showModifyNodeModal := v;
    showOptionalSettings := showOptionalSettings g |}).

Definition setShowOptionalSettings (v : bool) : state -> state :=
  with_nodeForm (fun g => {| isModalOpen := isModalOpen g; modalType := modalType g;
    newNode := newNode g; nodeName := nodeName g; nodeNamePrefix := nodeNamePrefix g;
    nodeKind := nodeKind g; nodeImage := nodeImage g; nodeBinds := nodeBinds g;
    nodeMgmtIp := nodeMgmtIp g; nodeIpv6MgmtIp := nodeIpv6MgmtIp g;
    nodeStartupConfig := nodeStartupConfig g; nodeCustomFields := nodeCustomFields g;
    nodeCount := nodeCount g; nodeModalWarning := nodeModalWarning g;
    isModifying := isModifying g; showModifyNodeModal := showModifyNodeModal g;
    showOptionalSettings := v |}).

Definition setIsEdgeModalOpen (v : bool) : state -> state :=
  with_edgeForm (fun g => {| isEdgeModalOpen := v; newEdgeData := newEdgeData g;
    sourceInterface := sourceInterface g; targetInterface := targetInterface g;
    edgeModalWarning := edgeModalWarning g; isModifyingEdge := isModifyingEdge g |}).

Definition setNewEdgeData (v : option connection) : state -> state :=
  with_edgeForm (fun g => {| isEdgeModalOpen := isEdgeModalOpen g; newEdgeData := v;
    sourceInterface := sourceInterface g; targetInterface := targetInterface g;
    edgeModalWarning := edgeModalWarning g; isModifyingEdge := isModifyingEdge g |}).

Definition setSourceInterface (v : string) : state -> state :=
  with_edgeForm (fun g => {| isEdgeModalOpen := isEdgeModalOpen g;
    newEdgeData := newEdgeData g; sourceInterface := v;
    targetInterface := targetInterface g; edgeModalWarning := edgeModalWarning g;
    isModifyingEdge := isModifyingEdge g |}).

Definition setTargetInterface (v : string) : state -> state :=
  with_edgeForm (fun g => {| isEdgeModalOpen := isEdgeModalOpen g;
    newEdgeData := newEdgeData g; sourceInterface := sourceInterface g;
    targetInterface := v; edgeModalWarning := edgeModalWarning g;
    isModifyingEdge := isModifyingEdge g |}).

Definition setEdgeModalWarning (v : bool) : state -> state :=
  with_edgeForm (fun g => {| isEdgeModalOpen := isEdgeModalOpen g;
    newEdgeData := newEdgeData g; sourceInterface := sourceInterface g;
    targetInterface := targetInterface g; edgeModalWarning := v;
    isModifyingEdge := isModifyingEdge g |}).

Definition setIsModifyingEdge (v : bool) : state -> state :=
  with_edgeForm (fun g => {| isEdgeModalOpen := isEdgeModalOpen g;
    newEdgeData := newEdgeData g; sourceInterface := sourceInterface g;
    targetInterface := targetInterface g; edgeModalWarning := edgeModalWarning g;
    isModifyingEdge := v |}).

Definition setShowErrorModal (v : bool) : state -> state :=
  with_alerts (fun g => {| showErrorModal := v; errorMessage := errorMessage g |}).

Definition setErrorMessage (v : string) : state -> state :=
  with_alerts (fun g => {| showErrorModal := showErrorModal g; errorMessage := v |}).
(** ** Graph to document: [updateYaml] *)

(** [`${user?.username || ''}`] *)
Definition username_or_empty : string := default "" user.

(** [user?.username] *)
Definition username : jv :=
  match user with
  | Some u => JStr u
  | None => JUndef
  end.

(** [topologyName.includes(user?.username)]: the substring test of a
    string (its argument converted to a string), the membership test of an
    array. *)
Definition includes_username (name : jv) : result bool :=
  match name with
  | JStr s => ok (includes (js_to_string username) s)
  | JArr l => ok (existsb (strict_eq username) l)
  | JUndef => throw "Cannot read properties of undefined (reading 'includes')"
  | JNull => throw "Cannot read properties of null (reading 'includes')"
  | _ => throw "topologyName.includes is not a function"
  end.

(** The [name] of the document: the topology name, prefixed with the user
    name unless it holds it already. *)
Definition qualified_name (name : jv) : result jv :=
  do has <- includes_username name;
  ok (if has : bool then name
        else JStr (username_or_empty +:+ "-" +:+ js_to_string name)).

(** [existingConfig?.topology?.nodes?.[nodeKey] || {}] *)
Definition existingNodeOf (existingConfig : jv) (nodeKey : string) : jv :=
  jor (oprop (oprop (oprop existingConfig "topology") "nodes") nodeKey) (JObj []).

(** [binds.filter(bind => bind.source && bind.target)
          .map(bind => `${bind.source}:${bind.target}`)] *)
Definition valid_bind (bind : jv) : result (option jv) :=
  do source <- get bind "source";
  if truthy source then
    do target <- get bind "target";
    ok (if truthy target
          then Some (JStr (js_to_string source +:+ ":" +:+ js_to_string target))
          else None)
  else ok None.

Definition validBinds (binds : jv) : result (list jv) :=
  match binds with
  | JArr l => do kept <- rmap valid_bind l; ok (omap id kept)
  | _ => throw "node.data.binds.filter is not a function"
  end.

(** [field.key && field.value] *)
Definition valid_field (field : jv) : result bool :=
  do key <- get field "key";
  if truthy key then do value <- get field "value"; ok (truthy value)
  else ok false.

(** [customFields.some(field => field.key && field.value)] *)
Fixpoint some_valid_field (l : list jv) : result bool :=
  match l with
  | [] => ok false
  | field :: l' =>
      do valid <- valid_field field;
      if valid : bool then ok true else some_valid_field l'
  end.

(** The [forEach] that fills [env]. *)
Fixpoint fill_env (l : list jv) (env : entries) : result entries :=
  match l with
  | [] => ok env
  | field :: l' =>
      do key <- get field "key";
      do value <- get field "value";
      fill_env l'
        (if truthy key && truthy value then obj_set (js_to_string key) value env
         else env)
  end.

(** The [env] object of a node, when its custom fields hold a pair with a
    key and a value. *)
Definition node_env (customFields : jv) : result (option entries) :=
  if truthy customFields then
    match customFields with
    | JArr l =>
        do has <- some_valid_field l;
        if has : bool then do env <- fill_env l []; ok (Some env) else ok None
    | _ => throw "node.data.customFields.some is not a function"
    end
  else ok None.

(** [node.id || node.data.label], as a property key. *)
Definition nodeKeyOf (nd : node) : string :=
  if String.eqb (n_id nd) "" then js_to_string (prop (JObj (n_data nd)) "label")
  else n_id nd.

(** The document entry of one node. *)
Definition node_entry (existingConfig : jv) (nd : node) : result entries :=
  let data := JObj (n_data nd) in
  let existingNode := existingNodeOf existingConfig (nodeKeyOf nd) in
  let o := obj_assign [] (own_entries existingNode) in
  let o := obj_set "kind" (jor (prop data "kind") (prop existingNode "kind")) o in
  let o := obj_set "image" (jor (prop data "image") (prop existingNode "image")) o in
  do o <- (if positive_length (oprop data "binds") then
         do valid <- validBinds (prop data "binds");
         ok (if (0 <? length valid)%nat then obj_set "binds" (JArr valid) o else o)
       else if truthy (prop existingNode "binds") then
         ok (obj_set "binds" (prop existingNode "binds") o)
       else ok o);
  let o := if truthy (prop data "mgmtIp")
           then obj_set "mgmt-ipv4" (prop data "mgmtIp") o else o in
  let o := if truthy (prop data "ipv6MgmtIp")
           then obj_set "mgmt-ipv6" (prop data "ipv6MgmtIp") o else o in
  do o <- (if truthy (prop data "startupConfig") then
         do nonempty <- trimmed_nonempty "node.data.startupConfig" (prop data "startupConfig");
         ok (if nonempty : bool
               then obj_set "startup-config" (prop data "startupConfig") o else o)
       else ok o);
  do env <- node_env (prop data "customFields");
  ok (match env with
        | Some env => obj_set "env" (JObj env) o
        | None => o
        end).

(** The [forEach] over the nodes, which fills [yamlObject.topology.nodes]. *)
Fixpoint node_entries (existingConfig : jv) (nds : list node) (acc : entries)
  : result entries :=
  match nds with
  | [] => ok acc
  | nd :: nds' =>
      do o <- node_entry existingConfig nd;
      node_entries existingConfig nds' (obj_set (nodeKeyOf nd) (JObj o) acc)
  end.

(** [edge.data?.sourceInterface || 'eth1'] *)
Definition interface_or_eth1 (i : option string) : string :=
  match i with
  | Some s => if String.eqb s "" then "eth1" else s
  | None => "eth1"
  end.

Definition link_entry (e : edge) : jv :=
  JObj [("endpoints",
         JArr [JStr (e_source e +:+ ":" +:+ interface_or_eth1 (e_sourceInterface e));
               JStr (e_target e +:+ ":" +:+ interface_or_eth1 (e_targetInterface e))])].

(** [list.length > 0 && list[0].trim() !== ''], then
    [list.filter(item => item.trim() !== '')]. *)
Definition nonblank_item (what : string) (item : jv) : result (option jv) :=
  do keep <- trimmed_nonempty what item;
  ok (if keep : bool then Some item else None).

Definition nonblank_items (what : string) (l : jv) : result (option (list jv)) :=
  do len <- get l "length";
  if positive_length l then
    do first <- trimmed_nonempty (what +:+ "[0]") (prop l "0");
    if first : bool then
      match l with
      | JArr items => do kept <- rmap (nonblank_item what) items; ok (Some (omap id kept))
      | _ => throw (what +:+ ".filter is not a function")
      end
    else ok None
  else ok None.

(** The entry of one kind template: only the sub-fields that are enabled
    and not blank. *)
Definition kind_entry (k : kind) : result entries :=
  let c := k_config k in
  let o : entries := [] in
  do o <- (if showStartupConfig c then
         do keep <- trimmed_nonempty "kind.config.startupConfig" (startupConfig c);
         ok (if keep : bool then obj_set "startup-config" (startupConfig c) o else o)
       else ok o);
  do o <- (if showImage c then
         do keep <- trimmed_nonempty "kind.config.image" (image c);
         ok (if keep : bool then obj_set "image" (image c) o else o)
       else ok o);
  do o <- (if showExec c then
         do items <- nonblank_items "kind.config.exec" (exec c);
         ok (match items with
               | Some items => obj_set "exec" (JArr items) o
               | None => o
               end)
       else ok o);
  do o <- (if showBinds c then
         do items <- nonblank_items "kind.config.binds" (binds c);
         ok (match items with
               | Some items => obj_set "binds" (JArr items) o
               | None => o
               end)
       else ok o);
  ok o.

Fixpoint kind_entries (ks : list kind) (acc : entries) : result entries :=
  match ks with
  | [] => ok acc
  | k :: ks' =>
      do o <- kind_entry k;
      kind_entries ks' (obj_set (k_name k) (JObj o) acc)
  end.

(** [kinds.filter(kind => kind.name.trim() !== '')] *)
Definition validKinds (ks : list kind) : list kind :=
  filter (λ k, blank (k_name k) = false) ks.

(** [existingConfig]: the previous document, or an empty object when it is
    empty or does not parse. *)
Definition existingConfig (st : state) : jv :=
  match yaml_load (yamlOutput (document st)) with
  | inr v => jor v (JObj [])
  | inl _ => JObj []
  end.

(** The object that [updateYaml] hands to [yaml.dump]. *)
Definition yamlObject (st : state) (updatedNodes : list node) (updatedEdges : list edge)
  : result jv :=
  let s := settings st in
  do name <- qualified_name (topologyName s);
  do nodesObject <- node_entries (existingConfig st) updatedNodes [];
  let topology : entries := [("nodes", JObj nodesObject)] in
  let topology :=
    if (0 <? length updatedEdges)%nat
    then obj_set "links" (JArr (link_entry <$> updatedEdges)) topology
    else topology in
  let mgmt : option entries :=
    if showMgmt s then
      let mgmt : entries :=
        [("network", mgmtNetwork s); ("ipv4_subnet", ipv4Subnet s)] in
      Some (if showIpv6 s && truthy (ipv6Subnet s)
            then obj_set "ipv6_subnet" (ipv6Subnet s) mgmt else mgmt)
    else None in
  let topology :=
    if showDefault s && truthy (defaultKind s)
    then obj_set "defaults" (JObj [("kind", defaultKind s)]) topology
    else topology in
  do topology <-
    (if showKind s && (0 <? length (kinds s))%nat then
       let valid := validKinds (kinds s) in
       if (0 <? length valid)%nat then
         do kindsObject <- kind_entries valid [];
         ok (obj_set "kinds" (JObj kindsObject) topology)
       else ok topology
     else ok topology);
  let top : entries := [("name", name); ("topology", JObj topology)] in
  ok (JObj (match mgmt with
              | Some mgmt => obj_set "mgmt" (JObj mgmt) top
              | None => top
              end)).

(** [updateYaml(updatedNodes, updatedEdges)], called from a handler that
    saw the state [st]: the text it stores as both document copies, or the
    exception it throws. *)
Definition updateYaml (st : state) (updatedNodes : list node) (updatedEdges : list edge)
  : result text :=
  let s := settings st in
  if bool_decide (length updatedNodes = 0%nat) && negb (showMgmt s)
     && negb (showKind s) && negb (showDefault s)
     && strict_eq (topologyName s) (JStr "")
  then ok empty_text
  else do object <- yamlObject st updatedNodes updatedEdges; ok (yaml_dump object).

Definition storeYaml (yamlString : text) (st : state) : state :=
  setEditableYaml yamlString (setYamlOutput yamlString st).

(** What a handler leaves behind: the state with the updates it made, and
    the exception that escaped it, if any. *)
Definition outcome : Type := state * option string.

Definition finished (st : state) : outcome := (st, None).

(** A call of [updateYaml] inside a handler that saw [seen] and has brought
    the state to [st] so far. *)
Definition thenUpdateYaml (seen : state) (updatedNodes : list node)
  (updatedEdges : list edge) (st : state) (k : state → outcome) : outcome :=
  match updateYaml seen updatedNodes updatedEdges with
  | inr yamlString => k (storeYaml yamlString st)
  | inl e => (st, Some e)
  end.

(** ** Document to graph: [handleYamlChange] *)

Definition customField (key value : string) : jv :=
  JObj [("key", JStr key); ("value", JStr value)].

(** [Object.entries(o).map(([key, value]) => ({ key, value: String(value) }))] *)
Definition fields_of_entries (o : entries) : list jv :=
  (λ kv, customField kv.1 (js_to_string kv.2)) <$> o.

Definition reserved_node_keys : list string :=
  ["kind"; "image"; "binds"; "mgmt-ipv4"; "startup-config"; "env"].

(** The custom fields of a document node: its [env] object, or else every
    property outside the reserved ones; one empty pair when there is none. *)
Definition parsed_customFields (nodeData : jv) : result (list jv) :=
  do env <- get nodeData "env";
  let customFields :=
    if truthy env && (match env with JObj _ | JArr _ => true | _ => false end)
    then fields_of_entries (own_entries env)
    else fields_of_entries
           (filter (λ kv, kv.1 ∉ reserved_node_keys) (own_entries nodeData)) in
  ok (if bool_decide (length customFields = 0%nat)
        then [customField "" ""] else customFields).

(** The grid position of the node at [index]. *)
Definition grid_position (index : nat) : position :=
  {| pos_x := 100 + Z.of_nat (index mod 3) * 200;
     pos_y := 100 + Z.of_nat (index / 3) * 150 |}.

(** The graph node of one document entry. *)
Definition parsed_node (index : nat) (entry : string * jv) : result node :=
  let '(nodeName, nodeData) := entry in
  do customFields <- parsed_customFields nodeData;
  ok {| n_id := nodeName;
          n_type := Some "svgNode";
          n_position := grid_position index;
          n_data :=
            [("label", JStr nodeName);
             ("kind", jor (prop nodeData "kind") (JStr ""));
             ("image", jor (prop nodeData "image") (JStr ""));
             ("binds", jor (prop nodeData "binds") (JArr []));
             ("mgmtIp", jor (prop nodeData "mgmt-ipv4") (JStr ""));
             ("ipv6MgmtIp", jor (prop nodeData "mgmt-ipv6") (JStr ""));
             ("startupConfig", jor (prop nodeData "startup-config") (JStr ""));
             ("customFields", JArr customFields)] |}.

(** [const [name, iface] = link.endpoints[i].split(':')] *)
Definition endpoint (link : jv) (i : string) : result (string * option string) :=
  do endpoints <- get link "endpoints";
  do e <- get endpoints i;
  match e with
  | JStr s =>
      let parts := split_on ":" s in
      ok (default "" (parts !! 0%nat), parts !! 1%nat)
  | JUndef => throw "Cannot read properties of undefined (reading 'split')"
  | JNull => throw "Cannot read properties of null (reading 'split')"
  | _ => throw "link.endpoints[i].split is not a function"
  end.

(** The graph edge of one link entry. *)
Definition parsed_edge (index : nat) (link : jv) : result edge :=
  do s <- endpoint link "0";
  do t <- endpoint link "1";
  ok {| e_id := Some ("edge_" +:+ pretty index);
          e_source := s.1;
          e_target := t.1;
          e_type := "custom";
          e_sourceInterface := s.2;
          e_targetInterface := t.2 |}.

(** [(parsedYaml.topology.links || []).map(...)] *)
Definition parsed_edges (links : jv) : result (list edge) :=
  match jor links (JArr []) with
  | JArr l => rmapi_from 0 parsed_edge l
  | _ => throw "(parsedYaml.topology.links || []).map is not a function"
  end.

(** [currentNodes.find(n => n.data.label === name)?.id] *)
Definition node_id_by_label (currentNodes : list node) (name : string) : option string :=
  n_id <$> find (λ n, strict_eq (prop (JObj (n_data n)) "label") (JStr name)) currentNodes.

(** [newInterfaces[id] = [...(newInterfaces[id] || []), iface]] when [id]
    is found and not empty. *)
Definition reserve (id : option string) (iface : option string)
  (registry : gmap string (list (option string))) : gmap string (list (option string)) :=
  match id with
  | Some id =>
      if String.eqb id "" then registry
      else <[id := default [] (registry !! id) ++ [iface]]> registry
  | None => registry
  end.

Fixpoint interfaces_of_links (currentNodes : list node) (links : list jv)
  (registry : gmap string (list (option string)))
  : result (gmap string (list (option string))) :=
  match links with
  | [] => ok registry
  | link :: links' =>
      do s <- endpoint link "0";
      do t <- endpoint link "1";
      interfaces_of_links currentNodes links'
        (reserve (node_id_by_label currentNodes t.1) t.2
           (reserve (node_id_by_label currentNodes s.1) s.2 registry))
  end.

(** [initializeNodeInterfacesFromYaml(yamlContent, currentNodes)]: the
    Interface Registry rebuilt from the links; nothing happens without
    links or when an exception is caught. *)
Definition initializeNodeInterfacesFromYaml (yamlContent : text)
  (currentNodes : list node) (st : state) : state :=
  match yaml_load yamlContent with
  | inl _ => st
  | inr parsedYaml =>
      let links := oprop (oprop parsedYaml "topology") "links" in
      if truthy links then
        match links with
        | JArr l =>
            match interfaces_of_links currentNodes l ∅ with
            | inr newInterfaces => setNodeInterfaces newInterfaces st
            | inl _ => st
            end
        | _ => st
        end
      else st
  end.

(** The kind template read from one entry of the [kinds] section. *)
Definition parsed_kind (entry : string * jv) : result kind :=
  let '(kindName, kindConfig) := entry in
  do sc <- get kindConfig "startup-config";
  let img := prop kindConfig "image" in
  let ex := prop kindConfig "exec" in
  let bs := prop kindConfig "binds" in
  ok {| k_name := kindName;
          k_config :=
            {| showStartupConfig := truthy sc;
               startupConfig := jor sc (JStr "");
               showImage := truthy img;
               image := jor img (JStr "");
               showExec := truthy ex && truthy (prop ex "length");
               exec := jor ex (JArr [JStr ""]);
               showBinds := truthy bs && truthy (prop bs "length");
               binds := jor bs (JArr [JStr ""]) |} |}.

(** The fields of a custom-field list as the node form holds them. *)
Definition form_fields (customFields : list jv) : list (string * string) :=
  (λ f, (js_to_string (prop f "key"), js_to_string (prop f "value"))) <$> customFields.

(** The [try] block of [handleYamlChange] once the text is parsed and has a
    node section: the state it reaches, and the exception it throws on the
    way, if any. *)
Definition rebuild_from (newYaml : text) (parsedYaml nodesSection : jv) (st : state)
  : outcome :=
  match rmapi_from 0 parsed_node (own_entries nodesSection) with
  | inl e => (st, Some e)
  | inr newNodes =>
  match parsed_edges (prop (prop parsedYaml "topology") "links") with
  | inl e => (st, Some e)
  | inr newEdges =>
      let st := setEdges newEdges (setNodes newNodes st) in
      let st := initializeNodeInterfacesFromYaml newYaml newNodes st in
      let st := setYamlParseError "" (setIsYamlValid true st) in
      let st :=
        match newNodes with
        | [n] =>
            match prop (JObj (n_data n)) "customFields" with
            | JArr customFields => setNodeCustomFields (form_fields customFields) st
            | _ => st
            end
        | _ => st
        end in
      let mgmt := prop parsedYaml "mgmt" in
      let st :=
        if truthy mgmt then
          let st := setShowMgmt true st in
          let st := setMgmtNetwork
                      (jor (prop mgmt "network") (jor (prop mgmt "network") (JStr ""))) st in
          let st := setIpv4Subnet
                      (jor (prop mgmt "ipv4_subnet")
                         (jor (prop mgmt "ipv4-subnet") (JStr ""))) st in
          if truthy (jor (prop mgmt "ipv6_subnet") (prop mgmt "ipv6-subnet")) then
            setIpv6Subnet
              (jor (prop mgmt "ipv6_subnet") (jor (prop mgmt "ipv6-subnet") (JStr "")))
              (setShowIpv6 true st)
          else st
        else st in
      let kindsSection := prop (prop parsedYaml "topology") "kinds" in
      let afterKinds : outcome :=
        if truthy kindsSection then
          let st := setShowKind true st in
          match rmap parsed_kind (own_entries kindsSection) with
          | inl e => (st, Some e)
          | inr newKinds =>
              finished (if (0 <? length newKinds)%nat then setKinds newKinds st else st)
          end
        else finished st in
      match afterKinds with
      | (st, Some e) => (st, Some e)
      | (st, None) =>
          let defaults := prop (prop parsedYaml "topology") "defaults" in
          finished (if truthy defaults then
                  setDefaultKind (jor (prop defaults "kind") (JStr ""))
                    (setShowDefault true st)
                else st)
      end
  end
  end.

(** [handleYamlChange(newYaml)]: the text is stored first; a text that does
    not parse, has no [topology.nodes] or makes the rebuilding throw sets
    the invalid flag and the error message. *)
Definition handleYamlChange (newYaml : text) (st : state) : state :=
  let st := setYamlOutput newYaml (setEditableYaml newYaml st) in
  let attempt : outcome :=
    match yaml_load newYaml with
    | inl e => (st, Some e)
    | inr parsedYaml =>
        let name := oprop parsedYaml "name" in
        let st := if truthy name then setTopologyName name st else st in
        let nodesSection := oprop (oprop parsedYaml "topology") "nodes" in
        if truthy nodesSection then rebuild_from newYaml parsedYaml nodesSection st
        else (st, Some "Invalid YAML structure")
    end in
  match attempt with
  | (st, None) => st
  | (st, Some message) =>
      setYamlParseError ("Error parsing YAML: " +:+ message) (setIsYamlValid false st)
  end.

(** ** The node form *)

(** [Math.max(1, Math.min(parseInt(value, 10) || 1, 100))] *)
Definition clamp_count (value : string) : Z :=
  let count :=
    match parseInt value with
    | Some n => if (n =? 0)%Z then 1%Z else n
    | None => 1%Z
    end in
  Z.max 1 (Z.min count 100).

(** [handleNodeCountChange(event)], [value] being [event.target.value]. *)
Definition handleNodeCountChange (value : string) (st : state) : state :=
  let newCount := clamp_count value in
  let st' := setNodeCount newCount st in
  if negb (String.eqb (nodeNamePrefix (nodeForm st)) "") then
    setNodeName
      (nodeNamePrefix (nodeForm st) +:+ (if (1 <? newCount)%Z then "1" else "")) st'
  else st'.

(** [label.match(new RegExp(`^${prefix}(\d+)$`))] followed by
    [parseInt(match[1], 10)], for a prefix without regular expression
    operators: the number that follows the prefix when only digits, and at
    least one, follow it. *)
Definition suffix_number (prefix label : string) : option N :=
  if startsWith prefix label then
    match drop_string (String.length prefix) label with
    | EmptyString => None
    | digits => all_digits digits 0%N
    end
  else None.

(** The prefixes [suffix_number] is exact for: letters, digits, [-] and [_]. *)
Definition plain_char (c : ascii) : bool :=
  let n := nat_of_ascii c in
  is_digit c || ((65 <=? n)%nat && (n <=? 90)%nat) || ((97 <=? n)%nat && (n <=? 122)%nat)
  || (n =? 45)%nat || (n =? 95)%nat.

Fixpoint plain_prefix (s : string) : bool :=
  match s with
  | EmptyString => true
  | String c s' => plain_char c && plain_prefix s'
  end.

(** The [forEach] that finds [highestNodeNum]; a label that is not a string
    has no [match] method. *)
Fixpoint highestNodeNum (prefix : string) (nds : list node) (highest : N) : result N :=
  match nds with
  | [] => ok highest
  | nd :: nds' =>
      match prop (JObj (n_data nd)) "label" with
      | JStr label =>
          highestNodeNum prefix nds'
            (match suffix_number prefix label with
             | Some num => if (highest <? num)%N then num else highest
             | None => highest
             end)
      | JUndef => throw "Cannot read properties of undefined (reading 'match')"
      | JNull => throw "Cannot read properties of null (reading 'match')"
      | _ => throw "node.data.label.match is not a function"
      end
  end.

Definition customFields_value (fields : list (string * string)) : jv :=
  JArr ((λ f, customField f.1 f.2) <$> fields).

(** [Object.fromEntries(nodeCustomFields.filter(f => f.key && f.value)
                                          .map(f => [f.key, f.value]))] *)
Definition customFields_object (fields : list (string * string)) : entries :=
  fromEntries
    ((λ f, (f.1, JStr f.2)) <$>
       filter (λ f, f.1 ≠ "" ∧ f.2 ≠ "") fields).

(** The [data] object the node form writes: the previous properties, the
    fields of the form, then the custom fields as properties of their own. *)
Definition form_data (previous : entries) (label mgmtIp ipv6MgmtIp : string)
  (f : nodeForm_state) : entries :=
  let d := obj_set "label" (JStr label) previous in
  let d := obj_set "kind" (JStr (nodeKind f)) d in
  let d := obj_set "image" (JStr (nodeImage f)) d in
  let d := obj_set "binds" (nodeBinds f) d in
  let d := obj_set "mgmtIp" (JStr mgmtIp) d in
  let d := obj_set "ipv6MgmtIp" (JStr ipv6MgmtIp) d in
  let d := obj_set "startupConfig" (JStr (nodeStartupConfig f)) d in
  let d := obj_set "customFields" (customFields_value (nodeCustomFields f)) d in
  obj_assign d (customFields_object (nodeCustomFields f)).

(** The edges after a rename, as both modify handlers compute them. *)
Definition rename_edge (oldNodeId updatedNodeId : string) (e : edge) : edge :=
  if String.eqb (e_source e) oldNodeId then
    {| e_id := e_id e; e_source := updatedNodeId; e_target := e_target e;
       e_type := e_type e; e_sourceInterface := e_sourceInterface e;
       e_targetInterface := e_targetInterface e |}
  else if String.eqb (e_target e) oldNodeId then
    {| e_id := e_id e; e_source := e_source e; e_target := updatedNodeId;
       e_type := e_type e; e_sourceInterface := e_sourceInterface e;
       e_targetInterface := e_targetInterface e |}
  else e.

(** The Interface Registry after a rename: the entry is stored under the
    new key and the old key is deleted. *)
Definition move_interfaces (oldNodeId updatedNodeId : string)
  (prev : gmap string (list (option string))) : gmap string (list (option string)) :=
  delete oldNodeId
    (match prev !! oldNodeId with
     | Some l => <[updatedNodeId := l]> prev
     | None => prev
     end).

(** The part the two modify handlers share, from [oldNodeId] on. *)
Definition submit_modification (st : state) (after : state → state) : outcome :=
  let f := nodeForm st in
  match newNode f with
  | None => (st, Some "Cannot read properties of null (reading 'id')")
  | Some node =>
      let oldNodeId := n_id node in
      let wasNameChanged :=
        negb (strict_eq (JStr (nodeName f)) (prop (JObj (n_data node)) "label")) in
      let updatedNodeId := if wasNameChanged then nodeName f else oldNodeId in
      let updatedNode :=
        {| n_id := updatedNodeId;
           n_type := Some "svgNode";
           n_position := n_position node;
           n_data := form_data (n_data node) (nodeName f) (nodeMgmtIp f)
                       (nodeIpv6MgmtIp f) f |} in
      let updatedNodes :=
        (λ n, if String.eqb (n_id n) oldNodeId then updatedNode else n)
          <$> nodes (graph st) in
      let updatedEdges :=
        if wasNameChanged
        then rename_edge oldNodeId updatedNodeId <$> edges (graph st)
        else edges (graph st) in
      thenUpdateYaml st updatedNodes updatedEdges st (λ st',
        let st' := setNodes updatedNodes st' in
        let st' :=
          if wasNameChanged then
            let st' := setEdges updatedEdges st' in
            match nodeInterfaces (graph st) !! oldNodeId with
            | Some _ =>
                setNodeInterfaces
                  (move_interfaces oldNodeId updatedNodeId (nodeInterfaces (graph st')))
                  st'
            | None => st'
            end
          else st' in
        finished (after st'))
  end.

(** [handleModifyNodeSubmit()] *)
Definition handleModifyNodeSubmit (st : state) : outcome :=
  if blank (nodeKind (nodeForm st)) then finished (setNodeModalWarning true st)
  else
    submit_modification st (λ st',
      setNodeModalWarning false (setIsModifying false (setShowModifyNodeModal false st'))).

(** [`${nodeMgmtIp.endsWith('.') ? nodeMgmtIp : `${nodeMgmtIp}.`}${nodeNum}`],
    or the empty string for a blank base. *)
Definition mgmtIpWithSuffix (nodeMgmtIp : string) (nodeNum : N) : string :=
  if negb (String.eqb nodeMgmtIp "") && negb (blank nodeMgmtIp) then
    (if endsWith "." nodeMgmtIp then nodeMgmtIp else nodeMgmtIp +:+ ".") +:+ pretty nodeNum
  else "".

Definition ipv6WithSuffix (nodeIpv6MgmtIp : string) (nodeNum : N) : string :=
  if negb (String.eqb nodeIpv6MgmtIp "") && negb (blank nodeIpv6MgmtIp) then
    if endsWith "::" nodeIpv6MgmtIp then nodeIpv6MgmtIp +:+ pretty nodeNum
    else if includes "::" nodeIpv6MgmtIp then
      replace_first "::" ("::" +:+ pretty nodeNum +:+ ":") nodeIpv6MgmtIp
    else nodeIpv6MgmtIp +:+ pretty nodeNum
  else "".

(** The node a creation commits under the name [finalNodeName]. *)
Definition created_node (f : nodeForm_state) (template : node) (finalNodeName : string)
  (at_position : position) (mgmtIp ipv6MgmtIp : string) : node :=
  {| n_id := finalNodeName;
     n_type := Some "svgNode";
     n_position := at_position;
     n_data := form_data (n_data template) finalNodeName mgmtIp ipv6MgmtIp f |}.

(** The node that the loop of the bulk creation builds at step [i]: four
    nodes per row. *)
Definition bulk_node (f : nodeForm_state) (template : node) (startingNum : N) (i : nat)
  : node :=
  let nodeNum := (startingNum + N.of_nat i)%N in
  let row := (i / 4)%nat in
  let col := (i mod 4)%nat in
  let basePosition := n_position template in
  created_node f template (nodeNamePrefix f +:+ pretty nodeNum)
    {| pos_x := pos_x basePosition + Z.of_nat col * 180;
       pos_y := pos_y basePosition + Z.of_nat row * 150 |}
    (mgmtIpWithSuffix (nodeMgmtIp f) nodeNum)
    (ipv6WithSuffix (nodeIpv6MgmtIp f) nodeNum).

(** [initializeNodeInterfaces(nodeId)] *)
Definition initializeNodeInterfaces (nodeId : string) (st : state) : state :=
  setNodeInterfaces (<[nodeId := []]> (nodeInterfaces (graph st))) st.

(** The form as [handleModalSubmit] resets it after a creation. *)
Definition reset_node_form (st : state) : state :=
  setShowOptionalSettings false
    (setNodeStartupConfig ""
       (setNodeCount 1
          (setNodeModalWarning false
             (setNodeIpv6MgmtIp ""
                (setNodeMgmtIp ""
                   (setNodeBinds (JArr [JStr ""])
                      (setNodeImage "ceos:4.34.0F"
                         (setNodeKind "ceos"
                            (setNodeNamePrefix ""
                               (setNodeName "" (setIsModalOpen false st))))))))))).

(** The creation branch of [handleModalSubmit]. *)
Definition submit_creation (st : state) : outcome :=
  let f := nodeForm st in
  match highestNodeNum (nodeNamePrefix f) (nodes (graph st)) 0 with
  | inl e => (st, Some e)
  | inr highest =>
      match newNode f with
      | None => (st, Some "Cannot read properties of null (reading 'data')")
      | Some template =>
          let '(st', newNodesAdded) :=
            if (nodeCount f =? 1)%Z then
              let finalNodeName :=
                if String.eqb (trim (nodeName f)) ""
                then nodeNamePrefix f +:+ pretty (highest + 1)%N
                else trim (nodeName f) in
              let newNodeWithData :=
                created_node f template finalNodeName (n_position template)
                  (nodeMgmtIp f) (nodeIpv6MgmtIp f) in
              if isModifying f then
                (setIsModifying false
                   (setNodes
                      ((λ n, if String.eqb (n_id n) (n_id template)
                             then newNodeWithData else n) <$> nodes (graph st)) st),
                 [])
              else
                (initializeNodeInterfaces (n_id newNodeWithData)
                   (setNodes (nodes (graph st) ++ [newNodeWithData]) st),
                 [newNodeWithData])
            else
              let startingNum := (highest + 1)%N in
              let newNodesWithData :=
                bulk_node f template startingNum <$> seq 0 (Z.to_nat (nodeCount f)) in
              (setNodes (nodes (graph st) ++ newNodesWithData)
                 (foldl (λ acc n, initializeNodeInterfaces (n_id n) acc) st
                    newNodesWithData),
               newNodesWithData) in
          let allNodes := nodes (graph st) ++ newNodesAdded in
          thenUpdateYaml st allNodes (edges (graph st)) st'
            (λ st', finished (reset_node_form st'))
      end
  end.

(** [handleModalSubmit()] *)
Definition handleModalSubmit (st : state) : outcome :=
  let f := nodeForm st in
  match modalType f with
  | modify =>
      if blank (nodeName f) || blank (nodeKind f)
      then finished (setNodeModalWarning true st)
      else
        submit_modification st (λ st',
          setIsModalOpen false
            (setNodeModalWarning false
               (setIsModifying false (setShowModifyNodeModal false st'))))
  | create =>
      if blank (nodeNamePrefix f) || blank (nodeKind f)
      then finished (setNodeModalWarning true st)
      else submit_creation st
  end.

(** ** The edge form *)

Definition interface_error : string :=
  "Interface names must be in the format " +:+ String "034" "eth" +:+ String "034"
    " followed by a number (1-54)".

(** The updater that retracts the reservations of the edge under
    modification; both lists are read from [prev]. *)
Definition retract_interfaces (oldEdge : edge)
  (prev : gmap string (list (option string)))
  : result (gmap string (list (option string))) :=
  match prev !! e_source oldEdge, prev !! e_target oldEdge with
  | Some ofSource, Some ofTarget =>
      ok (<[e_target oldEdge :=
                filter (λ i, i ≠ e_targetInterface oldEdge) ofTarget]>
              (<[e_source oldEdge :=
                   filter (λ i, i ≠ e_sourceInterface oldEdge) ofSource]> prev))
  | _, _ => throw "Cannot read properties of undefined (reading 'filter')"
  end.

(** The updater that adds the reservations of the submitted edge; both
    lists are read from [prev]. *)
Definition add_interfaces (source target sourceInterface targetInterface : string)
  (prev : gmap string (list (option string))) : gmap string (list (option string)) :=
  <[target := default [] (prev !! target) ++ [Some targetInterface]]>
    (<[source := default [] (prev !! source) ++ [Some sourceInterface]]> prev).

(** The test of the [find] that looks for a duplicate of the new edge. *)
Definition same_link (newEdge : edge) (sourceInterface targetInterface : string)
  (e : edge) : bool :=
  String.eqb (e_source e) (e_source newEdge)
  && String.eqb (e_target e) (e_target newEdge)
  && bool_decide (e_sourceInterface e = Some sourceInterface)
  && bool_decide (e_targetInterface e = Some targetInterface).

Definition close_edge_form (st : state) : state :=
  setEdgeModalWarning false
    (setNewEdgeData None
       (setTargetInterface "" (setSourceInterface "" (setIsEdgeModalOpen false st)))).

(** [handleEdgeModalSubmit()]. An exception thrown by one of the updater
    functions escapes while React applies the updates; the outcome then
    carries the state the handler saw. *)
Definition handleEdgeModalSubmit (st : state) : outcome :=
  let f := edgeForm st in
  let sourceInterface := sourceInterface f in
  let targetInterface := targetInterface f in
  if blank sourceInterface || blank targetInterface
  then finished (setEdgeModalWarning true st)
  else if negb (validateInterface sourceInterface)
          || negb (validateInterface targetInterface)
  then finished (setShowErrorModal true (setErrorMessage interface_error st))
  else
    match newEdgeData f with
    | None => (st, Some "Cannot read properties of null (reading 'id')")
    | Some c =>
        let edgeId :=
          if isModifyingEdge f then c_id c
          else Some ("edge_" +:+ c_source c +:+ "_" +:+ c_target c +:+ "_"
                       +:+ sourceInterface +:+ "_" +:+ targetInterface) in
        let newEdge :=
          {| e_id := edgeId; e_source := c_source c; e_target := c_target c;
             e_type := "custom";
             e_sourceInterface := Some sourceInterface;
             e_targetInterface := Some targetInterface |} in
        let retracted :=
          if isModifyingEdge f then
            match find (λ e, bool_decide (e_id e = e_id newEdge)) (edges (graph st)) with
            | Some oldEdge => retract_interfaces oldEdge (nodeInterfaces (graph st))
            | None => ok (nodeInterfaces (graph st))
            end
          else ok (nodeInterfaces (graph st)) in
        match retracted with
        | inl e => (st, Some e)
        | inr registry =>
            let st' :=
              setNodeInterfaces
                (add_interfaces (e_source newEdge) (e_target newEdge)
                   sourceInterface targetInterface registry) st in
            if isModifyingEdge f then
              let updatedEdges :=
                (λ e, if bool_decide (e_id e = e_id newEdge) then newEdge else e)
                  <$> edges (graph st) in
              match updateYaml st (nodes (graph st)) updatedEdges with
              | inl e => (st, Some e)
              | inr yamlString =>
                  finished
                    (close_edge_form
                       (setIsModifyingEdge false
                          (setEdges updatedEdges (storeYaml yamlString st'))))
              end
            else
              match find (same_link newEdge sourceInterface targetInterface)
                      (edges (graph st)) with
              | Some duplicateEdge => finished (close_edge_form st')
              | None =>
                  let updatedEdges := edges (graph st) ++ [newEdge] in
                  match updateYaml st (nodes (graph st)) updatedEdges with
                  | inl e => (st, Some e)
                  | inr yamlString =>
                      finished
                        (close_edge_form
                           (setEdges updatedEdges (storeYaml yamlString st')))
                  end
              end
        end
    end.

End Editor.

(** The kind template the settings start with. *)
Definition emptyKind : kind :=
  {| k_name := "";
     k_config :=
       {| showStartupConfig := false; startupConfig := JStr "";
          showImage := false; image := JStr "";
          showExec := false; exec := JArr [JStr ""];
          showBinds := false; binds := JArr [JStr ""] |} |}.

(** The state of a fresh session: the initial values of [useState] and of
    the context store. *)
Definition initialState `{Y : YamlLib} : state :=
  {| graph := {| nodes := []; edges := []; nodeInterfaces := ∅ |};
     document :=
       {| yamlOutput := empty_text; editableYaml := empty_text;
          isYamlValid := true; yamlParseError := "" |};
     settings :=
       {| topologyName := JStr ""; showMgmt := false; mgmtNetwork := JStr "";
          ipv4Subnet := JStr ""; showIpv6 := false; ipv6Subnet := JStr "";
          showKind := false; kinds := [emptyKind]; showDefault := false;
          defaultKind := JStr "" |};
     nodeForm :=
       {| isModalOpen := false; modalType := create; newNode := None;
          nodeName := ""; nodeNamePrefix := ""; nodeKind := "ceos";
          nodeImage := "ceos:4.34.0F";
          nodeBinds := JArr [JObj [("source", JStr ""); ("target", JStr "")]];
          nodeMgmtIp := ""; nodeIpv6MgmtIp := ""; nodeStartupConfig := "";
          nodeCustomFields := [("", "")]; nodeCount := 1;
          nodeModalWarning := false; isModifying := false;
          showModifyNodeModal := false; showOptionalSettings := false |};
     edgeForm :=
       {| isEdgeModalOpen := false; newEdgeData := None; sourceInterface := "";
          targetInterface := ""; edgeModalWarning := false;
          isModifyingEdge := false |};
     alerts := {| showErrorModal := false; errorMessage := "" |} |}.

(** ** The canvas: connections, the context menu, removals *)

(** What the context menu was opened on; its entries are offered by the
    type of the element. *)
Inductive menu : Type :=
  | node_menu (element : node)
  | edge_menu (element : edge).

Section Canvas.

Context `{Y : YamlLib}.
Context (user : option string).

(** The component's state together with the context menu and the warning
    of the management settings. *)
Record page : Type := {
  core : state;
  contextMenu : option menu;
  mgmtWarning : bool
}.

Definition in_core (f : state → state) (pg : page) : page :=
  {| core := f (core pg); contextMenu := contextMenu pg; mgmtWarning := mgmtWarning pg |}.

Definition setContextMenu (v : option menu) (pg : page) : page :=
  {| core := core pg; contextMenu := v; mgmtWarning := mgmtWarning pg |}.


(** What a handler of the page leaves behind, as [outcome] for [state]. *)
Definition page_outcome : Type := page * option string.

(** [`eth${n}`] *)
Definition eth (n : N) : string := "eth" +:+ pretty n.

(** The [while] loop of [getNextInterfaceNumber]. It leaves at the latest
    after as many rounds as there are names in use. *)
Fixpoint next_unused (usedInterfaces : list (option string)) (rounds : nat)
  (nextNumber : N) : N :=
  match rounds with
  | O => nextNumber
  | S rounds' =>
      if bool_decide (Some (eth nextNumber) ∈ usedInterfaces)
      then next_unused usedInterfaces rounds' (nextNumber + 1)
      else nextNumber
  end.

(** [getNextInterfaceNumber(nodeId)] *)
Definition getNextInterfaceNumber (nodeId : string) (st : state) : N :=
  let usedInterfaces := default [] (nodeInterfaces (graph st) !! nodeId) in
  next_unused usedInterfaces (length usedInterfaces) 1.



(** [onNodeContextMenu(event, node)] and [onEdgeContextMenu(event, edge)] *)
Definition onNodeContextMenu (node : node) (pg : page) : page :=
  setContextMenu (Some (node_menu node)) pg.

Definition onEdgeContextMenu (edge : edge) (pg : page) : page :=
  setContextMenu (Some (edge_menu edge)) pg.

(** [handleContextMenuClose()] *)
Definition handleContextMenuClose (pg : page) : page := setContextMenu None pg.

(** [handleRemoveNode()], the entry of the menu of a node; there is no such
    entry while the menu is closed or open on an edge. *)
Definition handleRemoveNode (pg : page) : option page_outcome :=
  match contextMenu pg with
  | Some (node_menu nodeToRemove) =>
      let st := core pg in
      let updatedNodes :=
        filter (λ n, n_id n ≠ n_id nodeToRemove) (nodes (graph st)) in
      let updatedEdges :=
        filter (λ e, e_source e ≠ n_id nodeToRemove ∧ e_target e ≠ n_id nodeToRemove)
          (edges (graph st)) in
      let st' := setEdges updatedEdges (setNodes updatedNodes st) in
      Some
        match updateYaml user st updatedNodes updatedEdges with
        | inl e => (in_core (λ _, st') pg, Some e)
        | inr yamlString =>
            (handleContextMenuClose (in_core (λ _, storeYaml yamlString st') pg), None)
        end
  | _ => None
  end.

(** [handleRemoveEdge()], the entry of the menu of an edge. The updater of
    the registry is the one of the edge form ([retract_interfaces]). *)
Definition handleRemoveEdge (pg : page) : option page_outcome :=
  match contextMenu pg with
  | Some (edge_menu edgeToRemove) =>
      let st := core pg in
      Some
        match retract_interfaces edgeToRemove (nodeInterfaces (graph st)) with
        | inl e => (pg, Some e)
        | inr registry =>
            let updatedEdges :=
              filter (λ e, e_id e ≠ e_id edgeToRemove) (edges (graph st)) in
            let st' := setEdges updatedEdges (setNodeInterfaces registry st) in
            match updateYaml user st (nodes (graph st)) updatedEdges with
            | inl e => (in_core (λ _, st') pg, Some e)
            | inr yamlString =>
                (handleContextMenuClose (in_core (λ _, storeYaml yamlString st') pg),
                 None)
            end
        end
  | _ => None
  end.


(** [onNodeDragStop(event, node)]: the nodes with the identifier of the
    dragged node take its position. *)
Definition onNodeDragStop (node : node) (st : state) : state :=
  setNodes
    ((λ n, if String.eqb (n_id n) (n_id node)
           then {| n_id := n_id n; n_type := n_type n;
                   n_position := n_position node; n_data := n_data n |}
           else n) <$> nodes (graph st))
    st.

(** [handleReset()] *)
Definition handleReset (st : state) : state :=
  setYamlParseError ""
    (setIsYamlValid true
       (setEditableYaml empty_text
          (setYamlOutput empty_text
             (setEdges []
                (setNodes []
                   (setDefaultKind (JStr "")
                      (setShowDefault false
                         (setKinds [emptyKind]
                            (setShowKind false
                               (setIpv6Subnet (JStr "")
                                  (setShowIpv6 false
                                     (setIpv4Subnet (JStr "")
                                        (setMgmtNetwork (JStr "")
                                           (setShowMgmt false
                                              (setTopologyName (JStr "") st))))))))))))))).

(** ** Management addresses *)

(** [generateIpsFromSubnet(subnet, count)] for a setting: [!subnet] comes
    first, and a truthy value that is no string has no [trim] method. *)
Definition generateIpsFromSetting (subnet : jv) (count : nat) : result (list string) :=
  match subnet with
  | JStr s => ok (generateIpsFromSubnet s count)
  | _ =>
      if truthy subnet then throw "subnet.trim is not a function" else ok []
  end.

(** The nodes of [autoAssignMgmtIPs]: the node at [index] takes the address
    at [index] while there is one. *)
Fixpoint assign_ips (nds : list node) (ips : list string) : list node :=
  match nds, ips with
  | node :: nds', ip :: ips' =>
      {| n_id := n_id node; n_type := n_type node; n_position := n_position node;
         n_data := obj_set "mgmtIp" (JStr ip) (n_data node) |}
        :: assign_ips nds' ips'
  | _, _ => nds
  end.

(** [autoAssignMgmtIPs(subnet)]: the state it leaves, and the nodes it
    hands to the timer, if it starts one. *)
Definition autoAssignMgmtIPs (subnet : jv) (st : state)
  : result (state * option (list node)) :=
  if bool_decide (length (nodes (graph st)) = 0%nat) then ok (st, None)
  else
    do ips <- generateIpsFromSetting subnet (length (nodes (graph st)));
    if bool_decide (length ips = 0%nat) then ok (st, None)
    else
      let updatedNodes := assign_ips (nodes (graph st)) ips in
      ok (setNodes updatedNodes st, Some updatedNodes).

(** The timer of [autoAssignMgmtIPs], started by a handler that saw [seen]:
    [updateYaml(updatedNodes, edges)], run on the state [st] of its time. *)
Definition autoAssign_timer (seen : state) (updatedNodes : list node) (st : state)
  : outcome :=
  thenUpdateYaml user seen updatedNodes (edges (graph seen)) st finished.

(** ** The name prefix of the node form *)

(** [handleNodeNamePrefixChange(event)], [prefix] being
    [event.target.value]. *)
Definition handleNodeNamePrefixChange (prefix : string) (st : state) : outcome :=
  let st' := setNodeNamePrefix prefix st in
  match highestNodeNum prefix (nodes (graph st)) 0 with
  | inl e => (st', Some e)
  | inr highest =>
      finished
        (setNodeName
           (prefix +:+
              (if (1 <? nodeCount (nodeForm st))%Z then pretty (highest + 1)%N
               else if (highest =? 0)%N then "" else pretty (highest + 1)%N))
           st')
  end.

(** [getNextNodeNumber()], which the form shows as the first number of a
    bulk creation. *)
Definition getNextNodeNumber (st : state) : result N :=
  do highest <- highestNodeNum (nodeNamePrefix (nodeForm st)) (nodes (graph st)) 0;
  ok (highest + 1)%N.

(** ** Import *)


End Canvas.

(** ** The unused converter *)




(** ** The topology name field: a second renderer *)

Section TopologyName.

Context `{Y : YamlLib}.
Context (user : option string).

(** [value?.trim()] as a condition: [undefined] and [null] stop the chain,
    any other value that is no string has no [trim] method. *)
Definition optional_trim (what : string) (v : jv) : result bool :=
  match v with
  | JUndef | JNull => ok false
  | JStr s => ok (negb (blank s))
  | _ => throw (what +:+ "?.trim is not a function")
  end.

(** [binds.some(bind => bind.trim())] *)
Fixpoint some_bind (binds : list jv) : result bool :=
  match binds with
  | [] => ok false
  | bind :: binds' =>
      do text <- trimmed_nonempty "bind" bind;
      if text : bool then ok true else some_bind binds'
  end.

(** [if (node.data.binds?.some(bind => bind.trim()))
       nodeConfig.binds = node.data.binds.filter(bind => bind.trim())] *)
Definition name_change_binds (binds : jv) (nodeConfig : entries) : result entries :=
  match binds with
  | JUndef | JNull => ok nodeConfig
  | JArr l =>
      do some <- some_bind l;
      if some : bool then
        do kept <- rmap (nonblank_item "bind") l;
        ok (obj_set "binds" (JArr (omap id kept)) nodeConfig)
      else ok nodeConfig
  | _ => throw "node.data.binds?.some is not a function"
  end.

(** The [nodeConfig] of one node. *)
Definition name_change_node (nd : node) : result entries :=
  let data := JObj (n_data nd) in
  let nodeConfig : entries := [] in
  do kind <- optional_trim "node.data.kind" (prop data "kind");
  let nodeConfig :=
    if kind : bool then obj_set "kind" (prop data "kind") nodeConfig else nodeConfig in
  do image <- optional_trim "node.data.image" (prop data "image");
  let nodeConfig :=
    if image : bool then obj_set "image" (prop data "image") nodeConfig else nodeConfig in
  do nodeConfig <- name_change_binds (prop data "binds") nodeConfig;
  do mgmtIp <- optional_trim "node.data.mgmtIp" (prop data "mgmtIp");
  let nodeConfig :=
    if mgmtIp : bool then obj_set "mgmt-ipv4" (prop data "mgmtIp") nodeConfig
    else nodeConfig in
  do startupConfig <- optional_trim "node.data.startupConfig" (prop data "startupConfig");
  ok (if startupConfig : bool
        then obj_set "startup-config" (prop data "startupConfig") nodeConfig
        else nodeConfig).

(** The [reduce] over the nodes: the entry of a node goes under its label. *)
Fixpoint name_change_nodes (nds : list node) (acc : entries) : result entries :=
  match nds with
  | [] => ok acc
  | nd :: nds' =>
      do nodeConfig <- name_change_node nd;
      name_change_nodes nds'
        (obj_set (js_to_string (prop (JObj (n_data nd)) "label")) (JObj nodeConfig) acc)
  end.

(** [`${edge.data.sourceInterface}`] *)
Definition interface_text (i : option string) : string := default "undefined" i.

(** The link of one edge: both ends are looked up among the nodes. *)
Definition name_change_link (nds : list node) (e : edge) : result jv :=
  match find (λ n, String.eqb (n_id n) (e_source e)) nds with
  | None => throw "Cannot read properties of undefined (reading 'data')"
  | Some sourceNode =>
      match find (λ n, String.eqb (n_id n) (e_target e)) nds with
      | None => throw "Cannot read properties of undefined (reading 'data')"
      | Some targetNode =>
          ok (JObj
                [("endpoints",
                  JArr [JStr (js_to_string (prop (JObj (n_data sourceNode)) "label")
                              +:+ ":" +:+ interface_text (e_sourceInterface e));
                        JStr (js_to_string (prop (JObj (n_data targetNode)) "label")
                              +:+ ":" +:+ interface_text (e_targetInterface e))])])
      end
  end.

(** [list.filter(x => x)] of a kind template. *)
Definition truthy_items (what : string) (l : jv) : result jv :=
  match l with
  | JArr items => ok (JArr (filter (λ x, truthy x = true) items))
  | JUndef => throw "Cannot read properties of undefined (reading 'filter')"
  | JNull => throw "Cannot read properties of null (reading 'filter')"
  | _ => throw (what +:+ ".filter is not a function")
  end.

(** The entry of one kind template: every enabled sub-field, blank or
    not. *)
Definition name_change_kind (k : kind) : result entries :=
  let c := k_config k in
  let o : entries :=
    if showStartupConfig c then [("startup-config", startupConfig c)] else [] in
  let o := if showImage c then obj_set "image" (image c) o else o in
  do o <- (if showExec c then
         do items <- truthy_items "kind.config.exec" (exec c);
         ok (obj_set "exec" items o)
       else ok o);
  do o <- (if showBinds c then
         do items <- truthy_items "kind.config.binds" (binds c);
         ok (obj_set "binds" items o)
       else ok o);
  ok o.

(** The [reduce] over the kind templates: those with a name. *)
Fixpoint name_change_kinds (ks : list kind) (acc : entries) : result entries :=
  match ks with
  | [] => ok acc
  | k :: ks' =>
      if String.eqb (k_name k) "" then name_change_kinds ks' acc
      else
        do o <- name_change_kind k;
        name_change_kinds ks' (obj_set (k_name k) (JObj o) acc)
  end.

(** The object [yamlData] that [handleTopologyNameChange] hands to
    [yaml.dump]. *)
Definition name_change_object (newTopologyName : string) (st : state) : result jv :=
  let s := settings st in
  let nds := nodes (graph st) in
  do nodesObject <- name_change_nodes nds [];
  do links <- rmap (name_change_link nds) (edges (graph st));
  let topology : entries := [("nodes", JObj nodesObject); ("links", JArr links)] in
  let mgmt : option entries :=
    if showMgmt s then
      Some ([("network", mgmtNetwork s); ("ipv4-subnet", ipv4Subnet s)]
            ++ (if showIpv6 s && truthy (ipv6Subnet s)
                then [("ipv6-subnet", ipv6Subnet s)] else []))
    else None in
  do topology <-
    (if showKind s && (0 <? length (kinds s))%nat then
       do kindsObject <- name_change_kinds (kinds s) [];
       ok (obj_set "kinds" (JObj kindsObject) topology)
     else ok topology);
  do topology <-
    (if showDefault s then
       do given <- trimmed_nonempty "defaultKind" (defaultKind s);
       ok (if given : bool
             then obj_set "defaults" (JObj [("kind", defaultKind s)]) topology
             else topology)
     else ok topology);
  let top : entries :=
    [("name", JStr (username_or_empty user +:+ "-" +:+ newTopologyName));
     ("topology", JObj topology)] in
  ok (JObj (match mgmt with
              | Some mgmt => obj_set "mgmt" (JObj mgmt) top
              | None => top
              end)).

(** [handleTopologyNameChange(event)], [newTopologyName] being
    [event.target.value]. *)
Definition handleTopologyNameChange (newTopologyName : string) (st : state) : outcome :=
  let st' := setTopologyName (JStr newTopologyName) st in
  match name_change_object newTopologyName st with
  | inl e => (st', Some e)
  | inr yamlData => finished (storeYaml (yaml_dump yamlData) st')
  end.

End TopologyName.

(** ** The kind templates *)

Section KindTemplates.

Context `{Y : YamlLib}.
Context (user : option string).


End KindTemplates.
(** ** Vocabulary of the statements *)

(** The property names of an object. *)
Definition keys (o : entries) : list string := fst <$> o.








(** The properties and the elements that [dumped] keeps. *)
Definition dumped_props (o : entries) : entries :=
  flat_map (λ kv, match kv.2 with JUndef => [] | x => [(kv.1, dumped x)] end) o.



(** [v.k] when [v] is the [data] object of a node. *)
Definition data_prop (n : node) (k : string) : jv := prop (JObj (n_data n)) k.










(** The link an edge stands for: both endpoints with their interfaces. *)
Definition link_of (e : edge) : string * string * option string * option string :=
  (e_source e, e_target e, e_sourceInterface e, e_targetInterface e).

Section Reachability.

Context `{Y : YamlLib} (user : option string).



End Reachability.


(** The labels of the nodes are strings. *)
Definition labels_are_strings (nds : list node) : Prop :=
  Forall (λ n, ∃ label, prop (JObj (n_data n)) "label" = JStr label) nds.


(** The nodes a creation adds when [highest] is the highest number in use:
    the one node of a single creation, or the nodes of the bulk loop. *)
Definition created_nodes (f : nodeForm_state) (template : node) (highest : N)
  : list node :=
  if (nodeCount f =? 1)%Z then
    [created_node f template
       (if String.eqb (trim (nodeName f)) ""
        then nodeNamePrefix f +:+ pretty (highest + 1)%N
        else trim (nodeName f))
       (n_position template) (nodeMgmtIp f) (nodeIpv6MgmtIp f)]
  else bulk_node f template (highest + 1)%N <$> seq 0 (Z.to_nat (nodeCount f)).

(** ** Example inputs *)

(** The node object that [onNodeClick] puts into the form. *)
Definition clicked_node (nodeType : string) : node :=
  {| n_id := "node_0";
     n_type := None;
     n_position := {| pos_x := 400; pos_y := 200 |};
     n_data := [("label", JStr (nodeType +:+ " node")); ("nodeType", JStr nodeType)] |}.

(** The node form opened by a click on the router button, with the name
    prefix, the name and the count the user typed. *)
Definition router_form `{Y : YamlLib} (prefix name : string) (count : Z)
  : state → state :=
  with_nodeForm (λ f,
    {| isModalOpen := true; modalType := create;
       newNode := Some (clicked_node "router");
       nodeName := name; nodeNamePrefix := prefix; nodeKind := "ceos";
       nodeImage := "ceos:4.34.1F"; nodeBinds := JArr [JStr ""]; nodeMgmtIp := "";
       nodeIpv6MgmtIp := nodeIpv6MgmtIp f; nodeStartupConfig := nodeStartupConfig f;
       nodeCustomFields := [("", "")]; nodeCount := count; nodeModalWarning := false;
       isModifying := isModifying f; showModifyNodeModal := showModifyNodeModal f;
       showOptionalSettings := showOptionalSettings f |}).

(** The form opened on [node] by the context menu, with the new name the
    user typed. *)
Definition modify_form `{Y : YamlLib} (node : node) (name : string) : state → state :=
  with_nodeForm (λ f,
    {| isModalOpen := true; modalType := modify; newNode := Some node;
       nodeName := name; nodeNamePrefix := nodeNamePrefix f; nodeKind := "ceos";
       nodeImage := "ceos:4.34.1F"; nodeBinds := JArr [JStr ""]; nodeMgmtIp := "";
       nodeIpv6MgmtIp := ""; nodeStartupConfig := ""; nodeCustomFields := [("", "")];
       nodeCount := 1; nodeModalWarning := false; isModifying := true;
       showModifyNodeModal := true; showOptionalSettings := false |}).

(** The edge form opened by a connection drawn from [source] to [target],
    with the interface names the user left or typed. *)
Definition connect_form `{Y : YamlLib} (source target sourceInterface targetInterface : string)
  : state → state :=
  with_edgeForm (λ _,
    {| isEdgeModalOpen := true;
       newEdgeData := Some {| c_id := None; c_source := source; c_target := target |};
       sourceInterface := sourceInterface; targetInterface := targetInterface;
       edgeModalWarning := false; isModifyingEdge := false |}).

Module Example.

Definition user : option string := Some "bob".

(** A session with the topology name [lab]. *)
Definition named : state (Y := parsed_text) := setTopologyName (JStr "lab") initialState.

(** One more node with a generated name. *)
Definition add_node (prefix : string) (st : state (Y := parsed_text)) : state :=
  (handleModalSubmit user (router_form prefix "" 1 st)).1.

Definition connect (source target sourceInterface targetInterface : string)
  (st : state (Y := parsed_text)) : state :=
  (handleEdgeModalSubmit user
     (connect_form source target sourceInterface targetInterface st)).1.

(** The nodes [leaf1] and [spine1]. *)
Definition two_nodes : state := add_node "spine" (add_node "leaf" named).

(** [leaf1:eth1] connected to [spine1:eth1]. *)
Definition linked : state := connect "leaf1" "spine1" "eth1" "eth1" two_nodes.



(** [leaf1] with an edge from its [eth1] to its own [eth2]. *)
Definition self_loop : state :=
  connect "leaf1" "leaf1" "eth1" "eth2" (add_node "leaf" named).

(** The first node of the graph, as the context menu hands it over. *)
Definition first_node (st : state (Y := parsed_text)) : node :=
  default (clicked_node "router") (head (nodes (graph st))).

(** A document with the node [leaf1] and a link from [leaf1:eth1] to
    [ghost:eth1], where no node [ghost] is declared. *)
Definition dangling_document : text (YamlLib := parsed_text) :=
  inr (JObj
         [("name", JStr "bob-lab");
          ("topology",
           JObj
             [("nodes", JObj [("leaf1", JObj [("kind", JStr "ceos")])]);
              ("links",
               JArr [JObj [("endpoints", JArr [JStr "leaf1:eth1"; JStr "ghost:eth1"])]])])]).

(** A document that holds a name and nothing else. *)
Definition name_only_document : text (YamlLib := parsed_text) :=
  inr (JObj [("name", JStr "renamed")]).


End Example.


(** ** Vocabulary of the further statements *)


(** The interface names in use at a node, as the registry has them. *)
Definition used_at (g : graph_state) (nodeId : string) : list (option string) :=
  default [] (nodeInterfaces g !! nodeId).

(** The registry knows the interface names of every edge at both ends. *)
Definition registry_covers (g : graph_state) : Prop :=
  Forall (λ e, e_sourceInterface e ∈ used_at g (e_source e)
               ∧ e_targetInterface e ∈ used_at g (e_target e))
    (edges g).

(** Every edge runs between two nodes of the graph. *)
Definition no_dangling (g : graph_state) : Prop :=
  Forall (λ e, e_source e ∈ (n_id <$> nodes g) ∧ e_target e ∈ (n_id <$> nodes g))
    (edges g).

(** The edges that name the node [id] at either end. *)
Definition incident (id : string) (es : list edge) : list edge :=
  filter (λ e, e_source e = id ∨ e_target e = id) es.

(** A page with the menu closed and no warning. *)
Definition page_of `{Y : YamlLib} (st : state) : page :=
  {| core := st; contextMenu := None; mgmtWarning := false |}.

(** The settings apart from the topology name. *)
Definition other_settings (s : settings_state) :=
  (showMgmt s, mgmtNetwork s, ipv4Subnet s, showIpv6 s, ipv6Subnet s, showKind s,
   kinds s, showDefault s, defaultKind s).






(** Both interface names of an edge pass the validator. *)
Definition valid_names (e : edge) : Prop :=
  ∃ sourceInterface targetInterface,
    e_sourceInterface e = Some sourceInterface
    ∧ e_targetInterface e = Some targetInterface
    ∧ validateInterface sourceInterface = true
    ∧ validateInterface targetInterface = true.

(** The edge that the edge form commits for a new connection. *)
Definition new_edge (c : connection) (sourceInterface targetInterface : string) : edge :=
  {| e_id := Some ("edge_" +:+ c_source c +:+ "_" +:+ c_target c +:+ "_"
                     +:+ sourceInterface +:+ "_" +:+ targetInterface);
     e_source := c_source c; e_target := c_target c; e_type := "custom";
     e_sourceInterface := Some sourceInterface;
     e_targetInterface := Some targetInterface |}.



Module Sample.

(** The node [leaf1], created after the bind [/config:/mnt/flash] was
    typed into the form. *)
Definition with_bind : state (Y := parsed_text) :=
  (handleModalSubmit Example.user
     (setNodeBinds
        (JArr [JObj [("source", JStr "/config"); ("target", JStr "/mnt/flash")]])
        (router_form "leaf" "" 1 Example.named))).1.



End Sample.

(** * Properties *)

(** ** Strings *)

Lemma append_String c s1 s2 : String c s1 +:+ s2 = String c (s1 +:+ s2).
Proof. reflexivity. Qed.

Lemma append_empty s : "" +:+ s = s.
Proof. reflexivity. Qed.










Lemma ip_loop_spec a b c d n i :
  (0 ≤ i)%Z →
  ip_loop [a; b; c; d] n i =
    (λ k : nat, join "." (pretty <$> [a; b; c; (i + Z.of_nat k + 2)%Z]))
      <$> seq 0 (n `min` Z.to_nat (253 - i)).
Proof.
  revert i. induction n as [|n IH]; intros i Hi; [done|].
  cbn [ip_loop]. destruct (255 <=? i + 2)%Z eqn:Hlim.
  - apply Z.leb_le in Hlim. replace (Z.to_nat (253 - i)) with 0%nat by lia.
    by rewrite Nat.min_0_r.
  - apply Z.leb_gt in Hlim.
    replace (Z.to_nat (253 - i)) with (S (Z.to_nat (253 - (i + 1)))) by lia.
    rewrite <-Nat.succ_min_distr. cbn [seq fmap list_fmap].
    rewrite IH by lia. rewrite <-fmap_S_seq, <-list_fmap_compose.
    f_equal; [by rewrite Z.add_0_r|].
    apply list_fmap_ext. intros _ k _. simpl.
    by replace (i + 1 + Z.of_nat k + 2)%Z with (i + Z.of_nat (S k) + 2)%Z by lia.
Qed.







(** ** The address allocator *)






(** C8, at the failing input: for [10.0.0.0/30] and 10 the allocator yields
    ten addresses, [10.0.0.3] (the broadcast address of the /30) and the
    seven after it among them; and no mask ever changes the result. *)
Theorem allocateAddressSequence_ignores_mask :
  generateIpsFromSubnet "10.0.0.0/30" 10
    = ["10.0.0.2"; "10.0.0.3"; "10.0.0.4"; "10.0.0.5"; "10.0.0.6"; "10.0.0.7";
       "10.0.0.8"; "10.0.0.9"; "10.0.0.10"; "10.0.0.11"]
  ∧ generateIpsFromSubnet "10.0.0.0/30" 10 = generateIpsFromSubnet "10.0.0.0/24" 10.
Proof. by vm_compute. Qed.
(** ** The interface validator and the edge form *)

Lemma validateInterface_1_to_99 (n : N) :
  (1 ≤ n ≤ 99)%N → validateInterface ("eth" +:+ pretty n) = true.
Proof.
  intros Hn.
  assert (forallb (λ k, validateInterface ("eth" +:+ pretty (N.of_nat k))) (seq 1 99) = true)
    as Hall by (by vm_compute).
  rewrite forallb_forall in Hall.
  rewrite <-(N2Nat.id n). apply Hall, in_seq. lia.
Qed.

(** C4, at the failing input: the validator accepts [eth55], as it accepts
    every [eth<n>] for [n] from 1 to 99, and the edge form commits the
    edge [leaf1:eth55 -- spine1:eth55] without an error. *)
Theorem interfaceNameValid_accepts_eth55 :
  validateInterface "eth55" = true
  ∧ (∀ n : N, (1 ≤ n ≤ 99)%N → validateInterface ("eth" +:+ pretty n) = true)
  ∧ let st' := Example.connect "leaf1" "spine1" "eth55" "eth55" Example.two_nodes in
    ((λ e, (e_source e, e_sourceInterface e, e_target e, e_targetInterface e))
       <$> edges (graph st'))
      = [("leaf1", Some "eth55", "spine1", Some "eth55")]
    ∧ showErrorModal (alerts st') = false.
Proof.
  split; [by vm_compute|]. split; [apply validateInterface_1_to_99|]. by vm_compute.
Qed.

(** ** Objects *)

Lemma eqb_refl' (k : string) : String.eqb k k = true.
Proof. apply String.eqb_refl. Qed.

Lemma eqb_ne (k k' : string) : k ≠ k' → String.eqb k k' = false.
Proof. intros. by apply String.eqb_neq. Qed.

Lemma obj_lookup_None k o : obj_lookup k o = None ↔ k ∉ keys o.
Proof.
  induction o as [|[k' v] o IH]; simpl.
  - split; [intros _; apply not_elem_of_nil|done].
  - destruct (String.eqb k k') eqn:E.
    + apply String.eqb_eq in E as ->. split; [done|]. intros []. left.
    + apply String.eqb_neq in E. rewrite IH, not_elem_of_cons. naive_solver.
Qed.

Lemma obj_lookup_replace k v o :
  k ∈ keys o → obj_lookup k (obj_replace k v o) = Some v.
Proof.
  induction o as [|[k' v'] o IH]; simpl; [by intros ?%elem_of_nil|].
  destruct (String.eqb k k') eqn:E; simpl; rewrite E; [done|].
  apply String.eqb_neq in E. intros [?|?]%elem_of_cons; [done|auto].
Qed.

Lemma obj_lookup_replace_ne k k' v o :
  k ≠ k' → obj_lookup k (obj_replace k' v o) = obj_lookup k o.
Proof.
  intros Hne. induction o as [|[k'' v'] o IH]; simpl; [done|].
  destruct (String.eqb k' k'') eqn:E; simpl; [|by rewrite IH].
  apply String.eqb_eq in E as <-. by rewrite eqb_ne.
Qed.

Lemma obj_lookup_insert_new k v o :
  k ∉ keys o → obj_lookup k (obj_insert_new k v o) = Some v.
Proof.
  induction o as [|[k' v'] o IH]; simpl; [by rewrite eqb_refl'|].
  intros [Hne Hk]%not_elem_of_cons.
  destruct (array_index k) as [n|], (array_index k') as [n'|];
    try destruct (n <? n')%N; simpl;
    rewrite ?eqb_refl', ?(eqb_ne _ _ Hne); auto.
Qed.

Lemma obj_lookup_insert_new_ne k k' v o :
  k ≠ k' → obj_lookup k (obj_insert_new k' v o) = obj_lookup k o.
Proof.
  intros Hne. induction o as [|[k'' v'] o IH]; simpl; [by rewrite eqb_ne|].
  destruct (array_index k') as [n|], (array_index k'') as [n'|];
    try destruct (n <? n')%N; simpl;
    rewrite ?(eqb_ne _ _ Hne), ?IH; done.
Qed.

Lemma obj_lookup_set k v o : obj_lookup k (obj_set k v o) = Some v.
Proof.
  unfold obj_set. destruct (obj_lookup k o) eqn:E.
  - apply obj_lookup_replace. apply dec_stable. rewrite <-obj_lookup_None. congruence.
  - apply obj_lookup_insert_new. by apply obj_lookup_None.
Qed.

Lemma obj_lookup_set_ne k k' v o :
  k ≠ k' → obj_lookup k (obj_set k' v o) = obj_lookup k o.
Proof.
  intros. unfold obj_set.
  destruct (obj_lookup k' o); auto using obj_lookup_replace_ne, obj_lookup_insert_new_ne.
Qed.

Lemma keys_replace k v o : keys (obj_replace k v o) = keys o.
Proof.
  induction o as [|[k' v'] o IH]; simpl; [done|].
  destruct (String.eqb k k'); unfold keys in *; simpl; [done|]. by f_equal.
Qed.

Lemma keys_insert_new k v o : keys (obj_insert_new k v o) ≡ₚ k :: keys o.
Proof.
  induction o as [|[k' v'] o IH]; simpl; [done|].
  destruct (array_index k) as [n|], (array_index k') as [n'|];
    try destruct (n <? n')%N; unfold keys in *; simpl; try done;
    rewrite IH; apply Permutation_swap.
Qed.

Lemma keys_set_subseteq k v o : keys (obj_set k v o) ⊆ k :: keys o.
Proof.
  unfold obj_set. destruct (obj_lookup k o).
  - rewrite keys_replace. set_solver.
  - by rewrite keys_insert_new.
Qed.


Lemma keys_assign_subseteq o extra : keys (obj_assign o extra) ⊆ keys extra ++ keys o.
Proof.
  unfold obj_assign. revert o. induction extra as [|[k v] extra IH]; intros o; simpl.
  - done.
  - etrans; [apply IH|]. pose proof (keys_set_subseteq k v o). set_solver.
Qed.


Lemma obj_lookup_assign_ne k o extra :
  k ∉ keys extra → obj_lookup k (obj_assign o extra) = obj_lookup k o.
Proof.
  unfold obj_assign. revert o. induction extra as [|[k' v] extra IH]; intros o; simpl.
  - done.
  - intros [Hne Hk]%not_elem_of_cons. rewrite IH by done. by apply obj_lookup_set_ne.
Qed.


Lemma prop_set k v o : prop (JObj (obj_set k v o)) k = v.
Proof. simpl. by rewrite obj_lookup_set. Qed.

Lemma prop_set_ne k k' v o :
  k ≠ k' → prop (JObj (obj_set k' v o)) k = prop (JObj o) k.
Proof. intros. simpl. by rewrite obj_lookup_set_ne. Qed.

Lemma validateInterface_not_blank s : validateInterface s = true → blank s = false.
Proof.
  intros H. destruct s as [|c s]; [done|].
  destruct (decide (c = "e"%char)) as [->|Hc]; [done|].
  exfalso. unfold validateInterface, iface_alt1, iface_alt2, iface_alt3 in H.
  destruct c as [[] [] [] [] [] [] [] []]; try done.
Qed.


Lemma same_link_spec newEdge si ti e :
  e_sourceInterface newEdge = Some si → e_targetInterface newEdge = Some ti →
  same_link newEdge si ti e = true ↔ link_of e = link_of newEdge.
Proof.
  intros Hs Ht. unfold same_link, link_of. rewrite Hs, Ht.
  rewrite !andb_true_iff, !String.eqb_eq, !bool_decide_eq_true. split.
  - by intros [[[-> ->] ->] ->].
  - by intros [= -> -> -> ->].
Qed.

Section EdgeForm.

Context `{Y : YamlLib} (user : option string).


End EdgeForm.



(** ** Node numbering *)

Lemma is_digit_pretty_N_char d : (d < 10)%N → is_digit (pretty_N_char d) = true.
Proof.
  intros Hd.
  assert (d ∈ [0; 1; 2; 3; 4; 5; 6; 7; 8; 9]%N) as Hin.
  { rewrite list_elem_of_In. replace d with (N.of_nat (N.to_nat d)) by lia.
    assert (N.to_nat d ∈ seq 0 10) as Hs by (apply elem_of_seq; lia).
    apply (list_elem_of_fmap_2 N.of_nat) in Hs. by apply list_elem_of_In in Hs. }
  repeat (apply elem_of_cons in Hin as [->|Hin]; [done|]). by apply elem_of_nil in Hin.
Qed.

Lemma digit_val_pretty_N_char d : (d < 10)%N → digit_val (pretty_N_char d) = d.
Proof.
  intros Hd.
  assert (d ∈ [0; 1; 2; 3; 4; 5; 6; 7; 8; 9]%N) as Hin.
  { rewrite list_elem_of_In. replace d with (N.of_nat (N.to_nat d)) by lia.
    assert (N.to_nat d ∈ seq 0 10) as Hs by (apply elem_of_seq; lia).
    apply (list_elem_of_fmap_2 N.of_nat) in Hs. by apply list_elem_of_In in Hs. }
  repeat (apply elem_of_cons in Hin as [->|Hin]; [done|]). by apply elem_of_nil in Hin.
Qed.

Lemma all_digits_pretty_N_go x s : all_digits (pretty_N_go x s) 0 = all_digits s x.
Proof.
  revert s. induction (N.lt_wf_0 x) as [x _ IH]; intros s.
  destruct (decide (x = 0)%N) as [->|Hx]; [by rewrite pretty_N_go_0|].
  rewrite pretty_N_go_step by lia. rewrite IH by (apply N.div_lt; lia).
  cbn [all_digits].
  rewrite is_digit_pretty_N_char, digit_val_pretty_N_char by (apply N.mod_lt; lia).
  f_equal. pose proof (N.div_mod x 10). lia.
Qed.

Lemma all_digits_pretty (n : N) : all_digits (pretty n) 0 = Some n.
Proof.
  unfold pretty, pretty_N. case_decide as Hn; [by subst|].
  by rewrite all_digits_pretty_N_go.
Qed.


Lemma startsWith_append p s : startsWith p (p +:+ s) = true.
Proof.
  induction p as [|c p IH]; [done|]. rewrite append_String. simpl.
  by rewrite bool_decide_eq_true_2.
Qed.

Lemma drop_string_append p s : drop_string (String.length p) (p +:+ s) = s.
Proof. induction p as [|c p IH]; [by destruct s|]. by rewrite append_String. Qed.




(** [highestNodeNum] succeeds on string labels and bounds every number
    that follows the prefix in a label. *)
Lemma highestNodeNum_strings prefix nds acc :
  labels_are_strings nds → ∃ highest, highestNodeNum prefix nds acc = inr highest.
Proof.
  intros H. revert acc.
  induction H as [|n nds [label Hl] _ IH]; intros acc; cbn [highestNodeNum].
  - by eexists.
  - rewrite Hl. apply IH.
Qed.

Lemma highestNodeNum_bound prefix nds acc highest :
  highestNodeNum prefix nds acc = inr highest →
  (acc ≤ highest)%N
  ∧ ∀ n label k, n ∈ nds → prop (JObj (n_data n)) "label" = JStr label →
      suffix_number prefix label = Some k → (k ≤ highest)%N.
Proof.
  revert acc. induction nds as [|n nds IH]; intros acc; cbn [highestNodeNum].
  - intros [= <-]. split; [done|]. by intros ??? ?%elem_of_nil.
  - destruct (prop (JObj (n_data n)) "label") as [| | | |label| |] eqn:Hl; try done.
    intros H. apply IH in H as [Hacc Hall]. split.
    + destruct (suffix_number prefix label) as [num|]; [|done].
      destruct (acc <? num)%N eqn:E; [apply N.ltb_lt in E|]; lia.
    + intros n' label' k [->|Hin]%elem_of_cons Hl' Hk; [|eauto].
      rewrite Hl in Hl'. injection Hl' as <-. rewrite Hk in Hacc.
      destruct (acc <? k)%N eqn:E; [done|]. apply N.ltb_ge in E. lia.
Qed.


(** ** Node creation *)

Lemma customFields_object_keys fields :
  keys (customFields_object fields) ⊆ fst <$> fields.
Proof.
  unfold customFields_object, fromEntries.
  etrans; [apply keys_assign_subseteq|]. unfold keys. rewrite app_nil_r.
  rewrite <-list_fmap_compose. intros k (f & -> & Hf)%list_elem_of_fmap.
  apply list_elem_of_fmap. exists f. split; [done|].
  by apply list_elem_of_filter in Hf as [_ ?].
Qed.

Lemma form_data_label previous label mgmtIp ipv6MgmtIp f :
  "label" ∉ (fst <$> nodeCustomFields f) →
  prop (JObj (form_data previous label mgmtIp ipv6MgmtIp f)) "label" = JStr label.
Proof.
  intros Hfree. unfold form_data. cbn [prop].
  rewrite obj_lookup_assign_ne
    by (intros Hin; by apply Hfree, customFields_object_keys).
  rewrite !obj_lookup_set_ne by done. by rewrite obj_lookup_set.
Qed.

Section Creation.

Context `{Y : YamlLib} (user : option string).

Lemma graph_nodes_initializeNodeInterfaces (l : list node) (st : state) :
  nodes (graph (foldl (λ acc n, initializeNodeInterfaces (n_id n) acc) st l))
    = nodes (graph st)
  ∧ edges (graph (foldl (λ acc n, initializeNodeInterfaces (n_id n) acc) st l))
    = edges (graph st).
Proof.
  revert st. induction l as [|n l IH]; intros st; [done|]. cbn [foldl].
  by destruct (IH (initializeNodeInterfaces (n_id n) st)) as [-> ->].
Qed.

(** What a creation that passes the checks of the form does to the graph. *)
Lemma submit_creation_graph (st : state) highest template :
  highestNodeNum (nodeNamePrefix (nodeForm st)) (nodes (graph st)) 0 = inr highest →
  newNode (nodeForm st) = Some template →
  isModifying (nodeForm st) = false →
  nodes (graph (submit_creation user st).1)
    = nodes (graph st) ++ created_nodes (nodeForm st) template highest
  ∧ edges (graph (submit_creation user st).1) = edges (graph st).
Proof.
  intros Hh Ht Hm. unfold submit_creation, created_nodes. rewrite Hh, Ht.
  destruct (nodeCount (nodeForm st) =? 1)%Z.
  - rewrite Hm. unfold thenUpdateYaml. by destruct (updateYaml _ _ _ _).
  - unfold thenUpdateYaml.
    destruct (graph_nodes_initializeNodeInterfaces
                (bulk_node (nodeForm st) template (highest + 1)
                   <$> seq 0 (Z.to_nat (nodeCount (nodeForm st)))) st) as [_ He].
    by destruct (updateYaml _ _ _ _).
Qed.


End Creation.



Lemma highestNodeNum_attained prefix nds acc highest :
  highestNodeNum prefix nds acc = inr highest →
  highest = acc
  ∨ ∃ n label, n ∈ nds ∧ prop (JObj (n_data n)) "label" = JStr label
               ∧ suffix_number prefix label = Some highest.
Proof.
  revert acc. induction nds as [|n nds IH]; intros acc; cbn [highestNodeNum].
  - intros [= <-]. by left.
  - destruct (prop (JObj (n_data n)) "label") as [| | | |label| |] eqn:Hl; try done.
    intros [->|(n' & label' & Hin & Hl' & Hs)]%IH.
    + destruct (suffix_number prefix label) as [num|] eqn:Hs; [|by left].
      destruct (acc <? num)%N; [|by left].
      right. exists n, label. split; [left|done].
    + right. exists n', label'. split; [by right|done].
Qed.


Section Numbering.

Context `{Y : YamlLib} (user : option string).


End Numbering.


(** ** The uniqueness invariant *)

Section Invariant.

Context `{Y : YamlLib} (user : option string).



End Invariant.






(** ** Renaming a node *)

(** C2, at the failing input: [leaf1] has an edge from its [eth1] to its
    own [eth2] and is renamed to [core1]. The node is renamed and the
    registry entry moves, but only the source of the edge is rewritten: its
    target still names [leaf1], which no node bears any more. Both modify
    handlers do the same, and the links of the rendered document read
    [core1:eth1 -- leaf1:eth2]. *)
Theorem rename_leaves_self_loop_target :
  let st := modify_form (Example.first_node Example.self_loop) "core1" Example.self_loop in
  let out := handleModifyNodeSubmit Example.user st in
  n_id <$> nodes (graph st) = ["leaf1"]
  ∧ link_of <$> edges (graph st) = [("leaf1", "leaf1", Some "eth1", Some "eth2")]
  ∧ out.2 = None
  ∧ n_id <$> nodes (graph out.1) = ["core1"]
  ∧ link_of <$> edges (graph out.1) = [("core1", "leaf1", Some "eth1", Some "eth2")]
  ∧ length (filter (λ e, e_source e = "leaf1" ∨ e_target e = "leaf1")
              (edges (graph out.1))) = 1%nat
  ∧ nodeInterfaces (graph out.1) !! "leaf1" = None
  ∧ nodeInterfaces (graph out.1) !! "core1" = nodeInterfaces (graph st) !! "leaf1"
  ∧ graph (handleModalSubmit Example.user st).1 = graph out.1
  ∧ ∃ rendered,
      yamlOutput (document out.1) = inr rendered
      ∧ prop (prop rendered "topology") "links"
        = JArr [JObj [("endpoints", JArr [JStr "core1:eth1"; JStr "leaf1:eth2"])]].
Proof.
  cbv zeta. repeat (split; [vm_compute; reflexivity|]).
  eexists. split; vm_compute; reflexivity.
Qed.

(** ** Parsing a document *)

Lemma rmapi_from_length {A B} (f : nat → A → result B) l i bs :
  rmapi_from i f l = inr bs → length bs = length l.
Proof.
  revert i bs. induction l as [|a l IH]; intros i bs; cbn [rmapi_from].
  - by intros [= <-].
  - destruct (f i a) as [|b]; [done|]. cbn [rbind].
    destruct (rmapi_from (S i) f l) as [|bs'] eqn:E; [done|]. cbn [rbind].
    intros [= <-]. simpl. f_equal. eauto.
Qed.

(** C5, at the failing input: the document declares the node [leaf1] only
    and links [leaf1:eth1] to [ghost:eth1]. The parse succeeds and keeps
    the edge, whose target is no node of the graph; only the registry skips
    the unknown endpoint. In general the parser turns every link into an
    edge: it compares no endpoint with the nodes. *)
Theorem parse_keeps_dangling_edge :
  let st' := handleYamlChange Example.dangling_document Example.named in
  isYamlValid (document st') = true
  ∧ n_id <$> nodes (graph st') = ["leaf1"]
  ∧ link_of <$> edges (graph st') = [("leaf1", "ghost", Some "eth1", Some "eth1")]
  ∧ nodeInterfaces (graph st') !! "leaf1" = Some [Some "eth1"]
  ∧ nodeInterfaces (graph st') !! "ghost" = None
  ∧ ∀ links parsed, parsed_edges (JArr links) = inr parsed → length parsed = length links.
Proof.
  cbv zeta. repeat (split; [vm_compute; reflexivity|]).
  intros links parsed. unfold parsed_edges. cbn [jor truthy]. apply rmapi_from_length.
Qed.

Section ParseFailure.

Context `{Y : YamlLib}.

(** C10, as amended. A text that parses but has no [topology.nodes] (or a
    falsy one) sets the invalid flag with the message of the structure
    error, is kept as both document copies, and leaves the graph, the forms
    and every setting but one as they were: the topology name is first
    replaced by the [name] of the document when that is set. *)
Theorem document_without_nodes (newYaml : text) (parsedYaml : jv) (st : state) :
  yaml_load newYaml = inr parsedYaml →
  truthy (oprop (oprop parsedYaml "topology") "nodes") = false →
  let st' := handleYamlChange newYaml st in
  isYamlValid (document st') = false
  ∧ yamlParseError (document st') = "Error parsing YAML: Invalid YAML structure"
  ∧ yamlOutput (document st') = newYaml
  ∧ editableYaml (document st') = newYaml
  ∧ graph st' = graph st
  ∧ nodeForm st' = nodeForm st
  ∧ edgeForm st' = edgeForm st
  ∧ alerts st' = alerts st
  ∧ topologyName (settings st')
    = (if truthy (oprop parsedYaml "name") then oprop parsedYaml "name"
       else topologyName (settings st))
  ∧ (showMgmt (settings st'), mgmtNetwork (settings st'), ipv4Subnet (settings st'),
     showIpv6 (settings st'), ipv6Subnet (settings st'), showKind (settings st'),
     kinds (settings st'), showDefault (settings st'), defaultKind (settings st'))
    = (showMgmt (settings st), mgmtNetwork (settings st), ipv4Subnet (settings st),
       showIpv6 (settings st), ipv6Subnet (settings st), showKind (settings st),
       kinds (settings st), showDefault (settings st), defaultKind (settings st)).
Proof.
  intros Hload Hnodes st'. subst st'. unfold handleYamlChange.
  rewrite Hload, Hnodes. by destruct (truthy (oprop parsedYaml "name")).
Qed.

End ParseFailure.

Lemma document_without_nodes_witness :
  let st' := handleYamlChange Example.name_only_document Example.two_nodes in
  (yaml_load Example.name_only_document = inr (JObj [("name", JStr "renamed")])
   ∧ truthy (oprop (oprop (JObj [("name", JStr "renamed")]) "topology") "nodes") = false)
  ∧ isYamlValid (document st') = false
  ∧ yamlParseError (document st') = "Error parsing YAML: Invalid YAML structure"
  ∧ graph st' = graph Example.two_nodes
  ∧ topologyName (settings st') = JStr "renamed".
Proof.
  split; [split; reflexivity|].
  destruct (document_without_nodes Example.name_only_document
              (JObj [("name", JStr "renamed")]) Example.two_nodes eq_refl eq_refl)
    as (Hvalid & Herr & _ & _ & Hgraph & _ & _ & _ & Hname & _).
  split; [exact Hvalid|]. split; [exact Herr|]. split; [exact Hgraph|]. exact Hname.
Defined.

(** C10, as stated, fails: the document [name: renamed] has no node
    section; the parse is flagged as failed and the graph is kept, yet the
    topology name of the settings has changed from [lab] to [renamed]. *)
Lemma document_without_nodes_counterexample :
  let st' := handleYamlChange Example.name_only_document Example.two_nodes in
  isYamlValid (document st') = false
  ∧ graph st' = graph Example.two_nodes
  ∧ topologyName (settings Example.two_nodes) = JStr "lab"
  ∧ topologyName (settings st') = JStr "renamed"
  ∧ settings st' ≠ settings Example.two_nodes.
Proof.
  cbv zeta. repeat (split; [vm_compute; reflexivity|]).
  intros Heq. apply (f_equal topologyName) in Heq. vm_compute in Heq. discriminate.
Qed.

(** ** The round trip through the document *)

Lemma dumped_JObj o : dumped (JObj o) = JObj (dumped_props o).
Proof.
  cbn [dumped]. f_equal. induction o as [|[k x] o IH]; [done|].
  unfold dumped_props in *. cbn [flat_map]. rewrite <-IH. by destruct x.
Qed.












Lemma dumped_props_objects {A} (f : A → string) (g : A → entries) (l : list A) :
  dumped_props ((λ a, (f a, JObj (g a))) <$> l)
  = (λ a, (f a, JObj (dumped_props (g a)))) <$> l.
Proof.
  induction l as [|a l IH]; [done|]. unfold dumped_props in *. cbn [fmap list_fmap flat_map].
  cbn [fst snd]. rewrite IH. cbn [app]. by rewrite dumped_JObj.
Qed.

Lemma rmapi_from_Forall2 {A B} (f : nat → A → result B) (R : A → B → Prop) l i :
  (∀ j a, a ∈ l → ∃ b, f j a = inr b ∧ R a b) →
  ∃ bs, rmapi_from i f l = inr bs ∧ Forall2 R l bs.
Proof.
  revert i. induction l as [|a l IH]; intros i Hf; cbn [rmapi_from].
  - exists []. by split.
  - destruct (Hf i a) as (b & -> & Hb); [left|].
    destruct (IH (S i)) as (bs & -> & Hbs); [intros; apply Hf; by right|].
    exists (b :: bs). split; [done|by constructor].
Qed.





Lemma dumped_link_entry e : dumped (link_entry e) = link_entry e.
Proof. done. Qed.







Section RoundTrip.

Context `{Y : YamlLib} (user : option string).



End RoundTrip.





Ltac evaluate t :=
  let v := eval vm_compute in t in replace t with v by (vm_compute; reflexivity).


Section RoundTripTheorem.

Context `{Y : YamlLib} (user : option string).




End RoundTripTheorem.


(** ** Lists and filters *)

Lemma filter_none {A} (P : A → Prop) `{∀ x, Decision (P x)} (l : list A) :
  Forall (λ x, ¬ P x) l → filter P l = [].
Proof.
  induction 1 as [|x l Hx _ IH]; [done|]. by rewrite filter_cons_False.
Qed.

Lemma filter_all {A} (P : A → Prop) `{∀ x, Decision (P x)} (l : list A) :
  Forall P l → filter P l = l.
Proof.
  induction 1 as [|x l Hx _ IH]; [done|]. rewrite filter_cons_True by done. by rewrite IH.
Qed.

Lemma filter_fresh_last {A} `{EqDecision A} (x : A) (l : list A) :
  x ∉ l → filter (λ i, i ≠ x) (l ++ [x]) = l.
Proof.
  intros Hx. rewrite filter_app, filter_cons_False, filter_nil, app_nil_r by (by intros ?).
  apply filter_all, Forall_forall. by intros a Ha ->.
Qed.

Lemma char_between_elem lo hi c :
  char_between lo hi c = true →
  c ∈ ascii_of_nat <$> seq (nat_of_ascii lo) (S (nat_of_ascii hi) - nat_of_ascii lo).
Proof.
  unfold char_between. intros [H1 H2]%andb_true_iff.
  apply Nat.leb_le in H1, H2.
  apply list_elem_of_fmap. exists (nat_of_ascii c). split; [by rewrite ascii_nat_embedding|].
  apply elem_of_seq. lia.
Qed.

Lemma char_between_weaken lo hi lo' hi' c :
  (nat_of_ascii lo' ≤ nat_of_ascii lo)%nat → (nat_of_ascii hi ≤ nat_of_ascii hi')%nat →
  char_between lo hi c = true → char_between lo' hi' c = true.
Proof.
  unfold char_between. intros Hlo Hhi [H1 H2]%andb_true_iff.
  apply Nat.leb_le in H1, H2. apply andb_true_iff. split; apply Nat.leb_le; lia.
Qed.

Ltac find_eth :=
  lazymatch goal with
  | |- ∃ n, _ ∧ String _ (String _ (String _ ?digits)) = _ =>
      let n := eval vm_compute in (default 0%N (all_digits digits 0%N)) in
      exists n; split; [lia | vm_compute; reflexivity]
  end.

Ltac each_elem H :=
  repeat (apply elem_of_cons in H as [->|H]); [..|by apply elem_of_nil in H].

Lemma validateInterface_eth s :
  validateInterface s = true → ∃ n, (1 ≤ n ≤ 99)%N ∧ s = eth n.
Proof.
  intros H.
  assert (∃ c1 rest, s = String "e" (String "t" (String "h" (String c1 rest)))) as (c1 & rest & ->).
  { unfold validateInterface, iface_alt1, iface_alt2, iface_alt3 in H.
    destruct s as [|a1 s]; [done|].
    destruct a1 as [[] [] [] [] [] [] [] []]; try done.
    destruct s as [|a2 s]; [done|].
    destruct a2 as [[] [] [] [] [] [] [] []]; try done.
    destruct s as [|a3 s]; [done|].
    destruct a3 as [[] [] [] [] [] [] [] []]; try done.
    destruct s as [|c1 rest]; [done|]. by eexists _, _. }
  assert (char_between "1" "9" c1 = true
          ∧ (rest = "" ∨ ∃ c2, rest = String c2 "" ∧ char_between "0" "9" c2 = true))
    as [H1 Hrest].
  { unfold validateInterface, iface_alt1, iface_alt2, iface_alt3 in H.
    destruct rest as [|c2 [|c3 rest]]; cbv beta iota in H.
    - split; [|by left]. revert H.
      destruct (char_between "1" "9" c1); [done|]. intros H.
      destruct c1 as [[] [] [] [] [] [] [] []]; vm_compute in H; discriminate.
    - assert (char_between "0" "4" c2 = true → char_between "0" "9" c2 = true) as H04
        by (apply char_between_weaken; vm_compute; lia).
      assert (char_between "1" "4" c1 = true → char_between "1" "9" c1 = true) as H14
        by (apply char_between_weaken; vm_compute; lia).
      revert H H04 H14.
      destruct (char_between "1" "9" c1) eqn:E1, (char_between "0" "9" c2) eqn:E2,
        (char_between "1" "4" c1), (char_between "0" "4" c2);
        intros H H04 H14;
        try (split; [reflexivity|right; exists c2; split; [reflexivity|exact E2]]); try (by specialize (H14 eq_refl));
        try (by specialize (H04 eq_refl)).
      all: exfalso; clear -H E1; destruct c1 as [[] [] [] [] [] [] [] []];
        first [vm_compute in H; discriminate | vm_compute in E1; discriminate].
    - exfalso. destruct c1 as [[] [] [] [] [] [] [] []]; vm_compute in H; discriminate. }
  clear H. apply char_between_elem in H1. vm_compute in H1.
  destruct Hrest as [->|(c2 & -> & H2)].
  - each_elem H1; find_eth.
  - apply char_between_elem in H2. vm_compute in H2.
    each_elem H1; each_elem H2; find_eth.
Qed.

(** X1. The interface validator accepts a name exactly when it is [eth]
    followed by the decimal numeral of a number from 1 to 99, written
    without a leading zero. Nothing else passes: no other prefix, no
    [eth0], no three digits, no sign or space. *)
Theorem validateInterface_exactly (interfaceName : string) :
  validateInterface interfaceName = true
  ↔ ∃ n, (1 ≤ n ≤ 99)%N ∧ interfaceName = eth n.
Proof.
  split; [apply validateInterface_eth|].
  intros (n & Hn & ->). by apply validateInterface_1_to_99.
Qed.

(** ** The allocator on any input *)

(** On every text the allocator either yields nothing, whatever the count,
    or runs its loop from four octets. *)
Lemma generateIps_loop subnet :
  (∀ count, generateIpsFromSubnet subnet count = [])
  ∨ ∃ a b c d, ∀ count, generateIpsFromSubnet subnet count = ip_loop [a; b; c; d] count 0.
Proof.
  unfold generateIpsFromSubnet.
  destruct (blank subnet); [by left|].
  destruct (split_on "/" subnet) as [|baseIpStr [|maskStr [|??]]]; try by left.
  destruct (parseInt maskStr) as [mask|]; [|by left].
  destruct (_ || _); [by left|].
  destruct (split_on "." baseIpStr) as [|o1 [|o2 [|o3 [|o4 [|??]]]]]; try by left.
  cbn [length Nat.eqb negb]. destruct (existsb _ _); [by left|].
  right. by eexists _, _, _, _.
Qed.

Lemma address_inj (a b c : Z) (k k' : nat) :
  join "." (pretty <$> [a; b; c; (0 + Z.of_nat k + 2)%Z])
  = join "." (pretty <$> [a; b; c; (0 + Z.of_nat k' + 2)%Z]) →
  k = k'.
Proof.
  cbn [fmap list_fmap join]. intros H.
  repeat apply (inj (String.append _)) in H.
  apply (inj pretty) in H. lia.
Qed.

(** What the loop yields: the addresses [a.b.c.2], [a.b.c.3], ... *)
Lemma generateIps_cases (subnet : string) :
  (∀ count, generateIpsFromSubnet subnet count = [])
  ∨ ∃ a b c : Z, ∀ count,
      generateIpsFromSubnet subnet count
      = (λ k : nat, join "." (pretty <$> [a; b; c; (0 + Z.of_nat k + 2)%Z]))
          <$> seq 0 (count `min` 253).
Proof.
  destruct (generateIps_loop subnet) as [Hnone|(a & b & c & d & Hloop)]; [by left|].
  right. exists a, b, c. intros count. rewrite Hloop, ip_loop_spec by done.
  by replace (Z.to_nat (253 - 0)) with 253%nat by done.
Qed.

Lemma generateIps_NoDup (subnet : string) (count : nat) :
  NoDup (generateIpsFromSubnet subnet count).
Proof.
  destruct (generateIps_cases subnet) as [Hnone|(a & b & c & Hloop)].
  - rewrite Hnone. constructor.
  - rewrite Hloop. apply NoDup_fmap_2_strong; [|apply NoDup_seq].
    intros k k' _ _. apply address_inj.
Qed.

(** X2. On every subnet text and every count, the allocator's list is
    the first [count] entries of the list it gives for 253; so a larger
    count only extends the list and never changes an address already
    given. The addresses of one list are pairwise distinct, and there are
    at most [count] and at most 253 of them. *)
Theorem generateIps_any_input (subnet : string) (count : nat) :
  generateIpsFromSubnet subnet count = take count (generateIpsFromSubnet subnet 253)
  ∧ NoDup (generateIpsFromSubnet subnet count)
  ∧ (length (generateIpsFromSubnet subnet count) ≤ count `min` 253)%nat.
Proof.
  split; [|split; [apply generateIps_NoDup|]];
    destruct (generateIps_cases subnet) as [Hnone|(a & b & c & Hloop)].
  - by rewrite !Hnone, take_nil.
  - rewrite !Hloop, Nat.min_id. by rewrite <-fmap_take, take_seq.
  - rewrite Hnone. simpl. lia.
  - by rewrite Hloop, length_fmap, length_seq.
Qed.

(** ** The next interface number *)








(** ** Drawing a connection *)

Section Connections.

Context `{Y : YamlLib} (user : option string).









End Connections.

(** ** Committing and removing an edge *)

Section NewEdge.

Context `{Y : YamlLib} (user : option string).

(** The renderer reads the settings and the previous document only. *)
Lemma updateYaml_ext (st st' : state) nds eds :
  settings st' = settings st → yamlOutput (document st') = yamlOutput (document st) →
  updateYaml user st' nds eds = updateYaml user st nds eds.
Proof.
  intros Hs Hd. unfold updateYaml, yamlObject, existingConfig. by rewrite Hs, Hd.
Qed.

(** A submission of a new edge with valid names that no edge at hand
    bears appends the edge, reserves the names and renders the document. *)
Lemma handleEdgeModalSubmit_appends (st : state) (c : connection) (yamlString : text) :
  let f := edgeForm st in
  let newEdge := new_edge c (sourceInterface f) (targetInterface f) in
  isModifyingEdge f = false →
  newEdgeData f = Some c →
  validateInterface (sourceInterface f) = true →
  validateInterface (targetInterface f) = true →
  link_of newEdge ∉ (link_of <$> edges (graph st)) →
  updateYaml user st (nodes (graph st)) (edges (graph st) ++ [newEdge]) = inr yamlString →
  handleEdgeModalSubmit user st
  = (close_edge_form
       (setEdges (edges (graph st) ++ [newEdge])
          (storeYaml yamlString
             (setNodeInterfaces
                (add_interfaces (c_source c) (c_target c) (sourceInterface f)
                   (targetInterface f) (nodeInterfaces (graph st))) st))), None).
Proof.
  intros f newEdge Hmod Hc Hvs Hvt Hfresh Hyaml. unfold handleEdgeModalSubmit. fold f.
  rewrite (validateInterface_not_blank _ Hvs), (validateInterface_not_blank _ Hvt),
    Hvs, Hvt, Hc, Hmod.
  cbn [negb orb rbind ok e_source e_target]. unfold new_edge in *. fold newEdge.
  replace (find (same_link newEdge (sourceInterface f) (targetInterface f))
             (edges (graph st))) with (@None edge).
  2:{ symmetry. destruct (find _ _) as [e|] eqn:E; [|done].
      apply find_some in E as [He Hsame]. apply list_elem_of_In in He.
      apply (same_link_spec newEdge _ _ e eq_refl eq_refl) in Hsame.
      destruct Hfresh. apply list_elem_of_fmap. by exists e. }
  by rewrite Hyaml.
Qed.

End NewEdge.

Section ConnectAndSubmit.

Context `{Y : YamlLib} (user : option string).





End ConnectAndSubmit.


(** ** The name of the document *)

Lemma includes_append p s : includes p (p +:+ s) = true.
Proof. destruct (p +:+ s) eqn:E; cbn [includes]; rewrite <-E; by rewrite startsWith_append. Qed.

Lemma includes_skip p c s : includes p s = true → includes p (String c s) = true.
Proof. intros H. cbn [includes]. rewrite H. apply orb_true_r. Qed.

(** X6. Qualifying a topology name for a signed-in user is idempotent:
    the name that [updateYaml] writes for a topology name holds the user
    name, so qualifying it again gives it back unchanged. Rendering
    therefore never stacks a second prefix on a name it has written. *)
Theorem qualified_name_stable (u : string) (name name' : jv) :
  qualified_name (Some u) name = inr name' →
  qualified_name (Some u) name' = inr name'.
Proof.
  unfold qualified_name, includes_username, username, username_or_empty.
  cbn [default js_to_string].
  assert (∀ s, rbind (ok (includes u (u +:+ "-" +:+ s)))
                 (λ has, ok (if has : bool then JStr (u +:+ "-" +:+ s)
                             else JStr (u +:+ "-" +:+ js_to_string (JStr (u +:+ "-" +:+ s)))))
               = inr (JStr (u +:+ "-" +:+ s))) as Hfix.
  { intros s. by rewrite includes_append. }
  destruct name as [| | | |s|l|]; try done; cbn [rbind ok].
  - destruct (includes u s) eqn:E; intros [= <-]; [by rewrite E|apply Hfix].
  - destruct (existsb _ l) eqn:E; intros [= <-]; [by rewrite E|apply Hfix].
Qed.

Lemma qualified_name_stable_witness :
  qualified_name (Some "bob") (JStr "lab") = inr (JStr "bob-lab")
  ∧ qualified_name (Some "bob") (JStr "bob-lab") = inr (JStr "bob-lab").
Proof.
  split; [reflexivity|].
  apply (qualified_name_stable "bob" (JStr "lab")). reflexivity.
Defined.

(** ** What a parse leaves behind *)

Section ParseCases.

Context `{Y : YamlLib}.

(** What [initializeNodeInterfacesFromYaml] stores does not depend on the
    state it is run on. *)
Lemma initializeNodeInterfacesFromYaml_stores yamlContent currentNodes :
  ∃ stored : option (gmap string (list (option string))),
    ∀ st : state,
      initializeNodeInterfacesFromYaml yamlContent currentNodes st
      = match stored with
        | Some registry => setNodeInterfaces registry st
        | None => st
        end.
Proof.
  unfold initializeNodeInterfacesFromYaml.
  destruct (yaml_load yamlContent) as [|parsedYaml]; [by exists None|].
  destruct (truthy _); [|by exists None].
  destruct (oprop _ _); try by exists None.
  destruct (interfaces_of_links _ _ _) as [|r]; [by exists None|]. by exists (Some r).
Qed.

(** Every run of [handleYamlChange] stores the text and leaves the edge
    form and the error dialog alone. It stops early, with the graph as it
    was, or it replaces nodes and edges; in that case it ends valid unless
    the kind templates throw. *)
Lemma handleYamlChange_cases (newYaml : text) (st : state) :
  let st' := handleYamlChange newYaml st in
  yamlOutput (document st') = newYaml ∧ editableYaml (document st') = newYaml
  ∧ edgeForm st' = edgeForm st ∧ alerts st' = alerts st
  ∧ topologyName (settings st')
    = match yaml_load newYaml with
      | inr parsedYaml =>
          if truthy (oprop parsedYaml "name") then oprop parsedYaml "name"
          else topologyName (settings st)
      | inl _ => topologyName (settings st)
      end
  ∧ ((∃ message,
        isYamlValid (document st') = false
        ∧ yamlParseError (document st') = "Error parsing YAML: " +:+ message
        ∧ graph st' = graph st ∧ nodeForm st' = nodeForm st
        ∧ other_settings (settings st') = other_settings (settings st))
     ∨ ∃ parsedYaml newNodes newEdges,
         yaml_load newYaml = inr parsedYaml
         ∧ rmapi_from 0 parsed_node
             (own_entries (oprop (oprop parsedYaml "topology") "nodes")) = inr newNodes
         ∧ parsed_edges (prop (prop parsedYaml "topology") "links") = inr newEdges
         ∧ nodes (graph st') = newNodes
         ∧ edges (graph st') = newEdges
         ∧ nodeInterfaces (graph st')
           = nodeInterfaces
               (graph (initializeNodeInterfacesFromYaml newYaml newNodes st))
         ∧ ((∃ message,
               isYamlValid (document st') = false
               ∧ yamlParseError (document st') = "Error parsing YAML: " +:+ message
               ∧ rmap parsed_kind
                   (own_entries (prop (prop parsedYaml "topology") "kinds"))
                 = inl message
               ∧ showKind (settings st') = true)
            ∨ (isYamlValid (document st') = true
               ∧ yamlParseError (document st') = ""))).
Proof.
  intros st'. subst st'. unfold handleYamlChange.
  destruct (yaml_load newYaml) as [e|parsedYaml] eqn:Hload.
  { repeat split; try done. left. by exists e. }
  set (st0 := if truthy (oprop parsedYaml "name") then _ else _).
  assert (graph st0 = graph st ∧ nodeForm st0 = nodeForm st
          ∧ other_settings (settings st0) = other_settings (settings st)
          ∧ edgeForm st0 = edgeForm st ∧ alerts st0 = alerts st
          ∧ yamlOutput (document st0) = newYaml ∧ editableYaml (document st0) = newYaml
          ∧ topologyName (settings st0)
            = (if truthy (oprop parsedYaml "name") then oprop parsedYaml "name"
               else topologyName (settings st)))
    as (Hg0 & Hf0 & Hs0 & He0 & Ha0 & Hy0 & Hed0 & Ht0).
  { subst st0. by destruct (truthy _). }
  clearbody st0. rewrite <-Ht0. clear Ht0.
  destruct (truthy (oprop (oprop parsedYaml "topology") "nodes")).
  2:{ cbn. repeat split; try done. left. by exists "Invalid YAML structure". }
  unfold rebuild_from.
  destruct (rmapi_from 0 parsed_node _) as [e|newNodes] eqn:Hnodes.
  { cbn. repeat split; try done. left. by exists e. }
  destruct (parsed_edges _) as [e|newEdges] eqn:Hedges.
  { cbn. repeat split; try done. left. by exists e. }
  set (st1 := setEdges newEdges (setNodes newNodes st0)).
  set (stR := initializeNodeInterfacesFromYaml newYaml newNodes st1).
  assert (nodes (graph stR) = newNodes ∧ edges (graph stR) = newEdges
          ∧ nodeInterfaces (graph stR)
            = nodeInterfaces (graph (initializeNodeInterfacesFromYaml newYaml newNodes st))
          ∧ edgeForm stR = edgeForm st ∧ alerts stR = alerts st
          ∧ yamlOutput (document stR) = newYaml ∧ editableYaml (document stR) = newYaml
          ∧ topologyName (settings stR) = topologyName (settings st0))
    as (HnR & HeR & HrR & HefR & HaR & HyR & HedR & HtR).
  { subst stR.
    destruct (initializeNodeInterfacesFromYaml_stores newYaml newNodes) as [stored Hst].
    rewrite !Hst. destruct stored; subst st1; cbn; by rewrite ?Hg0. }
  clearbody stR. clear st1.
  set (st3 := match newNodes with [n] => _ | _ => _ end).
  assert (nodes (graph st3) = newNodes ∧ edges (graph st3) = newEdges
          ∧ nodeInterfaces (graph st3)
            = nodeInterfaces (graph (initializeNodeInterfacesFromYaml newYaml newNodes st))
          ∧ edgeForm st3 = edgeForm st ∧ alerts st3 = alerts st
          ∧ yamlOutput (document st3) = newYaml ∧ editableYaml (document st3) = newYaml
          ∧ isYamlValid (document st3) = true ∧ yamlParseError (document st3) = ""
          ∧ topologyName (settings st3) = topologyName (settings st0))
    as (Hn3 & He3 & Hr3 & Hef3 & Ha3 & Hy3 & Hed3 & Hv3 & Hm3 & Ht3).
  { subst st3. destruct newNodes as [|n [|??]]; try by repeat split.
    destruct (prop (JObj (n_data n)) "customFields"); by repeat split. }
  clearbody st3. clear stR HnR HeR HrR HefR HaR HyR HedR HtR.
  set (st4 := if truthy (prop parsedYaml "mgmt") then _ else _).
  assert (nodes (graph st4) = newNodes ∧ edges (graph st4) = newEdges
          ∧ nodeInterfaces (graph st4)
            = nodeInterfaces (graph (initializeNodeInterfacesFromYaml newYaml newNodes st))
          ∧ edgeForm st4 = edgeForm st ∧ alerts st4 = alerts st
          ∧ yamlOutput (document st4) = newYaml ∧ editableYaml (document st4) = newYaml
          ∧ isYamlValid (document st4) = true ∧ yamlParseError (document st4) = ""
          ∧ topologyName (settings st4) = topologyName (settings st0))
    as (Hn4 & He4 & Hr4 & Hef4 & Ha4 & Hy4 & Hed4 & Hv4 & Hm4 & Ht4).
  { subst st4. destruct (truthy (prop parsedYaml "mgmt")); [|done].
    by destruct (truthy (jor _ _)). }
  clearbody st4. clear st3 Hn3 He3 Hr3 Hef3 Ha3 Hy3 Hed3 Hv3 Hm3 Ht3.
  destruct (truthy (prop (prop parsedYaml "topology") "kinds")).
  - destruct (rmap parsed_kind _) as [e|newKinds] eqn:Hkinds.
    + cbn. repeat split; try done. right. exists parsedYaml, newNodes, newEdges.
      repeat split; try done. left. by exists e.
    + destruct (0 <? length newKinds)%nat;
        destruct (truthy (prop (prop parsedYaml "topology") "defaults")); cbn;
        (repeat split; try done); right; exists parsedYaml, newNodes, newEdges;
        (repeat split; try done); by right.
  - destruct (truthy (prop (prop parsedYaml "topology") "defaults")); cbn;
      (repeat split; try done); right; exists parsedYaml, newNodes, newEdges;
      (repeat split; try done); by right.
Qed.

End ParseCases.

Section ParseResults.

Context `{Y : YamlLib}.


Lemma grid_position_inj : Inj (=) (=) grid_position.
Proof.
  intros i j H.
  pose proof (f_equal pos_x H) as Hx. pose proof (f_equal pos_y H) as Hy.
  unfold grid_position in Hx, Hy. cbn [pos_x pos_y] in Hx, Hy.
  assert (i mod 3 = j mod 3)%nat as Hmod by lia.
  assert (i / 3 = j / 3)%nat as Hdiv by lia.
  rewrite (Nat.div_mod_eq i 3), (Nat.div_mod_eq j 3). by rewrite Hmod, Hdiv.
Qed.

Lemma parsed_nodes_placed entries i newNodes :
  rmapi_from i parsed_node entries = inr newNodes →
  n_id <$> newNodes = keys entries
  ∧ n_position <$> newNodes = grid_position <$> seq i (length entries).
Proof.
  revert i newNodes. induction entries as [|[nodeName nodeData] entries IH];
    intros i newNodes; cbn [rmapi_from].
  - by intros [= <-].
  - unfold parsed_node at 1.
    destruct (parsed_customFields nodeData) as [|customFields]; [done|]. cbn [rbind ok].
    destruct (rmapi_from (S i) parsed_node entries) as [|rest] eqn:Hrest; [done|].
    cbn [rbind ok]. intros [= <-]. destruct (IH _ _ Hrest) as [Hids Hpos].
    unfold keys in *. cbn. by rewrite Hids, Hpos.
Qed.

Lemma parsed_edges_numbered links i newEdges :
  rmapi_from i parsed_edge links = inr newEdges →
  e_id <$> newEdges = (λ k : nat, Some ("edge_" +:+ pretty k)) <$> seq i (length links).
Proof.
  revert i newEdges. induction links as [|link links IH]; intros i newEdges; cbn [rmapi_from].
  - by intros [= <-].
  - unfold parsed_edge at 1.
    destruct (endpoint link "0") as [|s]; [done|]. cbn [rbind ok].
    destruct (endpoint link "1") as [|t]; [done|]. cbn [rbind ok].
    destruct (rmapi_from (S i) parsed_edge links) as [|rest] eqn:Hrest; [done|].
    cbn [rbind ok]. intros [= <-]. cbn. by rewrite (IH _ _ Hrest).
Qed.

(** X8. When [handleYamlChange] ends with the document marked valid, the
    text was parsed, the nodes of the graph are the entries of
    [topology.nodes] in the order of the document, the node at index [i]
    sits at the grid position of [i] and no two nodes share a position;
    the edge at index [k] has the identifier [edge_<k>], so the edge
    identifiers are pairwise distinct. *)
Theorem valid_parse_places_nodes (newYaml : text) (st : state) :
  let st' := handleYamlChange newYaml st in
  isYamlValid (document st') = true →
  ∃ parsedYaml,
    yaml_load newYaml = inr parsedYaml
    ∧ n_id <$> nodes (graph st')
      = keys (own_entries (oprop (oprop parsedYaml "topology") "nodes"))
    ∧ n_position <$> nodes (graph st')
      = grid_position <$> seq 0 (length (nodes (graph st')))
    ∧ NoDup (n_position <$> nodes (graph st'))
    ∧ e_id <$> edges (graph st')
      = (λ k : nat, Some ("edge_" +:+ pretty k)) <$> seq 0 (length (edges (graph st')))
    ∧ NoDup (e_id <$> edges (graph st')).
Proof.
  intros st' Hvalid.
  destruct (handleYamlChange_cases newYaml st)
    as (_ & _ & _ & _ & _ & [(message & Hv & _)
         |(parsedYaml & newNodes & newEdges & Hload & Hnodes & Hedges & Hn & He & _ & _)]);
    [fold st' in Hv; congruence|fold st' in Hn, He].
  exists parsedYaml. split; [done|]. rewrite Hn, He.
  destruct (parsed_nodes_placed _ _ _ Hnodes) as [Hids Hpos].
  assert (length newNodes = length (own_entries (oprop (oprop parsedYaml "topology") "nodes")))
    as Hlen by (rewrite <-(length_fmap n_id newNodes), Hids; unfold keys; by rewrite length_fmap).
  rewrite Hlen, <-Hpos. split; [done|]. split; [done|]. split.
  { rewrite Hpos. apply NoDup_fmap_2; [apply grid_position_inj|apply NoDup_seq]. }
  assert (∃ links, rmapi_from 0 parsed_edge links = inr newEdges) as [links Hlinks].
  { unfold parsed_edges in Hedges. destruct (jor _ _); try done. by eexists. }
  pose proof (parsed_edges_numbered _ _ _ Hlinks) as Hnum.
  assert (length newEdges = length links) as Hl
    by (by rewrite <-(length_fmap e_id newEdges), Hnum, length_fmap, length_seq).
  rewrite Hl, Hnum. split; [done|].
  apply NoDup_fmap_2_strong; [|apply NoDup_seq].
  intros k k' _ _ Heq. apply (inj Some) in Heq.
  apply (inj (String.append _)) in Heq. by apply (inj pretty) in Heq.
Qed.

End ParseResults.


Lemma valid_parse_places_nodes_witness :
  let st' := handleYamlChange Example.dangling_document Example.linked in
  isYamlValid (document st') = true
  ∧ n_position <$> nodes (graph st')
    = grid_position <$> seq 0 (length (nodes (graph st')))
  ∧ NoDup (e_id <$> edges (graph st')).
Proof.
  intros st'.
  assert (isYamlValid (document st') = true) as Hvalid by (vm_compute; reflexivity).
  split; [exact Hvalid|].
  destruct (valid_parse_places_nodes Example.dangling_document Example.linked Hvalid)
    as (parsedYaml & _ & _ & Hpos & _ & _ & Hids).
  split; [exact Hpos|exact Hids].
Defined.

(** ** The registry rebuilt from the links *)






Section RegistryFromLinks.

Context `{Y : YamlLib}.


End RegistryFromLinks.


(** ** What the edge form commits *)

Section EdgeFormCommits.

Context `{Y : YamlLib} (user : option string).

(** X10. Whatever the state, every edge of the graph after a submission
    of the edge form was an edge before or has two interface names that
    pass the validator. And when one of the two names of the form fails
    the validator, the submission throws nothing, leaves graph and
    document alone and either sets the warning of the form or shows the
    error dialog with the interface message. *)
Theorem edge_form_commits_valid_names (st : state) :
  let f := edgeForm st in
  let out := handleEdgeModalSubmit user st in
  (∀ e, e ∈ edges (graph out.1) → e ∈ edges (graph st) ∨ valid_names e)
  ∧ (validateInterface (sourceInterface f) = false
     ∨ validateInterface (targetInterface f) = false →
     out.2 = None
     ∧ graph out.1 = graph st
     ∧ document out.1 = document st
     ∧ (edgeModalWarning (edgeForm out.1) = true
        ∨ showErrorModal (alerts out.1) = true
          ∧ errorMessage (alerts out.1) = interface_error)).
Proof.
  intros f out. subst out. unfold handleEdgeModalSubmit. fold f.
  destruct (blank (sourceInterface f) || blank (targetInterface f)) eqn:Hblank.
  { split; [by left|]. intros _. repeat split. by left. }
  destruct (validateInterface (sourceInterface f)) eqn:Hvs; cbn [negb orb].
  2:{ split; [by left|]. intros _. repeat split. by right. }
  destruct (validateInterface (targetInterface f)) eqn:Hvt; cbn [negb orb].
  2:{ split; [by left|]. intros _. repeat split. by right. }
  split; [|by intros [?|?]].
  destruct (newEdgeData f) as [c|]; [|by left].
  set (newEdge := {| e_id := _ |}).
  assert (valid_names newEdge) as Hnew by (by eexists _, _).
  destruct (isModifyingEdge f).
  - destruct (match find _ _ with Some _ => _ | None => _ end) as [|registry]; [by left|].
    destruct (updateYaml _ _ _ _); [by left|]. cbn.
    intros e (e0 & -> & He0)%list_elem_of_fmap. case_bool_decide; [by right|by left].
  - cbn [rbind ok]. destruct (find _ _); [by left|].
    destruct (updateYaml _ _ _ _); [by left|]. cbn.
    intros e [He| ->%list_elem_of_singleton]%elem_of_app; [by left|by right].
Qed.

End EdgeFormCommits.

Section ModifyEdge.

Context `{Y : YamlLib} (user : option string).




End ModifyEdge.


Section RemoveEdge.

Context `{Y : YamlLib} (user : option string).

(** Reserving two unused names and retracting them again gives the
    registry back. *)
Lemma retract_add_interfaces (e : edge) si ti ls lt
    (registry : gmap string (list (option string))) :
  e_sourceInterface e = Some si → e_targetInterface e = Some ti →
  registry !! e_source e = Some ls → registry !! e_target e = Some lt →
  Some si ∉ ls → Some ti ∉ lt →
  retract_interfaces e (add_interfaces (e_source e) (e_target e) si ti registry)
  = inr registry.
Proof.
  intros Hsi Hti Hls Hlt Hfs Hft. unfold retract_interfaces, add_interfaces.
  rewrite Hls, Hlt, Hsi, Hti. cbn [default].
  destruct (decide (e_source e = e_target e)) as [Heq|Hne].
  - rewrite Heq in *. rewrite !lookup_insert_eq. unfold ok. f_equal.
    rewrite !insert_insert_eq. rewrite filter_fresh_last by done.
    by apply insert_id.
  - rewrite lookup_insert_ne, !lookup_insert_eq by done. unfold ok. f_equal.
    rewrite !filter_fresh_last by done.
    apply map_eq. intros k.
    destruct (decide (k = e_target e)) as [->|Hkt]; [by rewrite lookup_insert_eq|].
    rewrite lookup_insert_ne by done.
    destruct (decide (k = e_source e)) as [->|Hks]; [by rewrite lookup_insert_eq|].
    by rewrite !lookup_insert_ne by done.
Qed.

(** X12. Removing an edge undoes its creation. When the edge form
    commits a new edge whose identifier and interface names are not yet in
    use, and the edge is then removed from its context menu, the nodes,
    the edges and the whole interface registry are as before the
    creation; the document is rendered again and the menu is closed. *)
Theorem connect_then_remove_edge (pg : page) (c : connection) (ls lt : list (option string))
    (rendered rendered' : text) :
  let st := core pg in
  let f := edgeForm st in
  let newEdge := new_edge c (sourceInterface f) (targetInterface f) in
  let st1 := (handleEdgeModalSubmit user st).1 in
  isModifyingEdge f = false →
  newEdgeData f = Some c →
  validateInterface (sourceInterface f) = true →
  validateInterface (targetInterface f) = true →
  nodeInterfaces (graph st) !! c_source c = Some ls →
  nodeInterfaces (graph st) !! c_target c = Some lt →
  Some (sourceInterface f) ∉ ls →
  Some (targetInterface f) ∉ lt →
  registry_covers (graph st) →
  e_id newEdge ∉ (e_id <$> edges (graph st)) →
  updateYaml user st (nodes (graph st)) (edges (graph st) ++ [newEdge]) = inr rendered →
  updateYaml user st1 (nodes (graph st)) (edges (graph st)) = inr rendered' →
  edges (graph st1) = edges (graph st) ++ [newEdge]
  ∧ ∃ pg',
      handleRemoveEdge user (onEdgeContextMenu newEdge (in_core (λ _, st1) pg))
      = Some (pg', None)
      ∧ nodes (graph (core pg')) = nodes (graph st)
      ∧ edges (graph (core pg')) = edges (graph st)
      ∧ nodeInterfaces (graph (core pg')) = nodeInterfaces (graph st)
      ∧ yamlOutput (document (core pg')) = rendered'
      ∧ contextMenu pg' = None.
Proof.
  intros st f newEdge st1 Hmod Hc Hvs Hvt Hls Hlt Hfs Hft Hcov Hid Hy Hy'.
  assert (link_of newEdge ∉ (link_of <$> edges (graph st))) as Hfresh.
  { intros (e & Heq & He)%list_elem_of_fmap.
    unfold registry_covers in Hcov. rewrite Forall_forall in Hcov.
    destruct (Hcov e He) as [Hin _]. injection Heq as Hes _ Hei _.
    rewrite <-Hes, <-Hei in Hin. unfold used_at in Hin. cbn in Hin.
    rewrite Hls in Hin. done. }
  pose proof (handleEdgeModalSubmit_appends user st c rendered Hmod Hc Hvs Hvt Hfresh Hy)
    as Hsubmit.
  assert (st1 = (close_edge_form
                   (setEdges (edges (graph st) ++ [newEdge])
                      (storeYaml rendered
                         (setNodeInterfaces
                            (add_interfaces (c_source c) (c_target c) (sourceInterface f)
                               (targetInterface f) (nodeInterfaces (graph st))) st)))))
    as Hst1 by (subst st1; by rewrite Hsubmit).
  clearbody st1. subst st1. split; [done|].
  unfold handleRemoveEdge, onEdgeContextMenu. cbn [contextMenu setContextMenu core in_core].
  cbn [graph nodeInterfaces close_edge_form setEdgeModalWarning setNewEdgeData
       setTargetInterface setSourceInterface setIsEdgeModalOpen setEdges with_graph
       with_edgeForm storeYaml setEditableYaml setYamlOutput with_document
       setNodeInterfaces edges nodes].
  rewrite (retract_add_interfaces newEdge (sourceInterface f) (targetInterface f) ls lt)
    by done.
  rewrite filter_app, filter_cons_False, filter_nil, app_nil_r by (by intros ?).
  replace (filter (λ e, e_id e ≠ e_id newEdge) (edges (graph st))) with (edges (graph st)).
  2:{ symmetry. apply filter_all, Forall_forall. intros e He Heq. apply Hid.
      apply list_elem_of_fmap. by exists e. }
  rewrite Hy'. eexists. split; [reflexivity|]. by repeat split.
Qed.

End RemoveEdge.

Lemma connect_then_remove_edge_witness :
  let pg := page_of (connect_form "leaf1" "spine1" "eth1" "eth1" Example.two_nodes) in
  let st := core pg in
  let f := edgeForm st in
  let c := {| c_id := None; c_source := "leaf1"; c_target := "spine1" |} in
  let newEdge := new_edge c (sourceInterface f) (targetInterface f) in
  let st1 := (handleEdgeModalSubmit Example.user st).1 in
  (isModifyingEdge f = false
   ∧ newEdgeData f = Some c
   ∧ validateInterface (sourceInterface f) = true
   ∧ validateInterface (targetInterface f) = true
   ∧ nodeInterfaces (graph st) !! c_source c = Some []
   ∧ nodeInterfaces (graph st) !! c_target c = Some []
   ∧ registry_covers (graph st)
   ∧ (e_id newEdge ∉ (e_id <$> edges (graph st)))
   ∧ (∃ rendered,
        updateYaml Example.user st (nodes (graph st)) (edges (graph st) ++ [newEdge])
        = inr rendered)
   ∧ (∃ rendered',
        updateYaml Example.user st1 (nodes (graph st)) (edges (graph st)) = inr rendered'))
  ∧ link_of <$> edges (graph st1) = [("leaf1", "spine1", Some "eth1", Some "eth1")]
  ∧ ∃ pg',
      handleRemoveEdge Example.user (onEdgeContextMenu newEdge (in_core (λ _, st1) pg))
      = Some (pg', None)
      ∧ edges (graph (core pg')) = edges (graph st)
      ∧ nodeInterfaces (graph (core pg')) = nodeInterfaces (graph st).
Proof.
  intros pg st f c newEdge st1.
  assert (nodeInterfaces (graph st) !! c_source c = Some []) as Hls
    by (vm_compute; reflexivity).
  assert (nodeInterfaces (graph st) !! c_target c = Some []) as Hlt
    by (vm_compute; reflexivity).
  assert (registry_covers (graph st)) as Hcov.
  { unfold registry_covers. evaluate (edges (graph st)). constructor. }
  assert (e_id newEdge ∉ (e_id <$> edges (graph st))) as Hfresh.
  { evaluate (e_id <$> edges (graph st)). apply not_elem_of_nil. }
  destruct (updateYaml Example.user st (nodes (graph st)) (edges (graph st) ++ [newEdge]))
    as [e|rendered] eqn:Hyaml; [vm_compute in Hyaml; discriminate Hyaml|].
  destruct (updateYaml Example.user st1 (nodes (graph st)) (edges (graph st)))
    as [e|rendered'] eqn:Hyaml'; [vm_compute in Hyaml'; discriminate Hyaml'|].
  split.
  { do 4 (split; [reflexivity|]). split; [exact Hls|]. split; [exact Hlt|].
    split; [exact Hcov|]. split; [exact Hfresh|].
    split; [exists rendered; reflexivity|exists rendered'; reflexivity]. }
  destruct (connect_then_remove_edge Example.user pg c [] [] rendered rendered'
              eq_refl eq_refl eq_refl eq_refl Hls Hlt
              (not_elem_of_nil _) (not_elem_of_nil _) Hcov Hfresh Hyaml Hyaml')
    as (Hedges & pg' & Hremoved & Hnodes' & Hedges' & Hregistry' & _).
  split.
  { fold st st1 in Hedges. rewrite Hedges. vm_compute. reflexivity. }
  exists pg'. split; [exact Hremoved|]. split; [exact Hedges'|exact Hregistry'].
Defined.

(** ** Removing a node *)

Section RemoveNode.

Context `{Y : YamlLib} (user : option string).

(** X13. Removing a node from its context menu removes every node with
    that identifier and every edge that names it at either end, in both
    cases keeping the order of the rest; no edge is left at the removed
    node, and a graph without dangling edges stays without. The interface
    registry is not touched: the entry of the removed node and the names
    its edges reserved at their other ends stay. When the document
    renders, nothing is thrown, the document is stored and the menu is
    closed. *)
Theorem remove_node_and_its_edges (pg : page) (nodeToRemove : node) :
  let st := core pg in
  let id := n_id nodeToRemove in
  contextMenu pg = Some (node_menu nodeToRemove) →
  ∃ out,
    handleRemoveNode user pg = Some out
    ∧ nodes (graph (core out.1)) = filter (λ n, n_id n ≠ id) (nodes (graph st))
    ∧ edges (graph (core out.1))
      = filter (λ e, e_source e ≠ id ∧ e_target e ≠ id) (edges (graph st))
    ∧ (id ∉ (n_id <$> nodes (graph (core out.1))))
    ∧ incident id (edges (graph (core out.1))) = []
    ∧ nodeInterfaces (graph (core out.1)) = nodeInterfaces (graph st)
    ∧ (no_dangling (graph st) → no_dangling (graph (core out.1)))
    ∧ (∀ yamlString,
         updateYaml user st (nodes (graph (core out.1))) (edges (graph (core out.1)))
         = inr yamlString →
         out.2 = None ∧ contextMenu out.1 = None
         ∧ yamlOutput (document (core out.1)) = yamlString
         ∧ editableYaml (document (core out.1)) = yamlString).
Proof.
  intros st id Hmenu. unfold handleRemoveNode. rewrite Hmenu. fold st id.
  set (updatedNodes := filter (λ n, n_id n ≠ id) (nodes (graph st))).
  set (updatedEdges := filter (λ e, e_source e ≠ id ∧ e_target e ≠ id) (edges (graph st))).
  assert (id ∉ n_id <$> updatedNodes) as Hgone.
  { intros (n & Heq & Hn)%list_elem_of_fmap.
    apply list_elem_of_filter in Hn as [Hne _]. congruence. }
  assert (incident id updatedEdges = []) as Hnone.
  { unfold incident. apply filter_none, Forall_forall.
    intros e [[Hs Ht] _]%list_elem_of_filter [?|?]; congruence. }
  assert (no_dangling (graph st) →
          Forall (λ e, e_source e ∈ (n_id <$> updatedNodes)
                       ∧ e_target e ∈ (n_id <$> updatedNodes)) updatedEdges) as Hkeep.
  { unfold no_dangling. rewrite !Forall_forall.
    intros Hall e [[Hs Ht] He]%list_elem_of_filter. destruct (Hall e He) as [Hsin Htin].
    split.
    - apply list_elem_of_fmap in Hsin as (n & Heq & Hn). apply list_elem_of_fmap.
      exists n. split; [done|]. apply list_elem_of_filter. split; [congruence|done].
    - apply list_elem_of_fmap in Htin as (n & Heq & Hn). apply list_elem_of_fmap.
      exists n. split; [done|]. apply list_elem_of_filter. split; [congruence|done]. }
  destruct (updateYaml user st updatedNodes updatedEdges) as [e|y] eqn:Hy;
    eexists; (split; [reflexivity|]); cbn;
    do 6 (split; [done|]);
    intros y' Hy'; fold st id updatedNodes updatedEdges in Hy'; rewrite Hy in Hy';
    [discriminate|by injection Hy' as <-].
Qed.

End RemoveNode.

Lemma remove_node_and_its_edges_witness :
  let nodeToRemove := Example.first_node Example.linked in
  let pg := onNodeContextMenu nodeToRemove (page_of Example.linked) in
  contextMenu pg = Some (node_menu nodeToRemove)
  ∧ ∃ out,
      handleRemoveNode Example.user pg = Some out
      ∧ n_id <$> nodes (graph (core out.1)) = ["spine1"]
      ∧ edges (graph (core out.1)) = []
      ∧ nodeInterfaces (graph (core out.1)) = nodeInterfaces (graph Example.linked).
Proof.
  intros nodeToRemove pg.
  assert (contextMenu pg = Some (node_menu nodeToRemove)) as Hmenu by reflexivity.
  split; [exact Hmenu|].
  destruct (remove_node_and_its_edges Example.user pg nodeToRemove Hmenu)
    as (out & Hout & Hnodes & Hedges & _ & _ & Hregistry & _).
  exists out. split; [exact Hout|].
  rewrite Hnodes, Hedges, Hregistry.
  split; [vm_compute; reflexivity|]. split; [vm_compute; reflexivity|reflexivity].
Defined.

(** ** Renaming a node *)

Lemma length_filter_fmap {A B} (P : B → Prop) (Q : A → Prop)
    `{∀ x, Decision (P x)} `{∀ x, Decision (Q x)} (f : A → B) (l : list A) :
  Forall (λ x, P (f x) ↔ Q x) l →
  length (filter P (f <$> l)) = length (filter Q l).
Proof.
  induction 1 as [|x l Hx _ IH]; [done|]. cbn [fmap list_fmap].
  destruct (decide (Q x)) as [Hq|Hq].
  - rewrite !filter_cons_True by (by rewrite ?Hx). cbn. by rewrite IH.
  - rewrite !filter_cons_False by (by rewrite ?Hx). done.
Qed.

Lemma strict_eq_JStr (s : string) (v : jv) : strict_eq (JStr s) v = true ↔ v = JStr s.
Proof.
  destruct v; cbn; try (split; [done|by intros ?]).
  rewrite String.eqb_eq. split; [by intros ->|by intros [= ->]].
Qed.

Section Rename.

Context `{Y : YamlLib} (user : option string).

(** What both modify handlers do to the graph once the form passes their
    checks and the document is rendered. *)
Lemma submit_modification_graph (st : state) (after : state → state) (node : node) :
  (∀ s, graph (after s) = graph s) →
  newNode (nodeForm st) = Some node →
  (submit_modification user st after).2 = None →
  let f := nodeForm st in
  let oldNodeId := n_id node in
  let wasNameChanged :=
    negb (strict_eq (JStr (nodeName f)) (prop (JObj (n_data node)) "label")) in
  let updatedNodeId := if wasNameChanged then nodeName f else oldNodeId in
  let g' := graph (submit_modification user st after).1 in
  n_id <$> nodes g'
  = (λ n, if String.eqb (n_id n) oldNodeId then updatedNodeId else n_id n)
      <$> nodes (graph st)
  ∧ edges g'
    = (if wasNameChanged then rename_edge oldNodeId updatedNodeId <$> edges (graph st)
       else edges (graph st))
  ∧ nodeInterfaces g'
    = (if wasNameChanged then
         match nodeInterfaces (graph st) !! oldNodeId with
         | Some _ => move_interfaces oldNodeId updatedNodeId (nodeInterfaces (graph st))
         | None => nodeInterfaces (graph st)
         end
       else nodeInterfaces (graph st)).
Proof.
  intros Hafter Hnode. unfold submit_modification. rewrite Hnode. cbv zeta.
  unfold thenUpdateYaml. destruct (updateYaml _ _ _ _) as [|y]; [done|]. intros _.
  cbn [fst finished]. rewrite Hafter.
  destruct (negb _).
  - destruct (nodeInterfaces (graph st) !! n_id node); cbn;
      (split; [|done]); rewrite <-list_fmap_compose; apply list_fmap_ext;
      intros _ n _; cbn; by destruct (String.eqb _ _).
  - cbn. split; [|done]. rewrite <-list_fmap_compose. apply list_fmap_ext.
    intros _ n _. cbn. by destruct (String.eqb _ _).
Qed.

(** The two handlers differ in what they do to the form only. *)
Lemma submit_modification_after (st : state) (after after' : state → state) :
  (∀ s, graph (after s) = graph s) → (∀ s, graph (after' s) = graph s) →
  graph (submit_modification user st after).1 = graph (submit_modification user st after').1
  ∧ (submit_modification user st after).2 = (submit_modification user st after').2.
Proof.
  intros Hafter Hafter'. unfold submit_modification.
  destruct (newNode (nodeForm st)) as [node|]; [|done]. cbv zeta.
  unfold thenUpdateYaml. destruct (updateYaml _ _ _ _) as [|y]; [done|].
  cbn [fst snd finished]. by rewrite Hafter, Hafter'.
Qed.

Lemma rename_by_submit_modification (st : state) (after : state → state) (node : node) :
  let f := nodeForm st in
  let old := n_id node in
  let new := nodeName f in
  let out := submit_modification user st after in
  (∀ s, graph (after s) = graph s) →
  newNode f = Some node →
  prop (JObj (n_data node)) "label" ≠ JStr new →
  new ≠ old →
  Forall (λ e, ¬ (e_source e = old ∧ e_target e = old)) (edges (graph st)) →
  incident new (edges (graph st)) = [] →
  out.2 = None →
  incident old (edges (graph out.1)) = []
  ∧ length (incident new (edges (graph out.1))) = length (incident old (edges (graph st)))
  ∧ length (edges (graph out.1)) = length (edges (graph st))
  ∧ n_id <$> nodes (graph out.1)
    = (λ n, if String.eqb (n_id n) old then new else n_id n) <$> nodes (graph st)
  ∧ (∀ l, nodeInterfaces (graph st) !! old = Some l →
       nodeInterfaces (graph out.1) !! old = None
       ∧ nodeInterfaces (graph out.1) !! new = Some l).
Proof.
  intros f old new out Hafter Hnode Hlabel Hne Hloops Hfresh Hok. subst out.
  destruct (submit_modification_graph st after node Hafter Hnode Hok)
    as (Hids & Hedges & Hreg).
  fold f old new in Hids, Hedges, Hreg.
  replace (negb (strict_eq (JStr new) (prop (JObj (n_data node)) "label"))) with true
    in Hids, Hedges, Hreg.
  2:{ symmetry. apply negb_true_iff, not_true_iff_false. by rewrite strict_eq_JStr. }
  rewrite Hids, Hedges, Hreg. clear Hids Hedges Hreg Hok.
  assert (Forall (λ e, e_source e ≠ new ∧ e_target e ≠ new) (edges (graph st))) as Hnew.
  { apply Forall_forall. intros e He.
    assert (e ∉ incident new (edges (graph st))) as Hnot
      by (rewrite Hfresh; apply not_elem_of_nil).
    unfold incident in Hnot. rewrite list_elem_of_filter in Hnot.
    split; intros Heq; apply Hnot; split; auto. }
  split; [|split; [|split; [by rewrite length_fmap|split; [done|]]]].
  - unfold incident. apply filter_none, Forall_fmap, Forall_forall.
    intros e He. rewrite Forall_forall in Hloops. specialize (Hloops e He).
    cbn. unfold rename_edge.
    destruct (String.eqb (e_source e) old) eqn:Es.
    + apply String.eqb_eq in Es. cbn. intros [?|?]; [done|]. by apply Hloops.
    + apply String.eqb_neq in Es. destruct (String.eqb (e_target e) old) eqn:Et.
      * cbn. intros [?|?]; done.
      * apply String.eqb_neq in Et. intros [?|?]; done.
  - unfold incident. apply length_filter_fmap.
    rewrite Forall_forall in Hloops, Hnew. apply Forall_forall. intros e He.
    specialize (Hloops e He). destruct (Hnew e He) as [Hsn Htn]. unfold rename_edge.
    destruct (String.eqb (e_source e) old) eqn:Es.
    + apply String.eqb_eq in Es. cbn. split; [by left|by left].
    + apply String.eqb_neq in Es. destruct (String.eqb (e_target e) old) eqn:Et.
      * apply String.eqb_eq in Et. cbn. split; [by right|by right].
      * apply String.eqb_neq in Et. split; intros [?|?]; done.
  - intros l Hl. rewrite Hl. unfold move_interfaces. rewrite Hl.
    split; [apply lookup_delete_eq|].
    rewrite lookup_delete_ne by done. apply lookup_insert_eq.
Qed.

(** X14. Renaming a node through the modify form ([handleModalSubmit] in
    modify mode, name and kind not blank) to a name that differs from its
    label and its identifier, when no edge runs from the node to itself
    and the new name is not yet at the end of any edge: if the submission
    throws nothing, no edge names the old identifier any more, the edges
    at the new identifier are as many as those at the old one were, the
    number of edges is unchanged, the node carries the new identifier at
    its old place in the list, and its registry entry has moved to the
    new identifier. [handleModifyNodeSubmit] throws nothing either and
    gives the same graph. *)
Theorem rename_without_self_loop (st : state) (node : node) :
  let f := nodeForm st in
  let old := n_id node in
  let new := nodeName f in
  let out := handleModalSubmit user st in
  modalType f = modify →
  newNode f = Some node →
  blank new = false →
  blank (nodeKind f) = false →
  prop (JObj (n_data node)) "label" ≠ JStr new →
  new ≠ old →
  Forall (λ e, ¬ (e_source e = old ∧ e_target e = old)) (edges (graph st)) →
  incident new (edges (graph st)) = [] →
  out.2 = None →
  incident old (edges (graph out.1)) = []
  ∧ length (incident new (edges (graph out.1))) = length (incident old (edges (graph st)))
  ∧ length (edges (graph out.1)) = length (edges (graph st))
  ∧ n_id <$> nodes (graph out.1)
    = (λ n, if String.eqb (n_id n) old then new else n_id n) <$> nodes (graph st)
  ∧ (∀ l, nodeInterfaces (graph st) !! old = Some l →
       nodeInterfaces (graph out.1) !! old = None
       ∧ nodeInterfaces (graph out.1) !! new = Some l)
  ∧ graph (handleModifyNodeSubmit user st).1 = graph out.1
  ∧ (handleModifyNodeSubmit user st).2 = None.
Proof.
  intros f old new out Hmodify Hnode Hname Hkind Hlabel Hne Hloops Hfresh Hok.
  subst out. unfold handleModalSubmit, handleModifyNodeSubmit in *.
  fold f in Hok |- *. fold new in Hok |- *.
  rewrite Hmodify, Hname, Hkind in *. cbn [orb] in *.
  lazymatch type of Hok with
  | (submit_modification _ _ ?after).2 = _ =>
      destruct (rename_by_submit_modification st after node (λ _, eq_refl) Hnode Hlabel
                  Hne Hloops Hfresh Hok) as (H1 & H2 & H3 & H4 & H5);
      lazymatch goal with
      | |- context [graph (submit_modification _ _ ?after').1 = _] =>
          destruct (submit_modification_after st after' after (λ _, eq_refl)
                      (λ _, eq_refl)) as [Hgraph Hsame]
      end
  end.
  do 5 (split; [done|]). split; [done|]. by rewrite Hsame.
Qed.

End Rename.

Lemma rename_without_self_loop_witness :
  let node := Example.first_node Example.linked in
  let st := modify_form node "leaf9" Example.linked in
  let out := handleModalSubmit Example.user st in
  (modalType (nodeForm st) = modify
   ∧ newNode (nodeForm st) = Some node
   ∧ blank (nodeName (nodeForm st)) = false
   ∧ blank (nodeKind (nodeForm st)) = false
   ∧ prop (JObj (n_data node)) "label" ≠ JStr (nodeName (nodeForm st))
   ∧ nodeName (nodeForm st) ≠ n_id node
   ∧ Forall (λ e, ¬ (e_source e = n_id node ∧ e_target e = n_id node)) (edges (graph st))
   ∧ incident (nodeName (nodeForm st)) (edges (graph st)) = []
   ∧ out.2 = None)
  ∧ incident "leaf1" (edges (graph out.1)) = []
  ∧ n_id <$> nodes (graph out.1) = ["leaf9"; "spine1"].
Proof.
  intros node st out.
  assert (modalType (nodeForm st) = modify) as Hmodify by reflexivity.
  assert (newNode (nodeForm st) = Some node) as Hnode by reflexivity.
  assert (blank (nodeName (nodeForm st)) = false) as Hname by reflexivity.
  assert (blank (nodeKind (nodeForm st)) = false) as Hkind by reflexivity.
  assert (prop (JObj (n_data node)) "label" ≠ JStr (nodeName (nodeForm st))) as Hlabel.
  { evaluate (prop (JObj (n_data node)) "label"). discriminate. }
  assert (nodeName (nodeForm st) ≠ n_id node) as Hnew.
  { evaluate (n_id node). discriminate. }
  assert (Forall (λ e, ¬ (e_source e = n_id node ∧ e_target e = n_id node))
            (edges (graph st))) as Hloop.
  { evaluate (edges (graph st)). evaluate (n_id node).
    repeat constructor. intros [_ H]. discriminate H. }
  assert (incident (nodeName (nodeForm st)) (edges (graph st)) = []) as Hfree
    by (vm_compute; reflexivity).
  assert (out.2 = None) as Hok by (vm_compute; reflexivity).
  split.
  { split; [exact Hmodify|]. split; [exact Hnode|]. split; [exact Hname|].
    split; [exact Hkind|]. split; [exact Hlabel|].
    split; [exact Hnew|]. split; [exact Hloop|]. split; [exact Hfree|exact Hok]. }
  destruct (rename_without_self_loop Example.user st node
              Hmodify Hnode Hname Hkind Hlabel Hnew Hloop Hfree Hok)
    as (Hold & _ & _ & Hids & _).
  split; [exact Hold|].
  fold out in Hids. rewrite Hids. vm_compute. reflexivity.
Defined.

(** ** Management addresses for all nodes *)

Lemma assign_ips_spec (nds : list node) (ips : list string) :
  (length ips ≤ length nds)%nat →
  let updatedNodes := assign_ips nds ips in
  n_id <$> updatedNodes = n_id <$> nds
  ∧ n_position <$> updatedNodes = n_position <$> nds
  ∧ (λ n, data_prop n "mgmtIp") <$> take (length ips) updatedNodes = JStr <$> ips
  ∧ drop (length ips) updatedNodes = drop (length ips) nds.
Proof.
  revert ips. induction nds as [|n nds IH]; intros [|ip ips] Hlen; cbn in Hlen;
    try (by repeat split); try lia.
  destruct (IH ips ltac:(lia)) as (Hids & Hpos & Hips & Hrest).
  cbn [assign_ips]. cbv zeta. cbn [fmap list_fmap length take drop n_id n_position].
  rewrite Hids, Hpos, Hips, Hrest. repeat split.
  unfold data_prop at 1. cbn [n_data]. by rewrite prop_set.
Qed.

Section AutoAssign.

Context `{Y : YamlLib}.

(** X15. [autoAssignMgmtIPs] on a subnet text. When the allocator gives
    no address, the state is returned as it is and no update is
    scheduled. Otherwise as many addresses are given as there are nodes,
    up to 253; identifiers and positions of the nodes are unchanged, the
    node at index [i] gets the address at index [i] as its [mgmtIp], these
    addresses are pairwise distinct, and nodes beyond the 253rd are left
    as they are. *)
Theorem autoAssign_distinct_addresses (subnet : string) (st : state) :
  let nds := nodes (graph st) in
  let ips := generateIpsFromSubnet subnet (length nds) in
  (ips = [] → autoAssignMgmtIPs (JStr subnet) st = inr (st, None))
  ∧ (ips ≠ [] →
     ∃ updatedNodes,
       autoAssignMgmtIPs (JStr subnet) st = inr (setNodes updatedNodes st, Some updatedNodes)
       ∧ length ips = (length nds `min` 253)%nat
       ∧ n_id <$> updatedNodes = n_id <$> nds
       ∧ n_position <$> updatedNodes = n_position <$> nds
       ∧ (λ n, data_prop n "mgmtIp") <$> take (length ips) updatedNodes = JStr <$> ips
       ∧ NoDup ((λ n, data_prop n "mgmtIp") <$> take (length ips) updatedNodes)
       ∧ drop (length ips) updatedNodes = drop (length ips) nds).
Proof.
  intros nds ips. unfold autoAssignMgmtIPs, generateIpsFromSetting. fold nds.
  cbn [rbind ok]. fold ips. split.
  - intros ->. case_bool_decide; [done|]. by rewrite bool_decide_true.
  - intros Hips.
    assert (length ips = (length nds `min` 253)%nat) as Hlen.
    { subst ips. destruct (generateIps_cases subnet) as [Hnone|(a & b & c & Hloop)].
      - by rewrite Hnone in Hips.
      - by rewrite Hloop, length_fmap, length_seq. }
    assert (length nds ≠ 0%nat) as Hnodes.
    { intros Hz. rewrite Hz in Hlen. destruct ips; [done|]. cbn in Hlen. lia. }
    rewrite bool_decide_false by done.
    rewrite bool_decide_false by (by destruct ips).
    eexists. split; [reflexivity|]. split; [done|].
    destruct (assign_ips_spec nds ips ltac:(lia)) as (Hids & Hpos & Hgot & Hrest).
    do 3 (split; [done|]). split; [|done].
    rewrite Hgot. apply NoDup_fmap_2; [by intros ?? [= ->]|].
    apply generateIps_NoDup.
Qed.

End AutoAssign.

(** ** The name the form proposes *)

Lemma rev_app_rev_app s1 s2 s3 :
  String.rev_app (String.rev_app s1 s2) s3 = String.rev_app s2 (s1 +:+ s3).
Proof.
  revert s2 s3. induction s1 as [|a s1 IH]; intros s2 s3; [done|].
  cbn [String.rev_app]. by rewrite IH.
Qed.

Lemma rev_rev s : String.rev (String.rev s) = s.
Proof.
  unfold String.rev. rewrite rev_app_rev_app. cbn [String.rev_app].
  induction s as [|a s IH]; [done|]. rewrite append_String. by rewrite IH.
Qed.

Lemma plain_prefix_rev_app s1 s2 :
  plain_prefix (String.rev_app s1 s2) = plain_prefix s1 && plain_prefix s2.
Proof.
  revert s2. induction s1 as [|a s1 IH]; intros s2; [done|].
  cbn [String.rev_app plain_prefix]. rewrite IH. cbn [plain_prefix].
  by destruct (plain_char a), (plain_prefix s1), (plain_prefix s2).
Qed.

Lemma plain_char_not_space c : plain_char c = true → is_js_space c = false.
Proof.
  destruct c as [[] [] [] [] [] [] [] []]; vm_compute; congruence.
Qed.

Lemma skip_spaces_plain s : plain_prefix s = true → skip_spaces s = s.
Proof.
  destruct s as [|c s]; [done|]. cbn [plain_prefix skip_spaces].
  intros [Hc _]%andb_true_iff. by rewrite (plain_char_not_space c Hc).
Qed.

Lemma trim_plain s : plain_prefix s = true → trim s = s.
Proof.
  intros Hs. unfold trim. rewrite (skip_spaces_plain s Hs).
  rewrite skip_spaces_plain; [apply rev_rev|].
  unfold String.rev. rewrite plain_prefix_rev_app, Hs. done.
Qed.

Lemma plain_prefix_app s1 s2 :
  plain_prefix (s1 +:+ s2) = plain_prefix s1 && plain_prefix s2.
Proof.
  induction s1 as [|a s1 IH]; [by rewrite append_empty|].
  rewrite append_String. cbn [plain_prefix]. rewrite IH. by destruct (plain_char a).
Qed.

Lemma all_digits_plain s acc n : all_digits s acc = Some n → plain_prefix s = true.
Proof.
  revert acc. induction s as [|c s IH]; intros acc; [done|]. cbn [all_digits plain_prefix].
  destruct (is_digit c) eqn:Hd; [|done]. intros H%IH. rewrite H.
  unfold plain_char. by rewrite Hd.
Qed.

Lemma plain_prefix_pretty (n : N) : plain_prefix (pretty n) = true.
Proof. eapply all_digits_plain, all_digits_pretty. Qed.

Lemma append_empty_right (s : string) : s +:+ "" = s.
Proof. induction s as [|c s IH]; [done|]. by rewrite append_String, IH. Qed.

Section Proposal.

Context `{Y : YamlLib} (user : option string).

(** The prefix handler fills the name field, and the creation that follows
    appends one node under that name. *)
Lemma proposal_creates_node (prefix : string) (st : state) (template : node) :
  modalType (nodeForm st) = create →
  isModifying (nodeForm st) = false →
  newNode (nodeForm st) = Some template →
  nodeCount (nodeForm st) = 1%Z →
  plain_prefix prefix = true →
  prefix ≠ "" →
  blank (nodeKind (nodeForm st)) = false →
  labels_are_strings (nodes (graph st)) →
  ∃ highest,
    let name := prefix +:+ (if (highest =? 0)%N then "" else pretty (highest + 1)%N) in
    let st1 := setNodeName name (setNodeNamePrefix prefix st) in
    highestNodeNum prefix (nodes (graph st)) 0 = inr highest
    ∧ handleNodeNamePrefixChange prefix st = (st1, None)
    ∧ nodes (graph (handleModalSubmit user st1).1)
      = nodes (graph st)
        ++ [created_node (nodeForm st1) template name (n_position template)
              (nodeMgmtIp (nodeForm st)) (nodeIpv6MgmtIp (nodeForm st))].
Proof.
  intros Hc Hm Ht Hcount Hplain Hne Hkind Hlabels.
  destruct (highestNodeNum_strings prefix _ 0%N Hlabels) as [highest Hh].
  exists highest. intros name st1. split; [done|].
  split; [unfold handleNodeNamePrefixChange; by rewrite Hh, Hcount|].
  assert (plain_prefix name = true) as Hname.
  { subst name. rewrite plain_prefix_app, Hplain.
    destruct (highest =? 0)%N; [done|apply plain_prefix_pretty]. }
  assert (name ≠ "") as Hnonempty.
  { subst name. destruct prefix; [done|]. by rewrite append_String. }
  assert (blank prefix = false) as Hblank.
  { unfold blank. rewrite skip_spaces_plain by done. by destruct prefix. }
  assert (handleModalSubmit user st1 = submit_creation user st1) as ->.
  { unfold handleModalSubmit. cbn. by rewrite Hc, Hblank, Hkind. }
  destruct (submit_creation_graph user st1 highest template) as [Hnodes _]; try done.
  rewrite Hnodes. f_equal. unfold created_nodes. subst st1.
  cbn [nodeForm nodeCount nodeName nodeNamePrefix nodeMgmtIp nodeIpv6MgmtIp
       setNodeName setNodeNamePrefix with_nodeForm].
  rewrite Hcount. cbn [Z.eqb Pos.eqb].
  rewrite trim_plain by done.
  by rewrite (proj2 (String.eqb_neq _ _) Hnonempty).
Qed.


(** X24. The proposed name repeats. When no label is the prefix followed
    by a number, typing the prefix and submitting the creation form
    appends a node named by the prefix alone, and after that still no
    label is the prefix followed by a number: in any later creation form
    over the resulting graph the same prefix proposes the same name, and
    its submission appends a second node with that identifier, so the
    identifiers of the nodes are no longer distinct. *)
Theorem repeated_proposal_duplicates (prefix : string) (st st' : state)
    (template template' : node) :
  let f := nodeForm st in
  let f' := nodeForm st' in
  let st2 := (handleModalSubmit user (handleNodeNamePrefixChange prefix st).1).1 in
  modalType f = create → isModifying f = false → newNode f = Some template →
  nodeCount f = 1%Z → blank (nodeKind f) = false →
  "label" ∉ (fst <$> nodeCustomFields f) →
  plain_prefix prefix = true → prefix ≠ "" →
  labels_are_strings (nodes (graph st)) →
  highestNodeNum prefix (nodes (graph st)) 0 = inr 0%N →
  graph st' = graph st2 →
  modalType f' = create → isModifying f' = false → newNode f' = Some template' →
  nodeCount f' = 1%Z → blank (nodeKind f') = false →
  n_id <$> nodes (graph st2) = (n_id <$> nodes (graph st)) ++ [prefix]
  ∧ highestNodeNum prefix (nodes (graph st2)) 0 = inr 0%N
  ∧ nodeName (nodeForm (handleNodeNamePrefixChange prefix st').1) = prefix
  ∧ n_id <$> nodes (graph (handleModalSubmit user
                             (handleNodeNamePrefixChange prefix st').1).1)
    = (n_id <$> nodes (graph st)) ++ [prefix; prefix]
  ∧ ¬ NoDup (n_id <$> nodes (graph (handleModalSubmit user
                                      (handleNodeNamePrefixChange prefix st').1).1)).
Proof.
  intros f f' st2 Hc Hm Ht Hcount Hkind Hfree Hplain Hne Hlabels Hzero Hgraph
    Hc' Hm' Ht' Hcount' Hkind'.
  destruct (proposal_creates_node prefix st template Hc Hm Ht Hcount Hplain Hne Hkind
              Hlabels) as (highest & Hh & Hchange & Hnodes).
  rewrite Hzero in Hh. injection Hh as <-. cbn [N.eqb] in Hchange, Hnodes.
  rewrite append_empty_right in Hchange, Hnodes.
  assert (nodes (graph st2)
          = nodes (graph st)
            ++ [created_node (nodeForm (setNodeName prefix (setNodeNamePrefix prefix st)))
                  template prefix (n_position template) (nodeMgmtIp f)
                  (nodeIpv6MgmtIp f)]) as Hnodes2.
  { subst st2. by rewrite Hchange. }
  clear Hnodes Hchange.
  assert (labels_are_strings (nodes (graph st2))) as Hlabels2.
  { rewrite Hnodes2. apply Forall_app. split; [done|]. repeat constructor.
    exists prefix. by apply form_data_label. }
  assert (highestNodeNum prefix (nodes (graph st2)) 0 = inr 0%N) as Hzero2.
  { destruct (highestNodeNum_strings prefix _ 0%N Hlabels2) as [highest Hh].
    rewrite Hh. f_equal.
    destruct (highestNodeNum_attained _ _ _ _ Hh) as [->|(nd & label & Hnd & Hl & Hs)];
      [done|].
    rewrite Hnodes2 in Hnd. apply elem_of_app in Hnd as [Hnd|Hnd%list_elem_of_singleton].
    - apply highestNodeNum_bound in Hzero as [_ Hall].
      pose proof (Hall nd label highest Hnd Hl Hs). lia.
    - subst nd. cbn [n_data created_node] in Hl. rewrite form_data_label in Hl by done.
      injection Hl as <-. unfold suffix_number in Hs.
      rewrite <-(append_empty_right prefix) in Hs at 2.
      rewrite startsWith_append in Hs.
      rewrite <-(append_empty_right prefix) in Hs at 2.
      by rewrite drop_string_append in Hs. }
  assert (labels_are_strings (nodes (graph st'))) as Hlabels' by (by rewrite Hgraph).
  destruct (proposal_creates_node prefix st' template' Hc' Hm' Ht' Hcount' Hplain Hne
              Hkind' Hlabels') as (highest & Hh & Hchange & Hnodes).
  rewrite Hgraph, Hzero2 in Hh. injection Hh as <-. cbn [N.eqb] in Hchange, Hnodes.
  rewrite append_empty_right in Hchange, Hnodes.
  rewrite Hchange. cbn [fst].
  assert (n_id <$> nodes (graph st2) = (n_id <$> nodes (graph st)) ++ [prefix]) as Hids2
    by (by rewrite Hnodes2, fmap_app).
  split; [done|]. split; [done|]. split; [done|].
  assert (n_id <$> nodes (graph (handleModalSubmit user
                                   (setNodeName prefix (setNodeNamePrefix prefix st'))).1)
          = (n_id <$> nodes (graph st)) ++ [prefix; prefix]) as Hids.
  { rewrite Hnodes, fmap_app, Hgraph, Hids2, <-app_assoc. done. }
  split; [done|]. rewrite Hids. intros Hdup.
  apply NoDup_app in Hdup as (_ & _ & Hdup). apply NoDup_cons in Hdup as [Hin _].
  apply Hin. left.
Qed.

End Proposal.

Lemma repeated_proposal_duplicates_witness :
  let st := router_form "" "" 1 Example.two_nodes in
  let st2 := (handleModalSubmit Example.user (handleNodeNamePrefixChange "spine1" st).1).1 in
  let st' := router_form "" "" 1 st2 in
  let f := nodeForm st in
  let f' := nodeForm st' in
  (modalType f = create ∧ isModifying f = false ∧ newNode f = Some (clicked_node "router")
   ∧ nodeCount f = 1%Z ∧ blank (nodeKind f) = false
   ∧ ("label" ∉ (fst <$> nodeCustomFields f))
   ∧ plain_prefix "spine1" = true ∧ "spine1" ≠ ""
   ∧ labels_are_strings (nodes (graph st))
   ∧ highestNodeNum "spine1" (nodes (graph st)) 0 = inr 0%N
   ∧ graph st' = graph st2
   ∧ modalType f' = create ∧ isModifying f' = false
   ∧ newNode f' = Some (clicked_node "router")
   ∧ nodeCount f' = 1%Z ∧ blank (nodeKind f') = false)
  ∧ n_id <$> nodes (graph st2) = ["leaf1"; "spine1"; "spine1"]
  ∧ n_id <$> nodes (graph (handleModalSubmit Example.user
                             (handleNodeNamePrefixChange "spine1" st').1).1)
    = ["leaf1"; "spine1"; "spine1"; "spine1"].
Proof.
  intros st st2 st' f f'.
  assert ("label" ∉ (fst <$> nodeCustomFields f)) as Hfree.
  { evaluate (fst <$> nodeCustomFields f). intros H.
    apply elem_of_cons in H as [H|H]; [discriminate H|]. by apply elem_of_nil in H. }
  assert ("spine1" ≠ "") as Hne by discriminate.
  assert (labels_are_strings (nodes (graph st))) as Hlabels.
  { evaluate (nodes (graph st)). repeat constructor; eexists; reflexivity. }
  assert (highestNodeNum "spine1" (nodes (graph st)) 0 = inr 0%N) as Hzero
    by (vm_compute; reflexivity).
  assert (graph st' = graph st2) as Hgraph by (vm_compute; reflexivity).
  assert (isModifying f' = false) as Hm' by (vm_compute; reflexivity).
  split.
  { do 5 (split; [reflexivity|]). split; [exact Hfree|]. split; [reflexivity|].
    split; [exact Hne|]. split; [exact Hlabels|]. split; [exact Hzero|].
    split; [exact Hgraph|]. split; [reflexivity|]. split; [exact Hm'|].
    do 2 (split; [reflexivity|]). reflexivity. }
  destruct (repeated_proposal_duplicates Example.user "spine1" st st'
              (clicked_node "router") (clicked_node "router")
              eq_refl eq_refl eq_refl eq_refl eq_refl Hfree eq_refl Hne Hlabels Hzero
              Hgraph eq_refl Hm' eq_refl eq_refl eq_refl)
    as (Hids2 & _ & _ & Hids & _).
  fold st2 in Hids2. split.
  - rewrite Hids2. evaluate (n_id <$> nodes (graph st)). reflexivity.
  - rewrite Hids. evaluate (n_id <$> nodes (graph st)). reflexivity.
Defined.

(** ** Dragging a node *)

Section Drag.

Context `{Y : YamlLib} (user : option string).

(** The renderer reads the identifier and the data of a node only. *)
Lemma node_entries_ext cfg (nds nds' : list node) acc :
  Forall2 (λ n n', n_id n' = n_id n ∧ n_data n' = n_data n) nds nds' →
  node_entries cfg nds' acc = node_entries cfg nds acc.
Proof.
  intros H. revert acc. induction H as [|n n' nds nds' [Hid Hdata] _ IH]; intros acc; [done|].
  cbn [node_entries].
  assert (node_entry cfg n' = node_entry cfg n) as ->
    by (unfold node_entry, nodeKeyOf; by rewrite Hid, Hdata).
  assert (nodeKeyOf n' = nodeKeyOf n) as -> by (unfold nodeKeyOf; by rewrite Hid, Hdata).
  destruct (node_entry cfg n) as [|o]; [done|]. cbn [rbind]. apply IH.
Qed.

Lemma updateYaml_nodes_ext (st : state) (nds nds' : list node) eds :
  Forall2 (λ n n', n_id n' = n_id n ∧ n_data n' = n_data n) nds nds' →
  updateYaml user st nds' eds = updateYaml user st nds eds.
Proof.
  intros H. unfold updateYaml, yamlObject.
  rewrite (node_entries_ext _ nds nds') by done.
  by rewrite (Forall2_length _ _ _ H).
Qed.

(** X17. Dragging a node changes positions only: the nodes with the
    identifier of the dragged node take its position, every other node
    keeps its own; identifiers, data, edges, registry, document and
    settings are unchanged, and rendering the graph after the drag gives
    what rendering it before gave. *)
Theorem drag_keeps_document (dragged : node) (st : state) :
  let st' := onNodeDragStop dragged st in
  n_id <$> nodes (graph st') = n_id <$> nodes (graph st)
  ∧ n_data <$> nodes (graph st') = n_data <$> nodes (graph st)
  ∧ n_position <$> nodes (graph st')
    = (λ n, if String.eqb (n_id n) (n_id dragged) then n_position dragged else n_position n)
        <$> nodes (graph st)
  ∧ edges (graph st') = edges (graph st)
  ∧ nodeInterfaces (graph st') = nodeInterfaces (graph st)
  ∧ document st' = document st
  ∧ settings st' = settings st
  ∧ updateYaml user st' (nodes (graph st')) (edges (graph st'))
    = updateYaml user st (nodes (graph st)) (edges (graph st)).
Proof.
  intros st'. subst st'. unfold onNodeDragStop. cbn.
  assert (∀ {B} (g : node → B) (h : node → B),
            (∀ n, g (if String.eqb (n_id n) (n_id dragged)
                     then {| n_id := n_id n; n_type := n_type n;
                             n_position := n_position dragged; n_data := n_data n |}
                     else n) = h n) →
            g <$> ((λ n, if String.eqb (n_id n) (n_id dragged)
                         then {| n_id := n_id n; n_type := n_type n;
                                 n_position := n_position dragged; n_data := n_data n |}
                         else n) <$> nodes (graph st))
            = h <$> nodes (graph st)) as Hmap.
  { intros B g h Hgh. rewrite <-list_fmap_compose. apply list_fmap_ext.
    intros _ n _. apply Hgh. }
  split; [apply (Hmap _ n_id n_id); intros n;
          by destruct (String.eqb (n_id n) (n_id dragged))|].
  split; [apply (Hmap _ n_data n_data); intros n;
          by destruct (String.eqb (n_id n) (n_id dragged))|].
  split; [apply (Hmap _ n_position
                   (λ n, if String.eqb (n_id n) (n_id dragged) then n_position dragged
                         else n_position n)); intros n; cbv beta;
          by destruct (String.eqb (n_id n) (n_id dragged))|].
  do 4 (split; [done|]).
  rewrite (updateYaml_ext user st) by done.
  apply updateYaml_nodes_ext, Forall2_fmap_r, Forall_Forall2_diag, Forall_forall.
  intros n _. unfold compose. cbv beta. by destruct (String.eqb (n_id n) (n_id dragged)).
Qed.

End Drag.

(** ** The converter *)




Section Converter.

Context `{Y : YamlLib}.


End Converter.


(** ** Import *)


Lemma length_append (a b : string) :
  String.length (a +:+ b) = String.length a + String.length b.
Proof. induction a as [|c a IH]; [done|]. simpl. by rewrite IH. Qed.

Lemma prefixed_differs (a s : string) : a +:+ "-" +:+ s ≠ s.
Proof.
  intros H%(f_equal String.length). rewrite !length_append in H.
  cbn [String.length] in H. lia.
Qed.

Section ImportedContent.

Context `{Y : YamlLib}.
Variable user : option string.


End ImportedContent.


(** ** Reset *)

(** X20. [handleReset] empties nodes and edges and puts settings and
    document back to those of a fresh session; rendering the state after
    the reset gives the empty text it stores. The interface registry is
    not reset: every node identifier keeps its entry, so the next
    interface number of an identifier is the same after the reset as
    before. *)
Theorem reset_keeps_interface_registry `{Y : YamlLib} (user : option string) (st : state) :
  let st' := handleReset st in
  nodes (graph st') = [] ∧ edges (graph st') = []
  ∧ settings st' = settings initialState
  ∧ document st' = document initialState
  ∧ updateYaml user st' [] [] = inr (yamlOutput (document st'))
  ∧ nodeInterfaces (graph st') = nodeInterfaces (graph st)
  ∧ ∀ nodeId, getNextInterfaceNumber nodeId st' = getNextInterfaceNumber nodeId st.
Proof. by destruct st as [[] [] [] ? ? ?]. Qed.

(** ** The layout of a bulk creation *)




Section BulkLayout.

Context `{Y : YamlLib} (user : option string).


End BulkLayout.


(** ** The topology name field *)

Section TypedName.

Context `{Y : YamlLib}.

Lemma yamlObject_name (user : option string) (st : state) nds eds object :
  yamlObject user st nds eds = inr object →
  qualified_name user (topologyName (settings st)) = inr (prop object "name").
Proof.
  unfold yamlObject.
  destruct (qualified_name user _) as [|name]; [done|]. cbn [rbind].
  destruct (node_entries _ _ _) as [|nodesObject]; [done|]. cbn [rbind].
  match goal with |- rbind ?m _ = _ → _ => destruct m as [|topology]; [done|] end.
  cbn [rbind ok]. intros [= <-]. f_equal.
  destruct (showMgmt _); [|done]. by rewrite prop_set_ne.
Qed.

Lemma name_change_object_name (user : option string) typed (st : state) yamlData :
  name_change_object user typed st = inr yamlData →
  prop yamlData "name" = JStr (username_or_empty user +:+ "-" +:+ typed).
Proof.
  unfold name_change_object.
  destruct (name_change_nodes _ _) as [|nodesObject]; [done|]. cbn [rbind].
  destruct (rmap _ _) as [|links]; [done|]. cbn [rbind].
  match goal with |- rbind ?m _ = _ → _ => destruct m as [|topology]; [done|] end.
  cbn [rbind].
  match goal with |- rbind ?m _ = _ → _ => destruct m as [|topology']; [done|] end.
  cbn [rbind ok]. intros [= <-].
  destruct (showMgmt _); [|done]. by rewrite prop_set_ne.
Qed.

(** X22. Typing a topology name. When [handleTopologyNameChange] builds
    its document for a signed-in user, it throws nothing, stores the typed
    name as the topology name, leaves the graph alone and stores the
    document in both copies; the name of that document is the user name,
    a dash and the typed name, whatever was typed. [updateYaml], run on
    the state that results, writes the typed name itself when it holds the
    user name: for such a name the two renderers write different names. *)
Theorem typed_name_always_prefixed (u typed : string) (st : state) (yamlData : jv) :
  name_change_object (Some u) typed st = inr yamlData →
  let out := handleTopologyNameChange (Some u) typed st in
  out.2 = None
  ∧ topologyName (settings out.1) = JStr typed
  ∧ graph out.1 = graph st
  ∧ yamlOutput (document out.1) = yaml_dump yamlData
  ∧ editableYaml (document out.1) = yaml_dump yamlData
  ∧ prop yamlData "name" = JStr (u +:+ "-" +:+ typed)
  ∧ ∀ nds eds object,
      yamlObject (Some u) out.1 nds eds = inr object →
      prop object "name" = JStr (if includes u typed then typed else u +:+ "-" +:+ typed)
      ∧ (includes u typed = true → prop object "name" ≠ prop yamlData "name").
Proof.
  intros Hdata out. subst out. unfold handleTopologyNameChange. rewrite Hdata.
  pose proof (name_change_object_name _ _ _ _ Hdata) as Hname.
  cbn [username_or_empty default] in Hname.
  do 5 (split; [done|]). split; [done|].
  intros nds eds object Hobject. apply yamlObject_name in Hobject.
  cbn in Hobject. rewrite Hname.
  destruct (includes u typed); injection Hobject as <-; (split; [done|]).
  - intros _ [= Heq]. symmetry in Heq. by apply prefixed_differs in Heq.
  - done.
Qed.

Variable user : option string.

Lemma some_bind_object (l : list jv) (i : nat) (o : entries) :
  l !! i = Some (JObj o) →
  Forall (λ bind, ∃ s, bind = JStr s ∧ blank s = true) (take i l) →
  some_bind l = inl "bind.trim is not a function".
Proof.
  revert i. induction l as [|bind l IH]; intros [|i] Hi Hblank; try done.
  - by injection Hi as ->.
  - cbn [take] in Hblank. apply Forall_cons in Hblank as [(s & -> & Hs) Hblank].
    cbn [some_bind trimmed_nonempty rbind]. rewrite Hs. cbn [negb]. by apply (IH i).
Qed.

Lemma name_change_nodes_throws (nd : node) (nds : list node) (acc : entries) :
  nd ∈ nds → (∃ e, name_change_node nd = inl e) →
  ∃ e, name_change_nodes nds acc = inl e.
Proof.
  intros Hin [e He]. revert acc.
  induction nds as [|nd' nds IH]; intros acc; [by apply elem_of_nil in Hin|].
  cbn [name_change_nodes].
  apply elem_of_cons in Hin as [<-|Hin].
  - rewrite He. by eexists.
  - destruct (name_change_node nd') as [e'|o]; [by eexists|]. cbn [rbind]. by apply IH.
Qed.

(** X23. [handleTopologyNameChange] reads the binds of a node as
    strings. When some node has a bind that is an object, as the bind
    fields of the node form make it, and only blank strings before it,
    typing a topology name throws: the typed name is stored as the
    topology name, but the document and the graph stay as they were. *)
Theorem object_bind_stops_name_change (typed : string) (st : state) (nd : node)
    (l : list jv) (i : nat) (o : entries) :
  nd ∈ nodes (graph st) →
  prop (JObj (n_data nd)) "binds" = JArr l →
  l !! i = Some (JObj o) →
  Forall (λ bind, ∃ s, bind = JStr s ∧ blank s = true) (take i l) →
  let out := handleTopologyNameChange user typed st in
  (∃ message, out.2 = Some message)
  ∧ topologyName (settings out.1) = JStr typed
  ∧ document out.1 = document st
  ∧ graph out.1 = graph st.
Proof.
  intros Hnd Hbinds Hi Hblank out. subst out. unfold handleTopologyNameChange.
  assert (∃ e, name_change_node nd = inl e) as Hthrows.
  { unfold name_change_node.
    destruct (optional_trim _ (prop _ "kind")) as [|kind]; [by eexists|]. cbn [rbind].
    destruct (optional_trim _ (prop _ "image")) as [|image]; [by eexists|]. cbn [rbind].
    rewrite Hbinds. cbn [name_change_binds].
    rewrite (some_bind_object l i o Hi Hblank). by eexists. }
  destruct (name_change_nodes_throws nd _ [] Hnd Hthrows) as [e He].
  unfold name_change_object. rewrite He. cbn [rbind]. split; [by eexists|done].
Qed.

End TypedName.

Lemma typed_name_always_prefixed_witness :
  let out := handleTopologyNameChange (Some "bob") "bob-lab" Example.linked in
  (∃ yamlData, name_change_object (Some "bob") "bob-lab" Example.linked = inr yamlData)
  ∧ out.2 = None
  ∧ topologyName (settings out.1) = JStr "bob-lab"
  ∧ ∃ yamlData,
      yamlOutput (document out.1) = yaml_dump yamlData
      ∧ prop yamlData "name" = JStr "bob-bob-lab".
Proof.
  intros out.
  destruct (name_change_object (Some "bob") "bob-lab" Example.linked)
    as [message|yamlData] eqn:Hdata; [vm_compute in Hdata; discriminate Hdata|].
  split; [exists yamlData; reflexivity|].
  destruct (typed_name_always_prefixed "bob" "bob-lab" Example.linked yamlData Hdata)
    as (Hok & Hname & _ & Hstored & _ & Hwritten & _).
  split; [exact Hok|]. split; [exact Hname|].
  exists yamlData. split; [exact Hstored|exact Hwritten].
Defined.

Lemma object_bind_stops_name_change_witness :
  let st := Sample.with_bind in
  let nd := Example.first_node st in
  let l := [JObj [("source", JStr "/config"); ("target", JStr "/mnt/flash")]] in
  let out := handleTopologyNameChange Example.user "lab2" st in
  (nd ∈ nodes (graph st)
   ∧ prop (JObj (n_data nd)) "binds" = JArr l
   ∧ l !! 0%nat = Some (JObj [("source", JStr "/config"); ("target", JStr "/mnt/flash")])
   ∧ Forall (λ bind, ∃ s, bind = JStr s ∧ blank s = true) (take 0 l))
  ∧ (∃ message, out.2 = Some message)
  ∧ document out.1 = document st.
Proof.
  intros st nd l out.
  assert (nd ∈ nodes (graph st)) as Hnd.
  { subst nd. evaluate (Example.first_node st). evaluate (nodes (graph st)). constructor. }
  assert (prop (JObj (n_data nd)) "binds" = JArr l) as Hbinds by (vm_compute; reflexivity).
  assert (Forall (λ bind, ∃ s, bind = JStr s ∧ blank s = true) (take 0 l)) as Hblank
    by constructor.
  split; [split; [exact Hnd|split; [exact Hbinds|split; [reflexivity|exact Hblank]]]|].
  destruct (object_bind_stops_name_change Example.user "lab2" st nd l 0 _
              Hnd Hbinds eq_refl Hblank) as (Hthrows & _ & Hdocument & _).
  split; [exact Hthrows|exact Hdocument].
Defined.

(** ** The node count field *)

Lemma clamp_count_bounds (value : string) : (1 ≤ clamp_count value ≤ 100)%Z.
Proof. unfold clamp_count. lia. Qed.

Lemma clamp_count_in_range (value : string) (n : Z) :
  parseInt value = Some n → (1 ≤ n ≤ 100)%Z → clamp_count value = n.
Proof.
  intros Hn Hrange. unfold clamp_count. rewrite Hn.
  destruct (n =? 0)%Z eqn:E; [apply Z.eqb_eq in E|]; lia.
Qed.

Section CountField.

Context `{Y : YamlLib} (user : option string).

(** X25. The count field. Whatever is typed, [handleNodeCountChange]
    stores a count from 1 to 100: the number typed when it is in that
    range, 1 when no number can be read; graph and document are
    untouched and the name field is set to the prefix, followed by [1]
    for a count above 1. Submitting the creation form then appends
    exactly that many nodes and no edge. *)
Theorem count_field_bounds_creation (value : string) (st : state) (template : node) :
  let st1 := handleNodeCountChange value st in
  let f := nodeForm st in
  let count := nodeCount (nodeForm st1) in
  modalType f = create → isModifying f = false → newNode f = Some template →
  plain_prefix (nodeNamePrefix f) = true →
  blank (nodeNamePrefix f) = false → blank (nodeKind f) = false →
  labels_are_strings (nodes (graph st)) →
  (1 ≤ count ≤ 100)%Z
  ∧ (∀ n, parseInt value = Some n → (1 ≤ n ≤ 100)%Z → count = n)
  ∧ (parseInt value = None → count = 1%Z)
  ∧ graph st1 = graph st ∧ document st1 = document st
  ∧ nodeName (nodeForm st1)
    = nodeNamePrefix f +:+ (if (1 <? count)%Z then "1" else "")
  ∧ length (nodes (graph (handleModalSubmit user st1).1))
    = (length (nodes (graph st)) + Z.to_nat count)%nat
  ∧ edges (graph (handleModalSubmit user st1).1) = edges (graph st).
Proof.
  intros st1 f count Hc Hm Ht _ Hp Hk Hlabels.
  assert (nodeNamePrefix f ≠ "") as Hne by (by destruct (nodeNamePrefix f)).
  assert (st1 = setNodeName
                  (nodeNamePrefix f +:+ (if (1 <? clamp_count value)%Z then "1" else ""))
                  (setNodeCount (clamp_count value) st)) as Hst1.
  { subst st1. unfold handleNodeCountChange. fold f.
    by rewrite (proj2 (String.eqb_neq _ _) Hne). }
  assert (count = clamp_count value) as Hcount by (subst count; by rewrite Hst1).
  pose proof (clamp_count_bounds value) as Hbounds.
  split; [by rewrite Hcount|].
  split; [intros n Hn Hrange; rewrite Hcount; by apply clamp_count_in_range|].
  split; [intros Hnone; rewrite Hcount; unfold clamp_count; by rewrite Hnone|].
  split; [by rewrite Hst1|]. split; [by rewrite Hst1|].
  split; [by rewrite Hst1, <-Hcount|].
  destruct (highestNodeNum_strings (nodeNamePrefix f) _ 0%N Hlabels) as [highest Hh].
  assert (graph st1 = graph st) as Hgraph by (by rewrite Hst1).
  assert (nodeNamePrefix (nodeForm st1) = nodeNamePrefix f) as Hprefix by (by rewrite Hst1).
  assert (handleModalSubmit user st1 = submit_creation user st1) as ->.
  { unfold handleModalSubmit. rewrite Hprefix.
    replace (modalType (nodeForm st1)) with (modalType f) by (by rewrite Hst1).
    replace (nodeKind (nodeForm st1)) with (nodeKind f) by (by rewrite Hst1).
    by rewrite Hc, Hp, Hk. }
  destruct (submit_creation_graph user st1 highest template) as [Hnodes Hedges].
  { by rewrite Hprefix, Hgraph. }
  { by rewrite Hst1. }
  { by rewrite Hst1. }
  rewrite Hnodes, Hedges, Hgraph, length_app. split; [|done]. f_equal.
  unfold created_nodes. fold count.
  destruct (count =? 1)%Z eqn:E; [apply Z.eqb_eq in E; by rewrite E|].
  by rewrite length_fmap, length_seq.
Qed.

End CountField.

Lemma count_field_bounds_creation_witness :
  let st := router_form "leaf" "" 1 Example.two_nodes in
  let st1 := handleNodeCountChange "250" st in
  let f := nodeForm st in
  (modalType f = create ∧ isModifying f = false
   ∧ newNode f = Some (clicked_node "router")
   ∧ plain_prefix (nodeNamePrefix f) = true
   ∧ blank (nodeNamePrefix f) = false ∧ blank (nodeKind f) = false
   ∧ labels_are_strings (nodes (graph st)))
  ∧ nodeCount (nodeForm st1) = 100%Z
  ∧ length (nodes (graph (handleModalSubmit Example.user st1).1)) = 102%nat.
Proof.
  intros st st1 f.
  assert (labels_are_strings (nodes (graph st))) as Hlabels.
  { evaluate (nodes (graph st)). repeat constructor; eexists; reflexivity. }
  split; [do 6 (split; [reflexivity|]); exact Hlabels|].
  destruct (count_field_bounds_creation Example.user "250" st (clicked_node "router")
              eq_refl eq_refl eq_refl eq_refl eq_refl eq_refl Hlabels)
    as (_ & _ & _ & _ & _ & _ & Hlength & _).
  assert (nodeCount (nodeForm st1) = 100%Z) as Hcount by (vm_compute; reflexivity).
  split; [exact Hcount|].
  fold st1 in Hlength. rewrite Hlength, Hcount.
  evaluate (length (nodes (graph st))). reflexivity.
Defined.

(** ** Renaming a kind template *)



Section KindRename.

Context `{Y : YamlLib} (user : option string).



End KindRename.

(** ** What rendering keeps of the previous document *)



Section Sticky.

Context `{Y : YamlLib}.



Variable user : option string.


End Sticky.


